(** * Lane County GIS: the parcel data-resolution pipeline of [script.js]

    A shallow embedding of the field resolver ([getField]), the record
    normalizer ([normalizeParcel]) and its two placeholder constructors,
    the taxlot endpoint sequencer ([tryIdentifyFromTaxlots]), the reverse
    geocoder ([tryReverseGeocode]), the identify pipeline
    ([identifyParcelAt]), the address search ([searchAddresses]), the
    saved list ([isCurrentSaved], [saveCurrentProperty]) and the saved
    drawer ([initSaved], [filterSaved], the selection and the deletions).

    The repository holds a second copy of this pipeline that differs in
    the proxy URL only; one embedding, over a [Config], covers both.

    Conventions of the embedding.
    - A JavaScript string is a [string] (its UTF-8 bytes).  Equality,
      concatenation and [includes] are those of the bytes.  Lower-casing
      is computed on ASCII strings and is a primitive of the host on the
      others.
    - A JavaScript number is a [JsNum]: the exact rational value of a
      finite double, or NaN, or an infinity.  [-0] and [+0] are the same
      rational; the program never tells them apart.
    - An attribute bag is the list of the object's own enumerable
      properties in [Object.keys] order; each name occurs once and the
      values are the scalars of JSON.  A bag is a plain object: reading a
      name it does not hold gives the member of [Object.prototype] of
      that name, if there is one.
    - [await] is sequencing: the code runs on one thread and every
      endpoint attempt completes before the next one starts.
    - The network is an oracle from the requests made so far and the
      requested URL to the outcome of [fetch].
    - Leaflet is not part of the repository: whether [L.polygon] accepts
      a list of vertices is a parameter of the pipeline. *)

From Stdlib Require Import List String Ascii Bool Arith ZArith QArith Qround Qabs Lia.
From Stdlib Require Import Numbers.DecimalString Numbers.DecimalN Lqa.
Import ListNotations.

Close Scope Q_scope.
Open Scope list_scope.
Open Scope string_scope.

(* ================================================================== *)
(** ** Strings *)

(** A string of ASCII characters only: every byte is below 128. *)
Definition isAsciiChar (c : ascii) : bool := (nat_of_ascii c <? 128)%nat.

Fixpoint isAscii (s : string) : bool :=
  match s with
  | EmptyString => true
  | String c rest => isAsciiChar c && isAscii rest
  end.

(** Lower-casing within ASCII: the letters A to Z are folded and nothing
    else is. *)
Definition lowerChar (c : ascii) : ascii :=
  let n := nat_of_ascii c in
  if (65 <=? n)%nat && (n <=? 90)%nat then ascii_of_nat (n + 32) else c.

Fixpoint asciiLower (s : string) : string :=
  match s with
  | EmptyString => EmptyString
  | String c rest => String (lowerChar c) (asciiLower rest)
  end.

(** The double quote, as a string of one character. *)
Definition doubleQuote : string := String (ascii_of_nat 34) EmptyString.

Fixpoint repeatChar (c : ascii) (n : nat) : string :=
  match n with
  | O => EmptyString
  | S k => String c (repeatChar c k)
  end.

(** The decimal digits of a non-negative integer, ["0"] for zero. *)
Definition decimalOfN (n : N) : string := NilZero.string_of_uint (N.to_uint n).

(** [arr.push(x)]. *)
Definition push {A : Type} (arr : list A) (x : A) : list A := (arr ++ [x])%list.

(** [Array.prototype.join] on an array of strings. *)
Fixpoint joinStrings (sep : string) (parts : list string) : string :=
  match parts with
  | [] => ""
  | [p] => p
  | p :: rest => p ++ sep ++ joinStrings sep rest
  end.

(* ================================================================== *)
(** ** Numbers *)

Inductive JsNum : Type :=
| Finite (q : Q)
| NaN
| PosInfinity
| NegInfinity.

Definition isNegative (q : Q) : bool := (Qnum q <? 0)%Z.

Definition pow10 (f : nat) : Q := inject_Z (10 ^ Z.of_nat f).

(** The integer [n] for which [n / 10^f - x] is closest to zero, the larger
    one on a tie ([x] is non-negative here). *)
Definition nearestScaled (x : Q) (f : nat) : Z := Qfloor (x * pow10 f + (1 # 2)).

(** Steps 10-11 of [Number.prototype.toFixed] below 10^21: the digits of
    [n], padded on the left to [f + 1] characters, with a point before the
    last [f] of them. *)
Definition fixedDigits (n : Z) (f : nat) : string :=
  let m := decimalOfN (Z.to_N n) in
  match f with
  | O => m
  | _ =>
      let m' := if (String.length m <=? f)%nat
                then repeatChar "0"%char (f + 1 - String.length m) ++ m
                else m in
      let k := String.length m' in
      substring 0 (k - f) m' ++ "." ++ substring (k - f) f m'
  end.

(* ================================================================ *)
(** ** Values and attribute bags *)

(** The scalars of JSON and [undefined], and [VObject member]: the object
    that [Object.prototype] holds under the name [member], a built-in
    function or, under [__proto__], the prototype itself. *)
Inductive JsVal : Type :=
| VUndefined
| VNull
| VBool (b : bool)
| VNum (n : JsNum)
| VStr (s : string)
| VObject (member : string).

(** [ToBoolean]. *)
Definition truthy (v : JsVal) : bool :=
  match v with
  | VUndefined | VNull => false
  | VBool b => b
  | VNum (Finite q) => negb (Qeq_bool q 0)
  | VNum NaN => false
  | VNum _ => true
  | VStr s => negb (String.eqb s "")
  | VObject _ => true
  end.

Definition Attrs : Type := list (string * JsVal).

(** The names of the members of [Object.prototype]. *)
Definition objectPrototypeNames : list string :=
  ["constructor"; "__defineGetter__"; "__defineSetter__"; "hasOwnProperty";
   "__lookupGetter__"; "__lookupSetter__"; "isPrototypeOf";
   "propertyIsEnumerable"; "toString"; "valueOf"; "__proto__";
   "toLocaleString"].

Definition inheritedName (key : string) : bool :=
  existsb (String.eqb key) objectPrototypeNames.

(** No candidate of the list names a member of [Object.prototype]. *)
Definition ownNames (keys : list string) : bool :=
  forallb (fun key => negb (inheritedName key)) keys.

(** [Object.prototype[key]]. *)
Definition inheritedProp (key : string) : JsVal :=
  if inheritedName key then VObject key else VUndefined.

(** [attrs[key]]: the bag's own property of that name or, when it has
    none, the member it inherits from [Object.prototype]. *)
Fixpoint getProp (attrs : Attrs) (key : string) : JsVal :=
  match attrs with
  | [] => inheritedProp key
  | (k, v) :: rest => if String.eqb k key then v else getProp rest key
  end.

(** [Object.keys(attrs)]. *)
Definition objectKeys (attrs : Attrs) : list string := map fst attrs.

(* ================================================================ *)
(** ** Field normalization *)

(** [v !== undefined && v !== null && v !== '']. *)
Definition present (v : JsVal) : bool :=
  match v with
  | VUndefined | VNull => false
  | VStr s => negb (String.eqb s "")
  | _ => true
  end.


Module FIELD_MAP.
Definition owner : list string :=
  ["OWNER1"; "OWNER"; "OWNER_NAME"; "NAME"; "GRANTEE"; "OWNNAME"; "ownname"].
Definition situs : list string :=
  ["SITUS_ADDR"; "SITEADDR"; "SITUS"; "ADDRESS"; "PROP_ADDR"; "ADDR1"; "addr1"].
Definition city : list string := ["SITUS_CITY"; "CITY"].
Definition state : list string := ["SITUS_STATE"; "STATE"].
Definition zip : list string := ["SITUS_ZIP"; "ZIP"; "ZIPCODE"].
Definition assessed : list string :=
  ["TOTALVALUE"; "TOTAL_VALUE"; "ASSESSED"; "ASSESSED_VALUE"].
Definition land : list string := ["LANDVALUE"; "LAND_VALUE"].
Definition improv : list string := ["IMPVALUE"; "IMP_VALUE"; "IMPR_VALUE"].
Definition acres : list string := ["ACRES"; "ACREAGE"].
Definition zoning : list string := ["ZONING"; "ZONE"].
Definition yearBuilt : list string := ["YEARBUILT"; "YEAR_BUILT"].
Definition parcelId : list string :=
  ["TAXLOT"; "PARCEL"; "PARCEL_ID"; "ACCTNO"; "acctno"; "MAPLOT"; "maplot"].
Definition taxLot : list string :=
  ["MAPTAXLOT"; "MAP_TAXLOT"; "TAXLOT"; "MAPLOT"; "maplot"].
Definition propType : list string := ["PROPCLASS"; "PROP_CLASS"; "PROPERTY_CLASS"].
Definition township : list string := ["TOWNSHIP"; "TWP"].
Definition range : list string := ["RANGE"; "RNG"].
Definition section : list string := ["SECTION"; "SEC"].
End FIELD_MAP.


(** [v] is the default [dflt], or a present value held by the bag. *)
Definition fromBagOr (attrs : Attrs) (dflt v : JsVal) : Prop :=
  v = dflt \/
  exists key, In key (objectKeys attrs) /\ getProp attrs key = v /\ present v = true.

(* ================================================================ *)
(** ** The canonical Property *)

Record Property : Type := mkProperty {
  uniqueKey : string;
  owner : JsVal;
  situs : JsVal;
  city : JsVal;
  state : JsVal;
  zip : JsVal;
  fullAddress : string;
  assessed : JsVal;
  land : JsVal;
  improv : JsVal;
  acres : JsVal;
  lotSizeLabel : string;
  zoning : JsVal;
  yearBuilt : JsVal;
  parcelId : JsVal;
  taxLot : JsVal;
  propType : JsVal;
  township : JsVal;
  range : JsVal;
  section : JsVal;
  trs : string;
  savedAt : JsVal;
  _rawAttrs : Attrs
}.

(** The fields of a Property that hold a JavaScript value; the other
    fields are strings or the raw bag, which are never [undefined]. *)
Definition valueFields (p : Property) : list JsVal :=
  [owner p; situs p; city p; state p; zip p; assessed p; land p; improv p;
   acres p; zoning p; yearBuilt p; parcelId p; taxLot p; propType p;
   township p; range p; section p; savedAt p].

(** [{ ...p, id, savedAt }]: an entry of [AppState.saved]. *)
Record SavedItem : Type := mkSavedItem {
  savedProperty : Property;
  id : N
}.

Definition withSavedAt (p : Property) (stamp : JsVal) : Property :=
  mkProperty (uniqueKey p) (owner p) (situs p) (city p) (state p) (zip p)
    (fullAddress p) (assessed p) (land p) (improv p) (acres p)
    (lotSizeLabel p) (zoning p) (yearBuilt p) (parcelId p) (taxLot p)
    (propType p) (township p) (range p) (section p) (trs p) stamp
    (_rawAttrs p).

(* ================================================================ *)
(** ** Responses of the remote services

    A response body is read through the fields the program looks at.
    [None] stands for a field that is missing or falsy. *)

Record JsError : Type := mkError { name : string; message : string }.

(** A vertex of a ring: the array the arrow function destructures. *)
Definition Point : Type := list JsVal.

Record Geometry : Type := mkGeometry { rings : option (list (list Point)) }.

Module Feature.
Record t : Type := mk {
  attributes : option Attrs;
  properties : option Attrs;
  geometry : option Geometry
}.
End Feature.

(** [feat.attributes || feat.properties || {}]. *)
Definition featureAttrs (feat : Feature.t) : Attrs :=
  match Feature.attributes feat with
  | Some a => a
  | None => match Feature.properties feat with
            | Some a => a
            | None => []
            end
  end.

Record AddressObj : Type := mkAddress {
  Address : JsVal;
  Match_addr : JsVal;
  City : JsVal;
  Region : JsVal;
  Postal : JsVal
}.

Module Candidate.
Record t : Type := mk {
  address : JsVal;
  score : JsVal;
  location : option (JsVal * JsVal)   (* x, y *)
}.
End Candidate.

Module Json.
Record t : Type := mk {
  features : option (list Feature.t);
  address : option AddressObj;
  candidates : option (list Candidate.t)
}.
End Json.

(** What [res.json()] gives: the parsed body, or a rejection. *)
Inductive Body : Type :=
| BodyThrows (err : JsError)
| BodyJson (json : Json.t).

Record Response : Type := mkResponse { ok : bool; status : N; body : Body }.

(** What [fetch] gives: a rejection (network failure, or [AbortError] when
    the deadline fired) or a response. *)
Inductive FetchOutcome : Type :=
| FetchThrows (err : JsError)
| FetchResponds (res : Response).

(** The network: the URLs requested so far, the URL and the deadline (ms)
    of this request. *)
Definition Network : Type := list string -> string -> N -> FetchOutcome.

(** What the taxlot sequencer returns on success. *)
Record IdentifyResult : Type := mkResult {
  property : Property;
  geometry : option Geometry
}.

(** A candidate as [normalizeCandidates] shapes it. *)
Record SearchCandidate : Type := mkCandidate {
  address : JsVal;
  score : JsVal;
  location : JsVal * JsVal   (* lat, lng *)
}.

(* ================================================================ *)
(** ** Configuration *)

Record Config : Type := mkConfig {
  CORS_PROXY : string;
  TAXLOT_ENDPOINTS : list string;
  ESRI_GEOCODE_URL : string;
  OREGON_GEOCODE_URL : string
}.

Definition LANE_TAXLOTS_URL : string :=
  "https://gis.lanecounty.org/arcgis/rest/services/LaneCounty/Taxlots/MapServer/0".
Definition EUGENE_TAXLOTS_URL : string := "".
Definition STATEWIDE_TAXLOTS_URL : string := "".
Definition STORAGE_KEY : string := "lane_gis_saved_v1".

Definition nonEmpty (s : string) : bool := negb (String.eqb s "").

(** The configuration as [script.js] ships it; [filter(Boolean)] drops the
    two endpoints that are left empty. *)
Definition shippedConfig : Config :=
  {| CORS_PROXY := "https://lane-cors.blakebigstrib.workers.dev/?url=";
     TAXLOT_ENDPOINTS :=
       filter nonEmpty [LANE_TAXLOTS_URL; EUGENE_TAXLOTS_URL; STATEWIDE_TAXLOTS_URL];
     ESRI_GEOCODE_URL :=
       "https://geocode.arcgis.com/arcgis/rest/services/World/GeocodeServer";
     OREGON_GEOCODE_URL := "" |}.

(* ================================================================ *)
(** ** URL encoding *)

Definition hexDigit (n : nat) : ascii :=
  if (n <? 10)%nat then ascii_of_nat (48 + n) else ascii_of_nat (55 + n).

Definition percentByte (c : ascii) : string :=
  let n := nat_of_ascii c in
  String "%"%char (String (hexDigit (n / 16)) (String (hexDigit (n mod 16)) "")).

Definition isAlnum (c : ascii) : bool :=
  let n := nat_of_ascii c in
  ((48 <=? n) && (n <=? 57) || (65 <=? n) && (n <=? 90)
   || (97 <=? n) && (n <=? 122))%nat.

Definition oneOf (chars : string) (c : ascii) : bool :=
  existsb (Ascii.eqb c) (list_ascii_of_string chars).

(** [encodeURIComponent]: every byte but the unreserved marks and the
    alphanumerics is percent-encoded. *)
Fixpoint encodeURIComponent (s : string) : string :=
  match s with
  | EmptyString => EmptyString
  | String c rest =>
      (if isAlnum c || oneOf "-_.!~*'()" c then String c "" else percentByte c)
      ++ encodeURIComponent rest
  end.

(** The [application/x-www-form-urlencoded] byte serializer. *)
Fixpoint formEncode (s : string) : string :=
  match s with
  | EmptyString => EmptyString
  | String c rest =>
      (if Ascii.eqb c " "%char then "+"
       else if isAlnum c || oneOf "*-._" c then String c ""
       else percentByte c)
      ++ formEncode rest
  end.

(** [new URLSearchParams({...}).toString()]. *)
Definition URLSearchParams (params : list (string * string)) : string :=
  joinStrings "&" (map (fun kv => formEncode (fst kv) ++ "=" ++ formEncode (snd kv)) params).

(* ================================================================ *)
(** ** Application state and the world around it *)

(** A polygon on the highlight layer: its [lat, lng] vertices (the style
    options are constants). *)
Definition Polygon : Type := list (list JsVal).

Record AppStateT : Type := mkAppState {
  highlightLayer : list Polygon;
  currentProperty : option Property;
  saved : list SavedItem;
  filteredSaved : list SavedItem
}.

Inductive ConsoleArg : Type :=
| CText (s : string)
| CAttrs (attrs : Attrs)
| CError (err : JsError).

Inductive ConsoleLevel : Type := LevelLog | LevelWarn.

(** The world the program acts on: its own state, the requests it has
    issued, the console, the toasts shown, the [setItem] calls on durable
    storage (key and the saved array that was serialized), and the
    property panel. *)
Record World : Type := mkWorld {
  AppState : AppStateT;
  requests : list string;
  console : list (ConsoleLevel * list ConsoleArg);
  toasts : list (string * string);
  localStorage : list (string * list SavedItem);
  panel : option Property;
  panelOpen : bool
}.

Definition setAppState (a : AppStateT) (w : World) : World :=
  mkWorld a (requests w) (console w) (toasts w) (localStorage w) (panel w) (panelOpen w).

Definition recordRequest (url : string) (w : World) : World :=
  mkWorld (AppState w) (push (requests w) url) (console w) (toasts w)
    (localStorage w) (panel w) (panelOpen w).

(** How many of the requests issued so far went to [url]. *)
Definition callCount (url : string) (w : World) : nat :=
  List.length (filter (String.eqb url) (requests w)).

Definition consoleLog (args : list ConsoleArg) (w : World) : World :=
  mkWorld (AppState w) (requests w) (push (console w) (LevelLog, args)) (toasts w)
    (localStorage w) (panel w) (panelOpen w).

Definition consoleWarn (args : list ConsoleArg) (w : World) : World :=
  mkWorld (AppState w) (requests w) (push (console w) (LevelWarn, args)) (toasts w)
    (localStorage w) (panel w) (panelOpen w).

Definition showToast (msg type : string) (w : World) : World :=
  mkWorld (AppState w) (requests w) (console w) (push (toasts w) (msg, type))
    (localStorage w) (panel w) (panelOpen w).

Definition setItem (key : string) (value : list SavedItem) (w : World) : World :=
  mkWorld (AppState w) (requests w) (console w) (toasts w)
    (push (localStorage w) (key, value)) (panel w) (panelOpen w).

(** [updatePropertyPanel(p)] fills the panel from [p]. *)
Definition updatePropertyPanel (p : Property) (w : World) : World :=
  mkWorld (AppState w) (requests w) (console w) (toasts w) (localStorage w)
    (Some p) (panelOpen w).

Definition openPropertyPanel (w : World) : World :=
  mkWorld (AppState w) (requests w) (console w) (toasts w) (localStorage w)
    (panel w) true.

(* ================================================================ *)
(** ** Computations that may throw *)

Inductive Completion (A : Type) : Type :=
| Normal (a : A)
| Throw (err : JsError).
Arguments Normal {A} a.
Arguments Throw {A} err.

Definition Js (A : Type) : Type := World -> Completion A * World.

Definition ret {A} (a : A) : Js A := fun w => (Normal a, w).

Definition throw {A} (err : JsError) : Js A := fun w => (Throw err, w).

Definition bind {A B} (m : Js A) (k : A -> Js B) : Js B :=
  fun w =>
    match m w with
    | (Normal a, w') => k a w'
    | (Throw err, w') => (Throw err, w')
    end.

Definition effect (f : World -> World) : Js unit := fun w => (Normal tt, f w).

(** [try { body } catch (err) { handler }]. *)
Definition tryCatch {A} (body : Js A) (handler : JsError -> Js A) : Js A :=
  fun w =>
    match body w with
    | (Normal a, w') => (Normal a, w')
    | (Throw err, w') => handler err w'
    end.

Notation "x <- m ;; k" := (bind m (fun x => k))
  (at level 61, m at next level, right associativity).
Notation "m ;;; k" := (bind m (fun _ => k))
  (at level 61, right associativity).

(** The message of the [TypeError] raised by reading a property of
    [undefined]; the wording is the engine's. *)
Definition typeErrorReading (prop : string) : JsError :=
  mkError "TypeError"
    ("Cannot read properties of undefined (reading '" ++ prop ++ "')").

(** The [TypeError] raised by [(p.source || '').toLowerCase()] on a value
    without that method; the wording is V8's, which prints the callee
    with double quotes. *)
Definition notAFunction (source : string) : JsError :=
  mkError "TypeError"
    ("(p." ++ source ++ " || " ++ doubleQuote ++ doubleQuote
     ++ ").toLowerCase is not a function").

(* ================================================================ *)
(** ** The saved drawer

    [AppState.selectedSavedIds] is kept beside the world: a [Set] of ids,
    listed in insertion order. *)

Definition IdSet : Type := list N.

(** [set.has(id)]. *)
Definition setHas (s : IdSet) (id : N) : bool := existsb (N.eqb id) s.

(** [set.add(id)]. *)
Definition setAdd (s : IdSet) (id : N) : IdSet :=
  if setHas s id then s else push s id.

(** [set.delete(id)]. *)
Definition setDelete (s : IdSet) (id : N) : IdSet :=
  filter (fun x => negb (N.eqb x id)) s.

Record Session : Type := mkSession {
  world : World;
  selectedSavedIds : IdSet
}.

Definition setSavedLists (saved' filtered' : list SavedItem) (w : World) : World :=
  let a := AppState w in
  setAppState (mkAppState (highlightLayer a) (currentProperty a) saved' filtered') w.

(** [localStorage.getItem(key)]: the array whose JSON text the last
    [setItem] on [key] wrote. *)
Definition getItem (key : string) (w : World) : option (list SavedItem) :=
  match filter (fun kv => String.eqb (fst kv) key) (rev (localStorage w)) with
  | kv :: _ => Some (snd kv)
  | [] => None
  end.

(** What a property that held [v] reads as once its object went through
    [JSON.stringify] and [JSON.parse].  A finite number is written with
    digits that read back as the same double and a string as it is; NaN
    and the infinities are written as [null]; a property holding
    [undefined] or a function is not written and then reads as
    [undefined]; the prototype object is written as [{}] and read back as
    an object without properties, which the embedding does not tell from
    it. *)
Definition jsonValue (v : JsVal) : JsVal :=
  match v with
  | VNum (Finite _) => v
  | VNum _ => VNull
  | VObject member => if String.eqb member "__proto__" then v else VUndefined
  | _ => v
  end.

(** The raw bag after the round trip: the properties that are written,
    in order. *)
Definition jsonAttrs (attrs : Attrs) : Attrs :=
  flat_map (fun kv => match jsonValue (snd kv) with
                      | VUndefined => []
                      | v => [(fst kv, v)]
                      end) attrs.

Definition jsonProperty (p : Property) : Property :=
  {| uniqueKey := uniqueKey p;
     owner := jsonValue (owner p);
     situs := jsonValue (situs p);
     city := jsonValue (city p);
     state := jsonValue (state p);
     zip := jsonValue (zip p);
     fullAddress := fullAddress p;
     assessed := jsonValue (assessed p);
     land := jsonValue (land p);
     improv := jsonValue (improv p);
     acres := jsonValue (acres p);
     lotSizeLabel := lotSizeLabel p;
     zoning := jsonValue (zoning p);
     yearBuilt := jsonValue (yearBuilt p);
     parcelId := jsonValue (parcelId p);
     taxLot := jsonValue (taxLot p);
     propType := jsonValue (propType p);
     township := jsonValue (township p);
     range := jsonValue (range p);
     section := jsonValue (section p);
     trs := trs p;
     savedAt := jsonValue (savedAt p);
     _rawAttrs := jsonAttrs (_rawAttrs p) |}.

(** [JSON.parse(JSON.stringify(item))] on a saved item. *)
Definition jsonItem (item : SavedItem) : SavedItem :=
  {| savedProperty := jsonProperty (savedProperty item); id := id item |}.

(** A value the round trip gives back as it is. *)
Definition jsonExact (v : JsVal) : bool :=
  match v with
  | VNum (Finite _) => true
  | VNum _ => false
  | VObject member => String.eqb member "__proto__"
  | _ => true
  end.

(** A saved item without NaN, infinity or function among its fields and
    its raw attributes, and without [undefined] among the latter. *)
Definition jsonExactItem (item : SavedItem) : bool :=
  forallb jsonExact (valueFields (savedProperty item))
  && forallb (fun kv => jsonExact (snd kv)
                        && match snd kv with VUndefined => false | _ => true end)
             (_rawAttrs (savedProperty item)).

(** [initSaved]: the saved list is parsed from the text durable storage
    holds, or is empty when there is none. *)
Definition initSaved (w : World) : World :=
  let saved' := match getItem STORAGE_KEY w with
                | Some items => map jsonItem items
                | None => []
                end in
  setSavedLists saved' saved' w.

(** [s.includes(q)]. *)
Fixpoint includes (s q : string) : bool :=
  prefix q s
  || match s with
     | EmptyString => false
     | String _ rest => includes rest q
     end.

(** [Array.prototype.filter] with a callback that may throw. *)
Fixpoint filterThrowing {A : Type} (f : A -> Completion bool) (l : list A)
  : Completion (list A) :=
  match l with
  | [] => Normal []
  | x :: rest =>
      match f x with
      | Throw err => Throw err
      | Normal keep =>
          match filterThrowing f rest with
          | Throw err => Throw err
          | Normal out => Normal (if keep then x :: out else out)
          end
      end
  end.

Definition toggleSavedSelection (id : N) (s : Session) : Session :=
  if setHas (selectedSavedIds s) id
  then mkSession (world s) (setDelete (selectedSavedIds s) id)
  else mkSession (world s) (setAdd (selectedSavedIds s) id).

Definition handleSelectAll (checked : bool) (s : Session) : Session :=
  if checked
  then mkSession (world s)
         (fold_left setAdd (map id (filteredSaved (AppState (world s)))) [])
  else mkSession (world s) [].

(** [updateSelectAllCheckbox]: the [checked] and [indeterminate] flags it
    sets. *)
Definition updateSelectAllCheckbox (s : Session) : bool * bool :=
  let visibleIds := map id (filteredSaved (AppState (world s))) in
  let selectedVisible := filter (setHas (selectedSavedIds s)) visibleIds in
  match visibleIds with
  | [] => (false, false)
  | _ =>
      match selectedVisible with
      | [] => (false, false)
      | _ =>
          if (List.length selectedVisible =? List.length visibleIds)%nat
          then (true, false)
          else (false, true)
      end
  end.

Definition deleteSingleSaved (target : N) (s : Session) : Session :=
  let a := AppState (world s) in
  let keep := fun p : SavedItem => negb (N.eqb (id p) target) in
  let saved' := filter keep (saved a) in
  let w := setSavedLists saved' (filter keep (filteredSaved a)) (world s) in
  let w := setItem STORAGE_KEY saved' w in
  mkSession (showToast "Property removed" "success" w)
            (setDelete (selectedSavedIds s) target).

(** [deleteSelectedSaved], with the answer given to the confirm modal. *)
Definition deleteSelectedSaved (confirmed : bool) (s : Session) : Session :=
  match selectedSavedIds s with
  | [] => s
  | _ =>
      if negb confirmed then s
      else
        let a := AppState (world s) in
        let saved' :=
          filter (fun p => negb (setHas (selectedSavedIds s) (id p))) (saved a) in
        let w := setSavedLists saved' (filteredSaved a) (world s) in
        let w := setItem STORAGE_KEY saved' w in
        let w := setSavedLists saved' saved' w in
        mkSession (showToast "Selected properties removed" "success" w) []
  end.

(* ================================================================ *)
(** ** A helper of the sidebar variant of the application *)

(** [str.replace(/'/g, "''")]. *)
Fixpoint doubleQuotes (s : string) : string :=
  match s with
  | EmptyString => EmptyString
  | String c rest =>
      if Ascii.eqb c "'"%char
      then String "'"%char (String "'"%char (doubleQuotes rest))
      else String c (doubleQuotes rest)
  end.

(** [str.replace(/[%_]/g, '')]. *)
Fixpoint stripWildcards (s : string) : string :=
  match s with
  | EmptyString => EmptyString
  | String c rest =>
      if Ascii.eqb c "%"%char || Ascii.eqb c "_"%char
      then stripWildcards rest
      else String c (stripWildcards rest)
  end.

Definition escapeSQL (str : string) : string := stripWildcards (doubleQuotes str).

(* ================================================================ *)
(** ** Reading the encoders back *)

(** A character [encodeURIComponent] lets through, or the percent sign of
    an escape. *)
Definition uriSafe (c : ascii) : bool := isAlnum c || oneOf "-_.!~*'()%" c.

(** A character the form serializer can produce. *)
Definition formSafe (c : ascii) : bool := isAlnum c || oneOf "*-._+%" c.

Definition hexValue (c : ascii) : option nat :=
  let n := nat_of_ascii c in
  if ((48 <=? n) && (n <=? 57))%nat then Some (n - 48)
  else if ((65 <=? n) && (n <=? 70))%nat then Some (n - 55)
  else None.

(** The inverse of percent-encoding: [%XY] is the byte with that code. *)
Fixpoint percentDecode (s : string) : string :=
  match s with
  | EmptyString => EmptyString
  | String c rest =>
      if Ascii.eqb c "%"%char then
        match rest with
        | String h (String l rest') =>
            match hexValue h, hexValue l with
            | Some hi, Some lo =>
                String (ascii_of_nat (16 * hi + lo)) (percentDecode rest')
            | _, _ => String c (percentDecode rest)
            end
        | _ => String c (percentDecode rest)
        end
      else String c (percentDecode rest)
  end.

(** A value [filterSaved] can lower-case: a string, or a falsy value that
    [||] replaces by the empty string. *)
Definition stringOrFalsy (v : JsVal) : bool :=
  match v with
  | VStr _ => true
  | _ => negb (truthy v)
  end.

Definition searchable (p : SavedItem) : bool :=
  stringOrFalsy (owner (savedProperty p))
  && stringOrFalsy (situs (savedProperty p))
  && stringOrFalsy (parcelId (savedProperty p)).

(** Every single quote of the string stands in a pair of adjacent ones. *)
Inductive quotesPaired : string -> Prop :=
| paired_empty : quotesPaired EmptyString
| paired_other : forall c rest,
    c <> "'"%char -> quotesPaired rest -> quotesPaired (String c rest)
| paired_quotes : forall rest,
    quotesPaired rest -> quotesPaired (String "'"%char (String "'"%char rest)).

(** The saved items carry pairwise distinct uniqueness keys. *)
Definition keysDistinct (items : list SavedItem) : Prop :=
  NoDup (map (fun p => uniqueKey (savedProperty p)) items).

(** Durable storage holds the saved list. *)
Definition storageMirrorsSaved (w : World) : Prop :=
  getItem STORAGE_KEY w = Some (saved (AppState w)).

(* ================================================================ *)
(** ** A host for the worked examples

    The primitives the pipeline takes from the host, for the runs on
    concrete inputs: [Number::toString] in radix 10, [StringToNumber]
    and the lower-casing of text beyond ASCII. *)

(** [2^e] and [10^e] for an exponent of either sign. *)
Definition pow2Z (e : Z) : Q :=
  if (0 <=? e)%Z then inject_Z (2 ^ e) else 1 # Z.to_pos (2 ^ (- e)).

Definition pow10Z (e : Z) : Q :=
  if (0 <=? e)%Z then inject_Z (10 ^ e) else 1 # Z.to_pos (10 ^ (- e)).

(** The largest [e] with [2^e <= x], for a positive [x]. *)
Definition floorLog2 (x : Q) : Z :=
  let e := (Z.log2 (Qnum x) - Z.log2 (Zpos (Qden x)))%Z in
  if Qle_bool (pow2Z e) x then e else (e - 1)%Z.

Fixpoint raiseLog10 (fuel : nat) (x : Q) (e : Z) : Z :=
  match fuel with
  | O => e
  | S k => if Qle_bool (pow10Z (e + 1)) x then raiseLog10 k x (e + 1)%Z else e
  end.

Fixpoint lowerLog10 (fuel : nat) (x : Q) (e : Z) : Z :=
  match fuel with
  | O => e
  | S k => if Qle_bool (pow10Z e) x then e else lowerLog10 k x (e - 1)%Z
  end.

(** The largest [e] with [10^e <= x], for a positive [x]: an estimate
    from the binary logarithm, which is off by one at most, corrected. *)
Definition floorLog10 (x : Q) : Z :=
  let e := (floorLog2 x * 30103 / 100000)%Z in
  raiseLog10 4 x (lowerLog10 4 x e).

(** The exponent of the unit in the last place of the double [x > 0]. *)
Definition ulpExponent (x : Q) : Z := (Z.max (floorLog2 x) (-1022) - 52)%Z.

(** Whether the real [y] rounds to the double [x > 0], to nearest and to
    an even significand on a tie. *)
Definition roundsTo (x y : Q) : bool :=
  let e := ulpExponent x in
  let ulp := pow2Z e in
  let m := Qfloor (x / ulp) in
  let half := (ulp / 2)%Q in
  let below := if (m =? 2 ^ 52)%Z && (-1074 <? e)%Z then (ulp / 4)%Q else half in
  let lo := (x - below)%Q in
  let hi := (x + half)%Q in
  (if Z.even m then Qle_bool lo y else negb (Qle_bool y lo))
  && (if Z.even m then Qle_bool y hi else negb (Qle_bool hi y)).

(** Step 5 of [Number::toString] on the double [x > 0], [n - 1] being
    its decimal exponent: the least [k] and the integer [s] of [k] digits
    for which [s * 10^(n - k)] rounds to [x], the [s] closest to [x] when
    there are two.  The result is [(s, k, n)]; [n] is one more when the
    digits are those of the next power of ten. *)
Fixpoint shortestDigits (fuel : nat) (k : Z) (x : Q) (n : Z) : Z * Z * Z :=
  let scale := pow10Z (n - k) in
  let lo := Qfloor (x / scale) in
  let hi := (lo + 1)%Z in
  let okLo := roundsTo x (inject_Z lo * scale) in
  let okHi := roundsTo x (inject_Z hi * scale) in
  let dLo := (x - inject_Z lo * scale)%Q in
  let dHi := (inject_Z hi * scale - x)%Q in
  let pick (s : Z) :=
    if (s =? 10 ^ k)%Z then (10 ^ (k - 1), k, n + 1)%Z else (s, k, n) in
  match fuel with
  | O => pick lo
  | S more =>
      if okLo && okHi then
        if Qeq_bool dLo dHi then pick (if Z.even lo then lo else hi)
        else if Qle_bool dLo dHi then pick lo else pick hi
      else if okLo then pick lo
      else if okHi then pick hi
      else shortestDigits more (k + 1)%Z x n
  end.

Definition zeros (n : Z) : string := repeatChar "0"%char (Z.to_nat n).

(** [Number::toString] in radix 10 on the exact value of a finite
    double: the shortest digits that read back as the same double, laid
    out with a point, with zeros or with an exponent. *)
Definition sampleFiniteToString (q : Q) : string :=
  if Qeq_bool q 0 then "0"
  else
    let sign := if isNegative q then "-" else "" in
    let x := Qabs q in
    let '(s, k, n) := shortestDigits 17 1 x (floorLog10 x + 1) in
    let digits := decimalOfN (Z.to_N s) in
    sign ++
    (if (k <=? n)%Z && (n <=? 21)%Z then digits ++ zeros (n - k)
     else if (0 <? n)%Z && (n <=? 21)%Z then
       substring 0 (Z.to_nat n) digits ++ "."
       ++ substring (Z.to_nat n) (Z.to_nat (k - n)) digits
     else if (-6 <? n)%Z && (n <=? 0)%Z then "0." ++ zeros (- n) ++ digits
     else
       let e := (n - 1)%Z in
       let exponent :=
         (if (e <? 0)%Z then "-" else "+") ++ decimalOfN (Z.to_N (Z.abs e)) in
       if (k =? 1)%Z then digits ++ "e" ++ exponent
       else substring 0 1 digits ++ "."
            ++ substring 1 (Z.to_nat (k - 1)) digits ++ "e" ++ exponent).

(** The double nearest to the real [x >= 0], an even significand on a
    tie; the infinity from 2^1024 on. *)
Definition roundToDouble (x : Q) : JsNum :=
  if Qle_bool x 0 then Finite 0
  else
    let ulp := pow2Z (ulpExponent x) in
    let scaled := (x / ulp)%Q in
    let m := Qfloor scaled in
    let rest := (scaled - inject_Z m)%Q in
    let m := if Qeq_bool rest (1 # 2) then (if Z.even m then m else m + 1)%Z
             else if Qle_bool rest (1 # 2) then m else (m + 1)%Z in
    let y := (inject_Z m * ulp)%Q in
    if Qle_bool (pow2Z 1024) y then PosInfinity else Finite (Qred y).

Definition negate (n : JsNum) : JsNum :=
  match n with
  | Finite q => Finite (- q)
  | PosInfinity => NegInfinity
  | NegInfinity => PosInfinity
  | NaN => NaN
  end.

(** The value of a digit in a radix up to sixteen. *)
Definition digitValue (radix : Z) (c : ascii) : option Z :=
  let n := nat_of_ascii c in
  let v := if ((48 <=? n) && (n <=? 57))%nat then Some (Z.of_nat (n - 48))
           else if ((97 <=? n) && (n <=? 102))%nat then Some (Z.of_nat (n - 87))
           else if ((65 <=? n) && (n <=? 70))%nat then Some (Z.of_nat (n - 55))
           else None in
  match v with
  | Some d => if (d <? radix)%Z then Some d else None
  | None => None
  end.

(** The digits of [s] read in [radix] after [acc]; [None] when a
    character is not a digit. *)
Fixpoint readDigits (radix : Z) (s : string) (acc : Z) : option Z :=
  match s with
  | EmptyString => Some acc
  | String c rest =>
      match digitValue radix c with
      | Some d => readDigits radix rest (radix * acc + d)
      | None => None
      end
  end.

(** [s] cut at the first character that satisfies [stop]: what is before
    it, and the character with what follows it. *)
Fixpoint splitWhere (stop : ascii -> bool) (s : string) : string * string :=
  match s with
  | EmptyString => (EmptyString, EmptyString)
  | String c rest =>
      if stop c then (EmptyString, s)
      else let '(before, after) := splitWhere stop rest in (String c before, after)
  end.

(** The white space and the line terminators [StringToNumber] strips, in
    UTF-8. *)
Definition whiteSpace : list string :=
  map string_of_list_ascii
    (map (map ascii_of_nat)
       [[9]; [10]; [11]; [12]; [13]; [32]; [194; 160]; [225; 154; 128];
        [226; 128; 128]; [226; 128; 129]; [226; 128; 130]; [226; 128; 131];
        [226; 128; 132]; [226; 128; 133]; [226; 128; 134]; [226; 128; 135];
        [226; 128; 136]; [226; 128; 137]; [226; 128; 138]; [226; 128; 168];
        [226; 128; 169]; [226; 128; 175]; [226; 129; 159]; [227; 128; 128];
        [239; 187; 191]]%nat).

Fixpoint dropPrefix (p s : string) : option string :=
  match p, s with
  | EmptyString, _ => Some s
  | String a p', String b s' => if Ascii.eqb a b then dropPrefix p' s' else None
  | _, _ => None
  end.

Definition dropOneSpace (s : string) : option string :=
  fold_right (fun space found =>
                match found with
                | Some rest => Some rest
                | None => dropPrefix space s
                end) None whiteSpace.

Fixpoint trimStart (fuel : nat) (s : string) : string :=
  match fuel with
  | O => s
  | S k => match dropOneSpace s with
           | Some rest => trimStart k rest
           | None => s
           end
  end.

Fixpoint reverseString (s : string) : string :=
  match s with
  | EmptyString => EmptyString
  | String c rest => reverseString rest ++ String c ""
  end.

Definition trimEnd (s : string) : string :=
  let r := reverseString s in
  let spaces := map reverseString whiteSpace in
  let dropOne (t : string) :=
    fold_right (fun space found =>
                  match found with
                  | Some rest => Some rest
                  | None => dropPrefix space t
                  end) None spaces in
  reverseString
    ((fix go (fuel : nat) (t : string) : string :=
        match fuel with
        | O => t
        | S k => match dropOne t with
                 | Some rest => go k rest
                 | None => t
                 end
        end) (String.length s) r).

(** An unsigned decimal literal: digits, a point, digits and an exponent,
    with digits on one side of the point at least. *)
Definition readDecimal (s : string) : JsNum :=
  let isPoint := fun c => Ascii.eqb c "."%char in
  let isE := fun c => Ascii.eqb c "e"%char || Ascii.eqb c "E"%char in
  let '(mantissa, exponent) := splitWhere isE s in
  let '(whole, frac) := splitWhere isPoint mantissa in
  let frac := match frac with
              | String _ digits => digits
              | EmptyString => EmptyString
              end in
  let exponent :=
    match exponent with
    | EmptyString => Some 0%Z
    | String _ (String "-"%char (String d ds)) =>
        option_map Z.opp (readDigits 10 (String d ds) 0)
    | String _ (String "+"%char (String d ds)) => readDigits 10 (String d ds) 0
    | String _ (String d ds) => readDigits 10 (String d ds) 0
    | String _ EmptyString => None
    end in
  match whole, frac with
  | EmptyString, EmptyString => NaN
  | _, _ =>
      match readDigits 10 whole 0, readDigits 10 frac 0, exponent with
      | Some w, Some f, Some e =>
          roundToDouble
            ((inject_Z w + inject_Z f * pow10Z (- Z.of_nat (String.length frac)))
             * pow10Z e)%Q
      | _, _, _ => NaN
      end
  end.

(** An integer literal in radix 2, 8 or 16, after its prefix. *)
Definition readRadix (radix : Z) (digits : string) : JsNum :=
  match digits with
  | EmptyString => NaN
  | _ => match readDigits radix digits 0 with
         | Some n => roundToDouble (inject_Z n)
         | None => NaN
         end
  end.

(** [StringToNumber]: white space is stripped; the empty string is zero;
    a literal is a signed decimal, [Infinity] with a sign, or an integer
    in radix 16, 8 or 2; anything else is NaN. *)
Definition sampleStringToNumber (s : string) : JsNum :=
  let s := trimEnd (trimStart (String.length s) s) in
  let unsigned (t : string) : JsNum :=
    if String.eqb t "Infinity" then PosInfinity else readDecimal t in
  match s with
  | EmptyString => Finite 0
  | String "0"%char (String "x"%char digits)
  | String "0"%char (String "X"%char digits) => readRadix 16 digits
  | String "0"%char (String "o"%char digits)
  | String "0"%char (String "O"%char digits) => readRadix 8 digits
  | String "0"%char (String "b"%char digits)
  | String "0"%char (String "B"%char digits) => readRadix 2 digits
  | String "-"%char rest => negate (unsigned rest)
  | String "+"%char rest => unsigned rest
  | _ => unsigned s
  end.

(** Lower-casing for the worked examples: the letters A to Z and the
    capitals of Latin-1, À to Þ, which UTF-8 writes as the byte 195 and
    a byte from 128 to 158 (215, the multiplication sign, apart).  The
    examples hold no text beyond Latin-1, which is left as it is. *)
Fixpoint sampleUnicodeLower (s : string) : string :=
  match s with
  | EmptyString => EmptyString
  | String c rest =>
      match rest with
      | String d rest' =>
          let n := nat_of_ascii d in
          if (nat_of_ascii c =? 195)%nat then
            String c
              (String (if (128 <=? n)%nat && (n <=? 158)%nat && negb (n =? 151)%nat
                       then ascii_of_nat (n + 32) else d)
                      (sampleUnicodeLower rest'))
          else String (lowerChar c) (sampleUnicodeLower rest)
      | EmptyString => String (lowerChar c) EmptyString
      end
  end.

(** The doubles nearest to 44.123456 and to -123.654321. *)
Definition sampleLat : JsNum := Finite (6209824374996827 # 140737488355328).
Definition sampleLng : JsNum := Finite (-8701399280911745 # 70368744177664).

(* ================================================================ *)
(** ** Worlds and networks for the worked examples *)

Definition emptyWorld : World :=
  {| AppState := mkAppState [] None [] [];
     requests := [];
     console := [];
     toasts := [];
     localStorage := [];
     panel := None;
     panelOpen := false |}.

Definition jsonOf (features : option (list Feature.t)) : Json.t :=
  Json.mk features None None.

Definition respond200 (json : Json.t) : FetchOutcome :=
  FetchResponds (mkResponse true 200 (BodyJson json)).

(** Every request is rejected, as when the browser is offline. *)
Definition netDown : Network :=
  fun _ _ _ => FetchThrows (mkError "TypeError" "Failed to fetch").

(** Every request is answered with one feature whose polygon is empty,
    [{"attributes": {"TAXLOT": "1703221100400"}, "geometry": {"rings": []}}]. *)
Definition emptyPolygonFeature : Feature.t :=
  Feature.mk (Some [("TAXLOT", VStr "1703221100400")]) None
             (Some (mkGeometry (Some []))).

Definition netEmptyPolygon : Network :=
  fun _ _ _ => respond200 (jsonOf (Some [emptyPolygonFeature])).

(** Every request is answered with one feature with a two-vertex ring,
    [[x1, y1], [x2, y2]]. *)
Definition x1 : JsVal := VNum (Finite (-123)).
Definition y1 : JsVal := VNum (Finite 44).
Definition x2 : JsVal := VNum (Finite (-122)).
Definition y2 : JsVal := VNum (Finite 45).

Definition ringFeature : Feature.t :=
  Feature.mk (Some [("OWNER1", VStr "Smith")]) None
             (Some (mkGeometry (Some [[[x1; y1]; [x2; y2]]]))).

Definition netRing : Network :=
  fun _ _ _ => respond200 (jsonOf (Some [ringFeature])).

(** Every request is answered with one feature whose ring has a vertex
    of a single coordinate, [[1, 1], [1]]. *)
Definition one : JsVal := VNum (Finite 1).

Definition shortVertexFeature : Feature.t :=
  Feature.mk (Some [("OWNER1", VStr "Smith")]) None
             (Some (mkGeometry (Some [[[one; one]; [one]]]))).

Definition netShortVertex : Network :=
  fun _ _ _ => respond200 (jsonOf (Some [shortVertexFeature])).

(** Three endpoints A, B, C, without a proxy. *)
Definition configABC : Config :=
  {| CORS_PROXY := "";
     TAXLOT_ENDPOINTS := ["https://a.example/0"; "https://b.example/0";
                          "https://c.example/0"];
     ESRI_GEOCODE_URL := "https://geocode.example/GeocodeServer";
     OREGON_GEOCODE_URL := "https://oregon.example/GeocodeServer" |}.

(** The first request gets HTTP 503, every later one a feature. *)
Definition netSecondAnswers : Network :=
  fun history _ _ =>
    match history with
    | [] => FetchResponds (mkResponse false 503 (BodyThrows (mkError "SyntaxError" "Unexpected token")))
    | _ => respond200 (jsonOf (Some [ringFeature]))
    end.

(** The first request times out, the second gets HTTP 500, the others an
    empty feature list. *)
Definition netAllFail : Network :=
  fun history _ _ =>
    match history with
    | [] => FetchThrows (mkError "AbortError" "The user aborted a request.")
    | [_] => FetchResponds (mkResponse false 500 (BodyJson (jsonOf None)))
    | _ => respond200 (jsonOf (Some []))
    end.

Definition smithProperty : Property :=
  {| uniqueKey := "n/a|12 oak st|smith";
     owner := VStr "Smith";
     situs := VStr "12 Oak St";
     city := VStr "Eugene";
     state := VStr "OR";
     zip := VStr "97401";
     fullAddress := "12 Oak St | Eugene, OR | 97401";
     assessed := VNull;
     land := VNull;
     improv := VNull;
     acres := VNull;
     lotSizeLabel := "N/A";
     zoning := VStr "N/A";
     yearBuilt := VStr "N/A";
     parcelId := VStr "N/A";
     taxLot := VStr "N/A";
     propType := VStr "N/A";
     township := VStr "";
     range := VStr "";
     section := VStr "";
     trs := "N/A";
     savedAt := VNull;
     _rawAttrs := [("OWNER1", VStr "Smith"); ("SITUS_ADDR", VStr "12 Oak St")] |}.

(** A world in which the current selection is already on the saved list. *)
Definition worldWithSaved : World :=
  let item := mkSavedItem (withSavedAt smithProperty (VStr "2024-05-01T10:00:00.000Z"))
                          1714557600000 in
  {| AppState := mkAppState [] (Some smithProperty) [item] [item];
     requests := [];
     console := [];
     toasts := [];
     localStorage := [(STORAGE_KEY, [item])];
     panel := Some smithProperty;
     panelOpen := true |}.

(** Only the endpoint C answers with a feature; requests to any other
    host are rejected. *)
Definition netOnlyC : Network :=
  fun _ url _ =>
    if prefix "https://c.example/" url
    then respond200 (jsonOf (Some [ringFeature]))
    else FetchThrows (mkError "TypeError" "Failed to fetch").

(** Every request is answered with a reverse-geocode address. *)
Definition oakStreet : AddressObj :=
  {| Address := VStr "12 Oak St";
     Match_addr := VStr "12 Oak St, Eugene, Oregon, 97401";
     City := VStr "Eugene";
     Region := VStr "Oregon";
     Postal := VStr "97401" |}.

Definition netAddress : Network :=
  fun _ _ _ => respond200 (Json.mk None (Some oakStreet) None).

(** Every request is answered with one address candidate. *)
Definition oakCandidate : Candidate.t :=
  Candidate.mk (VStr "12 Oak St, Eugene, Oregon, 97401") (VNum (Finite 100))
               (Some (x1, y1)).

Definition netCandidates : Network :=
  fun _ _ _ => respond200 (Json.mk None None (Some [oakCandidate])).

(** A parcel whose account number came as a JSON number, as
    [normalizeParcel] returns it for [{"ACCTNO": 1234, "OWNER1": "Smith"}]
    (the key and the address are rendered with digits for the number). *)
Definition accountProperty : Property :=
  {| uniqueKey := "1234|address not available|smith";
     owner := VStr "Smith";
     situs := VStr "Address not available";
     city := VStr "";
     state := VStr "OR";
     zip := VStr "";
     fullAddress := "Address not available | OR";
     assessed := VNull;
     land := VNull;
     improv := VNull;
     acres := VNull;
     lotSizeLabel := "N/A";
     zoning := VStr "N/A";
     yearBuilt := VStr "N/A";
     parcelId := VNum (Finite 1234);
     taxLot := VNum (Finite 1234);
     propType := VStr "N/A";
     township := VStr "";
     range := VStr "";
     section := VStr "";
     trs := "N/A";
     savedAt := VNull;
     _rawAttrs := [("ACCTNO", VNum (Finite 1234)); ("OWNER1", VStr "Smith")] |}.

(** A world with the Smith parcel on the saved list and the account
    parcel selected. *)
Definition worldWithSavedAndAccount : World :=
  let item := mkSavedItem (withSavedAt smithProperty (VStr "2024-05-01T10:00:00.000Z"))
                          1714557600000 in
  {| AppState := mkAppState [] (Some accountProperty) [item] [item];
     requests := [];
     console := [];
     toasts := [];
     localStorage := [(STORAGE_KEY, [item])];
     panel := Some accountProperty;
     panelOpen := true |}.

(** A saved item whose acreage is not a number, as [Number("n/a")] or a
    division of zero by zero leaves it. *)
Definition itemWithNaN : SavedItem :=
  let p := withSavedAt smithProperty (VStr "2024-05-01T10:00:00.000Z") in
  mkSavedItem
    (mkProperty (uniqueKey p) (owner p) (situs p) (city p) (state p) (zip p)
       (fullAddress p) (assessed p) (land p) (improv p) (VNum NaN)
       (lotSizeLabel p) (zoning p) (yearBuilt p) (parcelId p) (taxLot p)
       (propType p) (township p) (range p) (section p) (trs p) (savedAt p)
       (_rawAttrs p))
    1714557600000.

(** A world with the account parcel selected and nothing saved. *)
Definition worldWithAccount : World :=
  {| AppState := mkAppState [] (Some accountProperty) [] [];
     requests := [];
     console := [];
     toasts := [];
     localStorage := [];
     panel := Some accountProperty;
     panelOpen := true |}.

(* ================================================================ *)
(** ** The pipeline, over the primitives of the host *)

Section Pipeline.

(** [String.prototype.toLowerCase] folds every cased letter of Unicode,
    some of them by their context.  On a string of ASCII characters that
    is the folding of A to Z; on the other strings it is a primitive of
    the host. *)
Variable unicodeLower : string -> string.

Definition toLowerCase (s : string) : string :=
  if isAscii s then asciiLower s else unicodeLower s.

(** [Number::toString] on a finite number needs the shortest digits that
    read back as the same double; it is a primitive of the host. *)
Variable finiteToString : Q -> string.

(** [StringToNumber]: the host's reading of a string as a number. *)
Variable stringToNumber : string -> JsNum.

(* ---------------------------------------------------------------- *)
(** *** The field resolver *)

(** The inner loop of [getField]: the keys of the bag in order, the
    first one equal to [lower] once lower-cased whose value is present. *)
Fixpoint scanKeys (attrs : Attrs) (lower : string) (actuals : list string)
  : option JsVal :=
  match actuals with
  | [] => None
  | actual :: rest =>
      if String.eqb (toLowerCase actual) lower then
        let val := getProp attrs actual in
        if present val then Some val else scanKeys attrs lower rest
      else scanKeys attrs lower rest
  end.

(** [fallback = null]: the default value of the parameter stands in for
    an argument that is [undefined]. *)
Definition orDefault (fallback : JsVal) : JsVal :=
  match fallback with
  | VUndefined => VNull
  | _ => fallback
  end.

Fixpoint getField (attrs : Attrs) (keys : list string) (fallback : JsVal)
  : JsVal :=
  match keys with
  | [] => orDefault fallback
  | key :: rest =>
      if present (getProp attrs key) then getProp attrs key
      else
        match scanKeys attrs (toLowerCase key) (objectKeys attrs) with
        | Some val => val
        | None => getField attrs rest fallback
        end
  end.

Arguments getField : simpl never.

(* ---------------------------------------------------------------- *)
(** *** What it means for a candidate name to resolve *)

(** The bag holds [v], a value that is neither [null], [undefined] nor the
    empty string, under a key equal to [candidate] up to case. *)
Definition resolvesTo (attrs : Attrs) (candidate : string) (v : JsVal) : Prop :=
  exists actual,
    In actual (objectKeys attrs) /\
    toLowerCase actual = toLowerCase candidate /\
    getProp attrs actual = v /\
    present v = true.

Definition resolves (attrs : Attrs) (candidate : string) : Prop :=
  exists v, resolvesTo attrs candidate v.

(** The decision procedure for [resolves]. *)
Definition resolvesb (attrs : Attrs) (candidate : string) : bool :=
  existsb (fun actual =>
             String.eqb (toLowerCase actual) (toLowerCase candidate)
             && present (getProp attrs actual))
          (objectKeys attrs).

(* ---------------------------------------------------------------- *)
(** *** Filtering the saved list *)

(** [(v || '').toLowerCase()]: a truthy value that is not a string has no
    such method, and the call throws. *)
Definition lowerField (source : string) (v : JsVal) : Completion string :=
  match (if truthy v then v else VStr "") with
  | VStr s => Normal (toLowerCase s)
  | _ => Throw (notAFunction source)
  end.

(** The callback of [filterSaved]; [||] stops at the first field that
    includes [q]. *)
Definition matchesQuery (q : string) (p : SavedItem) : Completion bool :=
  match lowerField "owner" (owner (savedProperty p)) with
  | Throw err => Throw err
  | Normal o =>
      if includes o q then Normal true
      else
        match lowerField "situs" (situs (savedProperty p)) with
        | Throw err => Throw err
        | Normal st =>
            if includes st q then Normal true
            else
              match lowerField "parcelId" (parcelId (savedProperty p)) with
              | Throw err => Throw err
              | Normal pid => Normal (includes pid q)
              end
        end
  end.

(** The text [filterSaved] searches in a field that holds a string or a
    falsy value. *)
Definition lowerText (v : JsVal) : string :=
  match v with
  | VStr t => toLowerCase t
  | _ => ""
  end.

(** One of the three texts of a saved item includes [q]. *)
Definition matchesText (q : string) (p : SavedItem) : bool :=
  includes (lowerText (owner (savedProperty p))) q
  || includes (lowerText (situs (savedProperty p))) q
  || includes (lowerText (parcelId (savedProperty p))) q.

Definition filterSaved (query : string) (s : Session) : Completion unit * Session :=
  let q := toLowerCase query in
  let a := AppState (world s) in
  if negb (nonEmpty q) then
    (Normal tt, mkSession (setSavedLists (saved a) (saved a) (world s))
                          (selectedSavedIds s))
  else
    match filterThrowing (matchesQuery q) (saved a) with
    | Normal kept =>
        (Normal tt, mkSession (setSavedLists (saved a) kept (world s))
                              (selectedSavedIds s))
    | Throw err => (Throw err, s)
    end.

(* ---------------------------------------------------------------- *)
(** *** The normalizer *)

Definition numberToString (n : JsNum) : string :=
  match n with
  | Finite q => finiteToString q
  | NaN => "NaN"
  | PosInfinity => "Infinity"
  | NegInfinity => "-Infinity"
  end.

(** [Number.prototype.toFixed(f)] for [0 <= f <= 100]. *)
Definition toFixed (n : JsNum) (f : nat) : string :=
  match n with
  | Finite q =>
      let s := if isNegative q then "-" else "" in
      let x := Qabs q in
      if Qle_bool (inject_Z (10 ^ 21)) x
      then s ++ finiteToString x
      else s ++ fixedDigits (nearestScaled x f) f
  | _ => numberToString n
  end.

(** [a || b]. *)
Definition orElse (a b : JsVal) : JsVal := if truthy a then a else b.

(** [ToString], as a template literal applies it; a built-in function
    prints as V8 prints it. *)
Definition toStr (v : JsVal) : string :=
  match v with
  | VUndefined => "undefined"
  | VNull => "null"
  | VBool true => "true"
  | VBool false => "false"
  | VNum n => numberToString n
  | VStr s => s
  | VObject member =>
      if String.eqb member "__proto__" then "[object Object]"
      else "function "
           ++ (if String.eqb member "constructor" then "Object" else member)
           ++ "() { [native code] }"
  end.

(** [Number(v)]. *)
Definition toNumber (v : JsVal) : JsNum :=
  match v with
  | VUndefined => NaN
  | VNull => Finite 0
  | VBool true => Finite 1
  | VBool false => Finite 0
  | VNum n => n
  | VStr s => stringToNumber s
  | VObject _ => NaN
  end.

(** [Array.prototype.join]: [null] and [undefined] elements give the
    empty string, the others their [ToString]. *)
Definition joinElement (v : JsVal) : string :=
  match v with
  | VUndefined | VNull => ""
  | _ => toStr v
  end.

Definition arrayJoin (sep : string) (elems : list JsVal) : string :=
  joinStrings sep (map joinElement elems).


(** [[city, state].filter(Boolean)]. *)
Definition filterBoolean (elems : list JsVal) : list JsVal := filter truthy elems.

Definition normalizeParcel (attrs : Attrs) : Property :=
  let owner      := getField attrs FIELD_MAP.owner (VStr "Unknown Owner") in
  let situs      := getField attrs FIELD_MAP.situs (VStr "Address not available") in
  let city       := getField attrs FIELD_MAP.city (VStr "") in
  let state      := getField attrs FIELD_MAP.state (VStr "OR") in
  let zip        := getField attrs FIELD_MAP.zip (VStr "") in
  let assessed   := getField attrs FIELD_MAP.assessed VNull in
  let land       := getField attrs FIELD_MAP.land VNull in
  let improv     := getField attrs FIELD_MAP.improv VNull in
  let acres      := getField attrs FIELD_MAP.acres VNull in
  let zoning     := getField attrs FIELD_MAP.zoning (VStr "N/A") in
  let yearBuilt  := getField attrs FIELD_MAP.yearBuilt (VStr "N/A") in
  let parcelId   := getField attrs FIELD_MAP.parcelId (VStr "N/A") in
  let taxLot     := getField attrs FIELD_MAP.taxLot parcelId in
  let propType   := getField attrs FIELD_MAP.propType (VStr "N/A") in
  let township   := getField attrs FIELD_MAP.township (VStr "") in
  let rangeVal   := getField attrs FIELD_MAP.range (VStr "") in
  let section    := getField attrs FIELD_MAP.section (VStr "") in

  let fullParts := [situs] in
  let cityState := arrayJoin ", " (filterBoolean [city; state]) in
  let fullParts := if nonEmpty cityState then push fullParts (VStr cityState) else fullParts in
  let fullParts := if truthy zip then push fullParts zip else fullParts in
  let fullAddress := arrayJoin " | " fullParts in

  let lotSizeLabel :=
    if truthy acres then toFixed (toNumber acres) 2 ++ " ac" else "N/A" in
  let trs :=
    if truthy (orElse (orElse township rangeVal) section)
    then "T" ++ toStr (orElse township (VStr "?"))
         ++ " R" ++ toStr (orElse rangeVal (VStr "?"))
         ++ " S" ++ toStr (orElse section (VStr "?"))
    else "N/A" in

  let uniqueKey :=
    toLowerCase (toStr parcelId ++ "|" ++ toStr situs ++ "|" ++ toStr owner) in

  {| uniqueKey := uniqueKey;
     owner := owner;
     situs := situs;
     city := city;
     state := state;
     zip := zip;
     fullAddress := fullAddress;
     assessed := assessed;
     land := land;
     improv := improv;
     acres := acres;
     lotSizeLabel := lotSizeLabel;
     zoning := zoning;
     yearBuilt := yearBuilt;
     parcelId := parcelId;
     taxLot := taxLot;
     propType := propType;
     township := township;
     range := rangeVal;
     section := section;
     trs := trs;
     savedAt := VNull;
     _rawAttrs := attrs |}.

(** The three texts the uniqueness key of a parcel is made of. *)
Definition keyParts (p : Property) : list string :=
  [toStr (parcelId p); toStr (situs p); toStr (owner p)].

Definition buildNAProperty (lat lng : JsNum) : Property :=
  let coordLabel := toFixed lat 6 ++ ", " ++ toFixed lng 6 in
  {| uniqueKey := "na|" ++ coordLabel;
     owner := VStr "Owner not available";
     situs := VStr "Location in Lane County";
     city := VStr "";
     state := VStr "OR";
     zip := VStr "";
     fullAddress := "Coordinates: " ++ coordLabel;
     assessed := VNull;
     land := VNull;
     improv := VNull;
     acres := VNull;
     lotSizeLabel := "N/A";
     zoning := VStr "N/A";
     yearBuilt := VStr "N/A";
     parcelId := VStr "N/A";
     taxLot := VStr "N/A";
     propType := VStr "N/A";
     township := VStr "";
     range := VStr "";
     section := VStr "";
     trs := "N/A";
     savedAt := VNull;
     _rawAttrs := [] |}.

Definition buildReverseGeocodeProperty (lat lng : JsNum) (addr : AddressObj)
  : Property :=
  let situs := orElse (orElse (Address addr) (Match_addr addr))
                      (VStr "Address not available") in
  let city := orElse (City addr) (VStr "") in
  let state := orElse (Region addr) (VStr "OR") in
  let zip := orElse (Postal addr) (VStr "") in

  let fullParts := [situs] in
  let cs := arrayJoin ", " (filterBoolean [city; state]) in
  let fullParts := if nonEmpty cs then push fullParts (VStr cs) else fullParts in
  let fullParts := if truthy zip then push fullParts zip else fullParts in
  let fullAddress := arrayJoin " | " fullParts in

  {| uniqueKey :=
       "revgeo|" ++ toStr situs ++ "|" ++ toFixed lat 6 ++ "," ++ toFixed lng 6;
     owner := VStr "Owner not available";
     situs := situs;
     city := city;
     state := state;
     zip := zip;
     fullAddress := fullAddress;
     assessed := VNull;
     land := VNull;
     improv := VNull;
     acres := VNull;
     lotSizeLabel := "N/A";
     zoning := VStr "N/A";
     yearBuilt := VStr "N/A";
     parcelId := VStr "N/A";
     taxLot := VStr "N/A";
     propType := VStr "N/A";
     township := VStr "";
     range := VStr "";
     section := VStr "";
     trs := "N/A";
     savedAt := VNull;
     _rawAttrs := [] |}.

(* ---------------------------------------------------------------- *)
(** *** Fetch with timeout, through the proxy *)

Variable cfg : Config.
Variable net : Network.

(** [CORS_PROXY ? `${CORS_PROXY}${encodeURIComponent(url)}` : url]. *)
Definition proxiedUrl (url : string) : string :=
  if nonEmpty (CORS_PROXY cfg)
  then CORS_PROXY cfg ++ encodeURIComponent url
  else url.

Definition fetchWithTimeout (url : string) (timeoutMs : N) : Js Response :=
  fun w =>
    let fullUrl := proxiedUrl url in
    let w := consoleLog [CText "FETCH:"; CText fullUrl] w in
    match net (requests w) fullUrl timeoutMs with
    | FetchResponds res => (Normal res, recordRequest fullUrl w)
    | FetchThrows err => (Throw err, recordRequest fullUrl w)
    end.

(** [await res.json()]. *)
Definition resJson (res : Response) : Js Json.t :=
  match body res with
  | BodyJson json => ret json
  | BodyThrows err => throw err
  end.

(* ---------------------------------------------------------------- *)
(** *** The taxlot endpoint sequencer *)

Definition taxlotParams (lat lng : JsNum) : string :=
  URLSearchParams
    [("f", "json");
     ("geometry", numberToString lng ++ "," ++ numberToString lat);
     ("geometryType", "esriGeometryPoint");
     ("inSR", "4326");
     ("spatialRel", "esriSpatialRelIntersects");
     ("outFields", "*");
     ("returnGeometry", "true")].

Definition taxlotUrl (lat lng : JsNum) (endpoint : string) : string :=
  endpoint ++ "/query?" ++ taxlotParams lat lng.

(** The body of the [try] block for one endpoint: the result it returns,
    or the entry it pushes on [errors]. *)
Definition attemptTaxlot (lat lng : JsNum) (endpoint : string)
  : Js (IdentifyResult + string) :=
  let url := taxlotUrl lat lng endpoint in
  effect (consoleLog [CText "Querying taxlots endpoint:"; CText url]) ;;;
  res <- fetchWithTimeout url 8000 ;;
  if negb (ok res) then
    ret (inr (endpoint ++ ": HTTP " ++ decimalOfN (status res)))
  else
    json <- resJson res ;;
    match Json.features json with
    | Some (feat :: _) =>
        let attrs := featureAttrs feat in
        let geom := Feature.geometry feat in
        let prop := normalizeParcel attrs in
        ret (inl {| property := prop; geometry := geom |})
    | _ => ret (inr (endpoint ++ ": no features at this location"))
    end.

(** The [catch] block of the taxlot loop. *)
Definition taxlotReason (err : JsError) : string :=
  if String.eqb (name err) "AbortError" then "timeout"
  else if nonEmpty (message err) then message err else "network error".

(** The [for ... of TAXLOT_ENDPOINTS] loop, with the [errors] array it
    fills: the result it returns from, if any, and [errors] at exit. *)
Fixpoint taxlotLoop (lat lng : JsNum) (endpoints : list string)
  (errors : list string) (w : World)
  : (option IdentifyResult * list string) * World :=
  match endpoints with
  | [] => ((None, errors), w)
  | endpoint :: rest =>
      match attemptTaxlot lat lng endpoint w with
      | (Normal (inl result), w') => ((Some result, errors), w')
      | (Normal (inr entry), w') =>
          taxlotLoop lat lng rest (push errors entry) w'
      | (Throw err, w') =>
          taxlotLoop lat lng rest
            (push errors (endpoint ++ ": " ++ taxlotReason err)) w'
      end
  end.

Definition tryIdentifyFromTaxlots (lat lng : JsNum) : Js (option IdentifyResult) :=
  fun w =>
    match taxlotLoop lat lng (TAXLOT_ENDPOINTS cfg) [] w with
    | ((Some result, _), w') => (Normal (Some result), w')
    | ((None, errors), w') =>
        let w' :=
          match errors with
          | [] => w'
          | _ => consoleWarn [CText "All taxlot endpoints failed:";
                              CText (joinStrings " | " errors)] w'
          end in
        (Normal None, w')
    end.

(* ---------------------------------------------------------------- *)
(** *** Reverse geocoding *)

Definition geocoderReason (err : JsError) : string :=
  if String.eqb (name err) "AbortError" then "timeout" else message err.

(** The [try] body of one of the two blocks of [tryReverseGeocode] (Esri,
    then Oregon): the Property it returns, or the entry it pushes. *)
Definition attemptReverse (label base : string) (lat lng : JsNum)
  : Js (Property + string) :=
  let baseParams :=
    URLSearchParams
      [("f", "json");
       ("location", numberToString lng ++ "," ++ numberToString lat);
       ("outFields", "*")] in
  let url := base ++ "/reverseGeocode?" ++ baseParams in
  res <- fetchWithTimeout url 7000 ;;
  if ok res then
    data <- resJson res ;;
    match Json.address data with
    | Some addr => ret (inl (buildReverseGeocodeProperty lat lng addr))
    | None => ret (inr (label ++ ": no address in response"))
    end
  else
    ret (inr (label ++ ": HTTP " ++ decimalOfN (status res))).

(** A block with its [catch]: what it returns, if it does, and [errors]. *)
Definition reverseBlock (label base : string) (lat lng : JsNum)
  (errors : list string) (w : World)
  : (option Property * list string) * World :=
  match attemptReverse label base lat lng w with
  | (Normal (inl prop), w') => ((Some prop, errors), w')
  | (Normal (inr entry), w') => ((None, push errors entry), w')
  | (Throw err, w') =>
      ((None, push errors (label ++ ": " ++ geocoderReason err)), w')
  end.

Definition tryReverseGeocode (lat lng : JsNum) : Js (option Property) :=
  fun w =>
    match reverseBlock "Esri reverse" (ESRI_GEOCODE_URL cfg) lat lng [] w with
    | ((Some prop, _), w') => (Normal (Some prop), w')
    | ((None, errors), w') =>
        let '((found, errors), w') :=
          if nonEmpty (OREGON_GEOCODE_URL cfg)
          then reverseBlock "Oregon reverse" (OREGON_GEOCODE_URL cfg) lat lng errors w'
          else ((None, errors), w') in
        match found with
        | Some prop => (Normal (Some prop), w')
        | None =>
            (Normal None,
             consoleWarn [CText "All reverse geocoders failed or returned nothing:";
                          CText (joinStrings " | " errors)] w')
        end
    end.

(* ---------------------------------------------------------------- *)
(** *** Identify a parcel, with fallbacks *)

Definition isNaN (n : JsNum) : bool :=
  match n with
  | NaN => true
  | _ => false
  end.

(** [typeof v === 'object']. *)
Definition typeofObject (v : JsVal) : bool :=
  match v with
  | VNull => true
  | VObject member => String.eqb member "__proto__"
  | _ => false
  end.

(** Leaflet's [toLatLng] on a vertex: an array of two or three elements
    that does not start with an object goes to [new LatLng(lat, lng)],
    which throws when [isNaN] holds of a coordinate, an [undefined] one
    included. *)
Definition invalidLatLng (vertex : list JsVal) : option JsError :=
  match vertex with
  | [lat; lng] | [lat; lng; _] =>
      if negb (typeofObject lat)
         && (isNaN (toNumber lat) || isNaN (toNumber lng))
      then Some (mkError "Error"
                   ("Invalid LatLng object: (" ++ toStr lat ++ ", "
                    ++ toStr lng ++ ")"))
      else None
  | _ => None
  end.

(** The vertices [toLatLng] turns into [null]: those that start with an
    object and those that are not made of two or three elements. *)
Definition nullLatLng (vertex : list JsVal) : bool :=
  match vertex with
  | [lat; _] | [lat; _; _] => typeofObject lat
  | _ => true
  end.

Fixpoint firstError (coords : Polygon) : option JsError :=
  match coords with
  | [] => None
  | vertex :: rest =>
      match invalidLatLng vertex with
      | Some err => Some err
      | None => firstError rest
      end
  end.

(** Leaflet 1.x on [L.polygon(coords, style).addTo(layer)], for the
    worked examples.  When the first vertex starts with a number, a
    string or a boolean the vertices are converted in order, and the
    first that [new LatLng] rejects throws; a vertex converted to [null]
    fails later, when the polygon is projected.  When the first vertex
    starts with [undefined] or an object, Leaflet takes the vertices for
    rings, and the projection fails on their elements. *)
Definition leafletPolygonError (coords : Polygon) : option JsError :=
  match coords with
  | [] => None
  | first :: _ =>
      match nth 0 first VUndefined with
      | VUndefined => Some (typeErrorReading "0")
      | start =>
          if typeofObject start
          then Some (mkError "TypeError"
                       "Cannot read properties of null (reading '0')")
          else
            match firstError coords with
            | Some err => Some err
            | None =>
                if existsb nullLatLng coords
                then Some (mkError "TypeError"
                             "Cannot read properties of null (reading 'lat')")
                else None
            end
      end
  end.

(** Leaflet is not part of the repository.  [polygonError coords] is the
    error that [L.polygon(coords, style).addTo(layer)] throws on these
    vertices, if any: Leaflet rejects a vertex whose coordinates are not
    numbers ([Invalid LatLng object]), and nothing is drawn then. *)
Variable polygonError : Polygon -> option JsError.

(** [([x, y]) => [y, x]]: a missing component is [undefined]. *)
Definition swapXY (pt : Point) : Point :=
  [nth 1 pt VUndefined; nth 0 pt VUndefined].

(** [AppState.highlightLayer.clearLayers()]. *)
Definition clearLayers (w : World) : World :=
  let a := AppState w in
  setAppState (mkAppState [] (currentProperty a) (saved a) (filteredSaved a)) w.

(** The highlight layer with one more polygon. *)
Definition addTo (coords : Polygon) (w : World) : World :=
  let a := AppState w in
  setAppState
    (mkAppState (push (highlightLayer a) coords) (currentProperty a) (saved a)
       (filteredSaved a)) w.

(** [L.polygon(coords, style).addTo(AppState.highlightLayer)]: the
    polygon is drawn unless Leaflet rejects its vertices. *)
Definition addPolygon (coords : Polygon) : Js unit :=
  match polygonError coords with
  | Some err => throw err
  | None => effect (addTo coords)
  end.

Definition setCurrentProperty (p : option Property) (w : World) : World :=
  let a := AppState w in
  setAppState (mkAppState (highlightLayer a) p (saved a) (filteredSaved a)) w.

(** [err.message || err], as handed to [console.warn]. *)
Definition messageOrError (err : JsError) : ConsoleArg :=
  if nonEmpty (message err) then CText (message err) else CError err.

(** The highlight step: [geometry.rings[0]] is [undefined] when [rings] is
    an empty array, and reading [map] of it throws. *)
Definition highlightGeometry (geometry : option Geometry) : Js unit :=
  match geometry with
  | Some g =>
      match rings g with
      | Some rs =>
          match rs with
          | ring :: _ => addPolygon (map swapXY ring)
          | [] => throw (typeErrorReading "map")
          end
      | None => ret tt
      end
  | None => ret tt
  end.

(** The error the highlight step throws on a geometry, if any: that of
    reading [map] of [undefined] when [rings] is empty, that of Leaflet
    on the first ring otherwise. *)
Definition highlightError (geometry : option Geometry) : option JsError :=
  match geometry with
  | Some {| rings := Some [] |} => Some (typeErrorReading "map")
  | Some {| rings := Some (ring :: _) |} => polygonError (map swapXY ring)
  | _ => None
  end.

Definition identifyParcelAt (lat lng : JsNum) : Js unit :=
  effect clearLayers ;;;

  (* 1) Parcel services *)
  found <- tryCatch
             (result <- tryIdentifyFromTaxlots lat lng ;;
              match result with
              | Some r => ret (Some (property r), geometry r)
              | None => ret (None, None)
              end)
             (fun err =>
                effect (consoleWarn [CText "Taxlot identify failed:";
                                     messageOrError err]) ;;;
                ret (None, None)) ;;
  let prop := fst found in
  let geometry := snd found in
  let usedFallback := false in

  (* 2) Reverse geocode *)
  step2 <- match prop with
           | Some _ => ret (prop, usedFallback)
           | None =>
               tryCatch
                 (rev <- tryReverseGeocode lat lng ;;
                  match rev with
                  | Some r => ret (Some r, true)
                  | None => ret (prop, usedFallback)
                  end)
                 (fun err =>
                    effect (consoleWarn [CText "Reverse geocode fallback failed:";
                                         messageOrError err]) ;;;
                    ret (prop, usedFallback))
           end ;;

  (* 3) Full N/A fallback *)
  let '(prop, usedFallback) :=
    match fst step2 with
    | Some p => (p, snd step2)
    | None => (buildNAProperty lat lng, true)
    end in

  (* Highlight geometry if available *)
  highlightGeometry geometry ;;;

  effect (setCurrentProperty (Some prop)) ;;;
  effect (updatePropertyPanel prop) ;;;
  effect openPropertyPanel ;;;

  effect (if usedFallback : bool
          then showToast "Limited data (parcel records unavailable). Showing best available info." "error"
          else showToast "Property loaded" "success") ;;;

  effect (consoleLog [CText "Raw parcel attributes:"; CAttrs (_rawAttrs prop)]).

(** What [identifyParcelAt] does once the Property and the geometry are
    settled: the highlight step, then the selection, the panel, the
    toast and the console line. *)
Definition finishIdentify (prop : Property) (usedFallback : bool)
  (geom : option Geometry) : Js unit :=
  highlightGeometry geom ;;;
  effect (setCurrentProperty (Some prop)) ;;;
  effect (updatePropertyPanel prop) ;;;
  effect openPropertyPanel ;;;
  effect (if usedFallback
          then showToast "Limited data (parcel records unavailable). Showing best available info." "error"
          else showToast "Property loaded" "success") ;;;
  effect (consoleLog [CText "Raw parcel attributes:"; CAttrs (_rawAttrs prop)]).

(* ---------------------------------------------------------------- *)
(** *** Address search *)

(** [normalizeCandidates]: reading [c.location.y] throws when a candidate
    has no [location]. *)
Fixpoint normalizeCandidates (cands : list Candidate.t)
  : Completion (list SearchCandidate) :=
  match cands with
  | [] => Normal []
  | c :: rest =>
      match Candidate.location c with
      | None => Throw (typeErrorReading "y")
      | Some (x, y) =>
          match normalizeCandidates rest with
          | Normal out =>
              Normal ({| address := Candidate.address c;
                         score := Candidate.score c;
                         location := (y, x) |} :: out)
          | Throw err => Throw err
          end
      end
  end.

(** The bounding box of [LANE_BOUNDS], west, south, east, north. *)
Definition bbox : string := "-124.1,43.4,-122.5,44.4".

Definition searchParams (query : string) : string :=
  URLSearchParams
    [("f", "json");
     ("SingleLine", query);
     ("maxLocations", "8");
     ("outFields", "*");
     ("category", "Address");
     ("searchExtent", bbox)].

(** The [try] body of one geocoder block of [searchAddresses]. *)
Definition searchUrl (base query : string) : string :=
  base ++ "/findAddressCandidates?" ++ searchParams query.

Definition attemptSearch (label base query : string)
  : Js (list SearchCandidate + string) :=
  let url := searchUrl base query in
  res <- fetchWithTimeout url 8000 ;;
  if ok res then
    json <- resJson res ;;
    cands <- (fun w =>
                (normalizeCandidates
                   (match Json.candidates json with Some cs => cs | None => [] end),
                 w)) ;;
    match cands with
    | [] => ret (inr (label ++ ": no candidates"))
    | _ => ret (inl cands)
    end
  else
    ret (inr (label ++ ": HTTP " ++ decimalOfN (status res))).

Definition searchBlock (label base query : string) (errors : list string)
  (w : World) : (option (list SearchCandidate) * list string) * World :=
  match attemptSearch label base query w with
  | (Normal (inl cands), w') => ((Some cands, errors), w')
  | (Normal (inr entry), w') => ((None, push errors entry), w')
  | (Throw err, w') =>
      ((None, push errors (label ++ ": " ++ geocoderReason err)), w')
  end.

Definition searchAddresses (query : string) : Js (list SearchCandidate) :=
  fun w =>
    match searchBlock "Esri geocoder" (ESRI_GEOCODE_URL cfg) query [] w with
    | ((Some cands, _), w') => (Normal cands, w')
    | ((None, errors), w') =>
        let '((found, errors), w') :=
          if nonEmpty (OREGON_GEOCODE_URL cfg)
          then searchBlock "Oregon geocoder" (OREGON_GEOCODE_URL cfg) query errors w'
          else ((None, errors), w') in
        match found with
        | Some cands => (Normal cands, w')
        | None =>
            (Normal [],
             consoleWarn [CText "All geocoders failed or returned no candidates:";
                          CText (joinStrings " | " errors)] w')
        end
    end.

(* ---------------------------------------------------------------- *)
(** *** Saved properties *)

Definition isCurrentSaved (w : World) : bool :=
  match currentProperty (AppState w) with
  | None => false
  | Some cur =>
      let key := uniqueKey cur in
      existsb (fun p => String.eqb (uniqueKey (savedProperty p)) key)
              (saved (AppState w))
  end.

(** [saveCurrentProperty], with the clock readings [Date.now()] and
    [new Date().toISOString()] it takes when it saves.  The three calls
    that redraw the badges, the list and the buttons touch the page only. *)
Definition saveCurrentProperty (nowMs : N) (nowIso : string) (w : World) : World :=
  match currentProperty (AppState w) with
  | None => showToast "No property selected" "error" w
  | Some p =>
      if isCurrentSaved w then showToast "Property already in your list" "error" w
      else
        let savedItem := {| savedProperty := withSavedAt p (VStr nowIso);
                            id := nowMs |} in
        let a := AppState w in
        let saved' := push (saved a) savedItem in
        let w := setAppState
                   (mkAppState (highlightLayer a) (currentProperty a) saved' saved') w in
        let w := setItem STORAGE_KEY saved' w in
        showToast "Property saved" "success" w
  end.

(* ---------------------------------------------------------------- *)
(** *** What an outcome of [fetch] is worth to each sequencer *)

(** The feature a taxlot response offers: the first of a non-empty
    [features] array of a successful response. *)
Definition usableFeature (out : FetchOutcome) : option Feature.t :=
  match out with
  | FetchResponds res =>
      if ok res then
        match body res with
        | BodyJson json =>
            match Json.features json with
            | Some (feat :: _) => Some feat
            | _ => None
            end
        | BodyThrows _ => None
        end
      else None
  | FetchThrows _ => None
  end.

(** Why an outcome without a usable feature failed. *)
Definition taxlotFailure (out : FetchOutcome) : string :=
  match out with
  | FetchThrows err => taxlotReason err
  | FetchResponds res =>
      if ok res then
        match body res with
        | BodyThrows err => taxlotReason err
        | BodyJson _ => "no features at this location"
        end
      else "HTTP " ++ decimalOfN (status res)
  end.

(** The world after one endpoint was attempted: two console lines and one
    request. *)
Definition afterAttempt (lat lng : JsNum) (endpoint : string) (w : World) : World :=
  let url := taxlotUrl lat lng endpoint in
  recordRequest (proxiedUrl url)
    (consoleLog [CText "FETCH:"; CText (proxiedUrl url)]
       (consoleLog [CText "Querying taxlots endpoint:"; CText url] w)).

(** The entries the sequencer collects when every endpoint of the list
    fails, given the requests issued before the first attempt. *)
Fixpoint expectedErrors (lat lng : JsNum) (endpoints : list string)
  (history : list string) : list string :=
  match endpoints with
  | [] => []
  | endpoint :: rest =>
      let url := proxiedUrl (taxlotUrl lat lng endpoint) in
      (endpoint ++ ": " ++ taxlotFailure (net history url 8000%N))
      :: expectedErrors lat lng rest (push history url)
  end.

(** The address a reverse-geocode response offers. *)
Definition offeredAddress (out : FetchOutcome) : option AddressObj :=
  match out with
  | FetchResponds res =>
      if ok res then
        match body res with
        | BodyJson json => Json.address json
        | BodyThrows _ => None
        end
      else None
  | FetchThrows _ => None
  end.

Definition reverseUrl (lat lng : JsNum) (base : string) : string :=
  base ++ "/reverseGeocode?"
  ++ URLSearchParams
       [("f", "json");
        ("location", numberToString lng ++ "," ++ numberToString lat);
        ("outFields", "*")].

(** [openRLID]: the URL handed to [window.open]. *)
Definition openRLID (w : World) : string :=
  match currentProperty (AppState w) with
  | None => "https://www.rlid.org"
  | Some cur =>
      let pid := parcelId cur in
      if negb (truthy pid)
         || match pid with VStr s => String.eqb s "N/A" | _ => false end
      then "https://www.rlid.org"
      else "https://www.rlid.org/custom/lc/at/query_results.cfm?maptaxlot="
           ++ encodeURIComponent (toStr pid)
  end.

(** [w'] differs from [w] in the console and the request log at most. *)
Definition onlyLogged (w w' : World) : Prop :=
  AppState w' = AppState w /\ toasts w' = toasts w
  /\ localStorage w' = localStorage w /\ panel w' = panel w
  /\ panelOpen w' = panelOpen w.

(** The candidates a geocoder response yields: at least one, all of them
    with a location. *)
Definition yieldedCandidates (out : FetchOutcome) : option (list SearchCandidate) :=
  match out with
  | FetchResponds res =>
      if ok res then
        match body res with
        | BodyJson json =>
            match normalizeCandidates
                    (match Json.candidates json with Some cs => cs | None => [] end) with
            | Normal (c :: cs) => Some (c :: cs)
            | _ => None
            end
        | BodyThrows _ => None
        end
      else None
  | FetchThrows _ => None
  end.

(* ================================================================ *)
(** ** Properties of the field resolver *)

Lemma getProp_present_in : forall attrs key,
  inheritedName key = false ->
  present (getProp attrs key) = true -> In key (objectKeys attrs).
Proof.
  induction attrs as [|[k v] rest IH]; simpl; intros key Hown H.
  - unfold inheritedProp in H. rewrite Hown in H. discriminate.
  - destruct (String.eqb k key) eqn:E.
    + apply String.eqb_eq in E. now left.
    + right. now apply IH.
Qed.

Lemma present_defined : forall v, present v = true -> v <> VUndefined.
Proof. intros v H ->. discriminate. Qed.

Lemma orDefault_defined : forall v, v <> VUndefined -> orDefault v = v.
Proof. intros [| | | | |] H; try reflexivity. congruence. Qed.

Lemma orDefault_not_undefined : forall v, orDefault v <> VUndefined.
Proof. intros [| | | | |]; discriminate. Qed.

Lemma ownNames_in : forall keys k,
  ownNames keys = true -> In k keys -> inheritedName k = false.
Proof.
  intros keys k H Hin. unfold ownNames in H. rewrite forallb_forall in H.
  apply negb_true_iff. now apply H.
Qed.

Lemma ownNames_app : forall keys keys',
  ownNames (keys ++ keys')%list = ownNames keys && ownNames keys'.
Proof. intros. unfold ownNames. apply forallb_app. Qed.

Lemma scanKeys_some : forall attrs lower actuals v,
  scanKeys attrs lower actuals = Some v ->
  exists actual,
    In actual actuals /\ toLowerCase actual = lower /\
    getProp attrs actual = v /\ present v = true.
Proof.
  intros attrs lower actuals v.
  induction actuals as [|a rest IH]; simpl; intros H.
  - discriminate.
  - destruct (String.eqb (toLowerCase a) lower) eqn:E.
    + destruct (present (getProp attrs a)) eqn:P.
      * inversion H; subst. exists a. apply String.eqb_eq in E. auto.
      * destruct (IH H) as (x & Hin & Hx). exists x. auto.
    + destruct (IH H) as (x & Hin & Hx). exists x. auto.
Qed.

Lemma scanKeys_none : forall attrs lower actuals,
  scanKeys attrs lower actuals = None ->
  forall actual, In actual actuals -> toLowerCase actual = lower ->
                 present (getProp attrs actual) = false.
Proof.
  intros attrs lower actuals.
  induction actuals as [|a rest IH]; simpl; intros H actual Hin Hlow.
  - contradiction.
  - destruct (String.eqb (toLowerCase a) lower) eqn:E.
    + destruct (present (getProp attrs a)) eqn:P; [discriminate|].
      destruct Hin as [->|Hin]; auto.
    + destruct Hin as [->|Hin]; auto.
      apply String.eqb_neq in E. contradiction.
Qed.

Lemma getField_cons : forall attrs key rest fallback,
  getField attrs (key :: rest) fallback =
  if present (getProp attrs key) then getProp attrs key
  else match scanKeys attrs (toLowerCase key) (objectKeys attrs) with
       | Some val => val
       | None => getField attrs rest fallback
       end.
Proof. reflexivity. Qed.

(** One round of the outer loop on a candidate that names no inherited
    member: either the candidate resolves and its value is returned, or
    it does not and the loop goes on. *)
Lemma getField_step : forall attrs key rest fallback,
  inheritedName key = false ->
  (resolvesTo attrs key (getField attrs (key :: rest) fallback)) \/
  (~ resolves attrs key /\
   getField attrs (key :: rest) fallback = getField attrs rest fallback).
Proof.
  intros attrs key rest fallback Hown. rewrite getField_cons.
  destruct (present (getProp attrs key)) eqn:P.
  - left. exists key. split; [now apply getProp_present_in|].
    repeat split. exact P.
  - destruct (scanKeys attrs (toLowerCase key) (objectKeys attrs)) eqn:S.
    + left. destruct (scanKeys_some _ _ _ _ S) as (a & Hin & Hl & Hv & Hp).
      exists a. auto.
    + right. split; auto.
      intros (v & a & Hin & Hl & Hv & Hp).
      rewrite <- Hv in Hp.
      rewrite (scanKeys_none _ _ _ S a Hin Hl) in Hp. discriminate.
Qed.

(** A candidate that names an inherited member and that the bag does not
    hold resolves to that member. *)
Lemma getField_inherited : forall attrs key rest fallback,
  inheritedName key = true ->
  ~ In key (objectKeys attrs) ->
  getField attrs (key :: rest) fallback = VObject key.
Proof.
  intros attrs key rest fallback Hname Hnot. rewrite getField_cons.
  assert (Hget : getProp attrs key = VObject key).
  { induction attrs as [|[k v] more IH]; simpl.
    - unfold inheritedProp. now rewrite Hname.
    - destruct (String.eqb k key) eqn:E.
      + apply String.eqb_eq in E. exfalso. apply Hnot. now left.
      + apply IH. intros Hin. apply Hnot. now right. }
  rewrite Hget. reflexivity.
Qed.

Lemma getField_none : forall attrs keys fallback,
  ownNames keys = true ->
  (forall k, In k keys -> ~ resolves attrs k) ->
  getField attrs keys fallback = orDefault fallback.
Proof.
  intros attrs keys fallback.
  induction keys as [|key rest IH]; intros Hown Hnone; [reflexivity|].
  destruct (getField_step attrs key rest fallback) as [Hres | [_ Heq]].
  - apply (ownNames_in _ _ Hown). now left.
  - exfalso. apply (Hnone key); [now left|]. eexists; eassumption.
  - rewrite Heq. apply IH.
    + cbn in Hown. apply andb_true_iff in Hown. tauto.
    + intros k Hk. apply Hnone. now right.
Qed.

Lemma getField_cases : forall attrs keys fallback,
  ownNames keys = true ->
  (exists before key after,
      keys = (before ++ key :: after)%list /\
      (forall k, In k before -> ~ resolves attrs k) /\
      resolvesTo attrs key (getField attrs keys fallback))
  \/ ((forall k, In k keys -> ~ resolves attrs k) /\
      getField attrs keys fallback = orDefault fallback).
Proof.
  intros attrs keys fallback.
  induction keys as [|key rest IH]; intros Hown.
  - right. split; [intros k []|reflexivity].
  - cbn in Hown. apply andb_true_iff in Hown as [Hkey Hrest].
    apply negb_true_iff in Hkey.
    destruct (getField_step attrs key rest fallback Hkey) as [Hres | [Hno Heq]].
    + left. exists [], key, rest. split; [reflexivity|]. split; [intros k []|exact Hres].
    + rewrite Heq.
      destruct (IH Hrest) as [(before & k0 & after & Hk & Hb & Hr) | [Hnone Hfb]].
      * left. exists (key :: before), k0, after. subst rest.
        split; [reflexivity|]. split; [|exact Hr].
        intros k [<-|Hin]; auto.
      * right. split; [|exact Hfb].
        intros k [<-|Hin]; auto.
Qed.

Lemma resolvesb_spec : forall attrs candidate,
  resolvesb attrs candidate = true <-> resolves attrs candidate.
Proof.
  intros attrs candidate. unfold resolvesb, resolves, resolvesTo.
  rewrite existsb_exists. split.
  - intros (a & Hin & H). apply andb_true_iff in H as [Hl Hp].
    apply String.eqb_eq in Hl. exists (getProp attrs a), a. auto.
  - intros (v & a & Hin & Hl & Hv & Hp). exists a. split; auto.
    apply andb_true_iff. split; [now apply String.eqb_eq|now rewrite Hv].
Qed.

Lemma unresolved_all : forall attrs keys,
  forallb (fun k => negb (resolvesb attrs k)) keys = true ->
  forall k, In k keys -> ~ resolves attrs k.
Proof.
  intros attrs keys H k Hin Hres.
  rewrite forallb_forall in H. specialize (H k Hin).
  apply resolvesb_spec in Hres. rewrite Hres in H. discriminate.
Qed.

(** C2, as amended.  For every attribute bag, every ordered list of
    candidate names none of which names a member of [Object.prototype],
    and every fallback, [getField] returns the value of the first
    candidate, in list order, that the bag holds under a key equal to it
    exactly or up to case with a value that is not [null], not
    [undefined] and not the empty string; when no candidate resolves it
    returns the fallback, or [null] when the fallback is [undefined].
    For the bag [{ownname: "Smith"}] and the candidates OWNER1, OWNER,
    OWNNAME it returns ["Smith"]. *)
Theorem getField_first_resolving : forall attrs keys fallback,
  ownNames keys = true ->
  ((exists before key after,
       keys = (before ++ key :: after)%list /\
       (forall k, In k before -> ~ resolves attrs k) /\
       resolvesTo attrs key (getField attrs keys fallback))
   \/ ((forall k, In k keys -> ~ resolves attrs k) /\
       getField attrs keys fallback
       = match fallback with
         | VUndefined => VNull
         | _ => fallback
         end))
  /\ getField [("ownname", VStr "Smith")] ["OWNER1"; "OWNER"; "OWNNAME"] fallback
     = VStr "Smith".
Proof.
  intros attrs keys fallback Hown. split.
  - exact (getField_cases attrs keys fallback Hown).
  - reflexivity.
Qed.

(* ================================================================ *)
(** ** Properties of the normalizer *)

Lemma getField_fromBagOr : forall attrs keys dflt,
  ownNames keys = true ->
  fromBagOr attrs (orDefault dflt) (getField attrs keys dflt).
Proof.
  intros attrs keys dflt Hown.
  destruct (getField_cases attrs keys dflt Hown)
    as [(before & key & after & _ & _ & (a & Hin & _ & Hv & Hp)) | [_ Hfb]].
  - right. exists a. auto.
  - left. exact Hfb.
Qed.

Lemma getField_fromBagOr_defined : forall attrs keys dflt,
  ownNames keys = true ->
  dflt <> VUndefined ->
  fromBagOr attrs dflt (getField attrs keys dflt).
Proof.
  intros attrs keys dflt Hown Hd.
  rewrite <- (orDefault_defined dflt Hd) at 1.
  now apply getField_fromBagOr.
Qed.

(** Whatever the candidates and the fallback, [getField] does not return
    [undefined]. *)
Lemma getField_defined : forall attrs keys dflt,
  getField attrs keys dflt <> VUndefined.
Proof.
  intros attrs keys dflt.
  induction keys as [|key rest IH].
  - apply orDefault_not_undefined.
  - rewrite getField_cons.
    destruct (present (getProp attrs key)) eqn:P; [now apply present_defined|].
    destruct (scanKeys attrs (toLowerCase key) (objectKeys attrs)) eqn:S;
      [|exact IH].
    destruct (scanKeys_some _ _ _ _ S) as (a & _ & _ & _ & Hp).
    now apply present_defined.
Qed.

(** C3. [normalizeParcel] is total: for every attribute bag it returns a
    Property none of whose fields is [undefined]; each resolved field is
    a present value of the bag or its documented default (the tax lot
    defaults to the parcel id), and on the empty bag every field is its
    default. *)
Theorem normalizeParcel_total : forall attrs,
  let p := normalizeParcel attrs in
  Forall (fun v => v <> VUndefined) (valueFields p)
  /\ (fromBagOr attrs (VStr "Unknown Owner") (owner p)
      /\ fromBagOr attrs (VStr "Address not available") (situs p)
      /\ fromBagOr attrs (VStr "") (city p)
      /\ fromBagOr attrs (VStr "OR") (state p)
      /\ fromBagOr attrs (VStr "") (zip p)
      /\ fromBagOr attrs VNull (assessed p)
      /\ fromBagOr attrs VNull (land p)
      /\ fromBagOr attrs VNull (improv p)
      /\ fromBagOr attrs VNull (acres p)
      /\ fromBagOr attrs (VStr "N/A") (zoning p)
      /\ fromBagOr attrs (VStr "N/A") (yearBuilt p)
      /\ fromBagOr attrs (VStr "N/A") (parcelId p)
      /\ fromBagOr attrs (parcelId p) (taxLot p)
      /\ fromBagOr attrs (VStr "N/A") (propType p)
      /\ fromBagOr attrs (VStr "") (township p)
      /\ fromBagOr attrs (VStr "") (range p)
      /\ fromBagOr attrs (VStr "") (section p))
  /\ savedAt p = VNull
  /\ _rawAttrs p = attrs
  /\ normalizeParcel [] =
     {| uniqueKey := "n/a|address not available|unknown owner";
        owner := VStr "Unknown Owner";
        situs := VStr "Address not available";
        city := VStr "";
        state := VStr "OR";
        zip := VStr "";
        fullAddress := "Address not available | OR";
        assessed := VNull;
        land := VNull;
        improv := VNull;
        acres := VNull;
        lotSizeLabel := "N/A";
        zoning := VStr "N/A";
        yearBuilt := VStr "N/A";
        parcelId := VStr "N/A";
        taxLot := VStr "N/A";
        propType := VStr "N/A";
        township := VStr "";
        range := VStr "";
        section := VStr "";
        trs := "N/A";
        savedAt := VNull;
        _rawAttrs := [] |}.
Proof.
  intros attrs p.
  assert (Hpid : parcelId p <> VUndefined) by apply getField_defined.
  split; [|split; [|split; [|split]]]; try reflexivity.
  - unfold valueFields, p; simpl.
    repeat (apply Forall_cons; [first [ apply getField_defined
                                      | discriminate ] |]).
    apply Forall_nil.
  - unfold p; simpl.
    repeat split;
      (apply getField_fromBagOr_defined;
       [reflexivity | first [discriminate | exact Hpid]]).
Qed.

(** C10, as amended.  When none of the tax-lot candidate fields resolves,
    the tax lot of the normalized Property is its parcel id; when none of
    the parcel-id candidates resolves either, it is ["N/A"].  Conversely
    the tax lot is then ["N/A"] only if no parcel-id candidate resolves
    or the bag itself holds the string ["N/A"] as the parcel id. *)
Theorem taxLot_falls_back_to_parcelId : forall attrs,
  (forall k, In k FIELD_MAP.taxLot -> ~ resolves attrs k) ->
  taxLot (normalizeParcel attrs) = parcelId (normalizeParcel attrs)
  /\ ((forall k, In k FIELD_MAP.parcelId -> ~ resolves attrs k) ->
      taxLot (normalizeParcel attrs) = VStr "N/A")
  /\ (taxLot (normalizeParcel attrs) = VStr "N/A" ->
      (forall k, In k FIELD_MAP.parcelId -> ~ resolves attrs k)
      \/ exists k, In k FIELD_MAP.parcelId /\ resolvesTo attrs k (VStr "N/A")).
Proof.
  intros attrs Hno.
  change (taxLot (normalizeParcel attrs))
    with (getField attrs FIELD_MAP.taxLot
            (getField attrs FIELD_MAP.parcelId (VStr "N/A"))).
  change (parcelId (normalizeParcel attrs))
    with (getField attrs FIELD_MAP.parcelId (VStr "N/A")).
  rewrite (getField_none attrs FIELD_MAP.taxLot _ eq_refl Hno).
  rewrite (orDefault_defined _ (getField_defined attrs FIELD_MAP.parcelId (VStr "N/A"))).
  split; [reflexivity|]. split.
  - intros Hpid.
    exact (getField_none attrs FIELD_MAP.parcelId (VStr "N/A") eq_refl Hpid).
  - intros HNA.
    destruct (getField_cases attrs FIELD_MAP.parcelId (VStr "N/A") eq_refl)
      as [(before & key & after & Hkeys & _ & Hres) | [Hnone _]].
    + right. exists key. split.
      * rewrite Hkeys. apply in_or_app. right. now left.
      * rewrite HNA in Hres. exact Hres.
    + left. exact Hnone.
Qed.

(* ================================================================ *)
(** ** The lot-size label *)

Lemma length_append : forall s t,
  String.length (s ++ t) = String.length s + String.length t.
Proof.
  induction s as [|c s IH]; intros t; simpl; [reflexivity|].
  now rewrite IH.
Qed.

Lemma append_associative : forall s t u : string, (s ++ t) ++ u = s ++ t ++ u.
Proof.
  induction s as [|c s IH]; intros t u; simpl; [reflexivity|].
  now rewrite IH.
Qed.

Lemma length_repeatChar : forall c n, String.length (repeatChar c n) = n.
Proof.
  induction n as [|n IH]; simpl; [reflexivity|]. now rewrite IH.
Qed.

Lemma length_substring : forall s n m,
  n + m <= String.length s -> String.length (substring n m s) = m.
Proof.
  induction s as [|c s IH]; intros n m H; simpl in H.
  - assert (n = 0) by lia. assert (m = 0) by lia. subst. reflexivity.
  - destruct n as [|n].
    + destruct m as [|m]; [reflexivity|].
      simpl. rewrite IH; [reflexivity|lia].
    + simpl. apply IH. lia.
Qed.

Lemma substring_all : forall s, substring 0 (String.length s) s = s.
Proof. induction s as [|c s IH]; simpl; [reflexivity | now rewrite IH]. Qed.

Lemma substring_split : forall s i,
  i <= String.length s ->
  substring 0 i s ++ substring i (String.length s - i) s = s.
Proof.
  induction s as [|c s IH]; intros i H.
  - simpl in H. assert (i = 0) by lia. subst. reflexivity.
  - destruct i as [|i].
    + change (substring 0 0 (String c s)) with EmptyString.
      rewrite Nat.sub_0_r. apply substring_all.
    + simpl in H. cbn [substring String.length Nat.sub append].
      rewrite IH by lia. reflexivity.
Qed.

(** Reading back the digits that [decimalOfN] prints. *)
Lemma readDigits_uint_acc : forall d acc,
  readDigits 10 (NilEmpty.string_of_uint d) (Zpos acc)
  = Some (Zpos (Pos.of_uint_acc d acc)).
Proof.
  induction d; intros acc;
    cbn [NilEmpty.string_of_uint readDigits Pos.of_uint_acc];
    try reflexivity;
    change (digitValue 10 _) with (Some 0%Z)
    || change (digitValue 10 _) with (Some 1%Z)
    || change (digitValue 10 _) with (Some 2%Z)
    || change (digitValue 10 _) with (Some 3%Z)
    || change (digitValue 10 _) with (Some 4%Z)
    || change (digitValue 10 _) with (Some 5%Z)
    || change (digitValue 10 _) with (Some 6%Z)
    || change (digitValue 10 _) with (Some 7%Z)
    || change (digitValue 10 _) with (Some 8%Z)
    || change (digitValue 10 _) with (Some 9%Z);
    rewrite <- IHd; f_equal; lia.
Qed.

Lemma readDigits_uint : forall d,
  readDigits 10 (NilEmpty.string_of_uint d) 0 = Some (Z.of_N (Pos.of_uint d)).
Proof.
  induction d; cbn [NilEmpty.string_of_uint readDigits Pos.of_uint];
    try reflexivity;
    [ change (digitValue 10 _) with (Some 0%Z); exact IHd
    | change (digitValue 10 _) with (Some 1%Z)
    | change (digitValue 10 _) with (Some 2%Z)
    | change (digitValue 10 _) with (Some 3%Z)
    | change (digitValue 10 _) with (Some 4%Z)
    | change (digitValue 10 _) with (Some 5%Z)
    | change (digitValue 10 _) with (Some 6%Z)
    | change (digitValue 10 _) with (Some 7%Z)
    | change (digitValue 10 _) with (Some 8%Z)
    | change (digitValue 10 _) with (Some 9%Z) ];
    exact (readDigits_uint_acc d _).
Qed.

Lemma readDigits_decimalOfN : forall n,
  readDigits 10 (decimalOfN n) 0 = Some (Z.of_N n).
Proof.
  intros n. unfold decimalOfN, NilZero.string_of_uint.
  pose proof (DecimalN.Unsigned.of_to n) as Hn. unfold N.of_uint in Hn.
  destruct (N.to_uint n) eqn:E;
    try (rewrite readDigits_uint, Hn; reflexivity).
  cbn in Hn. subst n. reflexivity.
Qed.

Lemma readDigits_zeros : forall j s,
  readDigits 10 (repeatChar "0"%char j ++ s) 0 = readDigits 10 s 0.
Proof.
  induction j as [|j IH]; intros s; [reflexivity|].
  cbn [repeatChar append readDigits].
  change (digitValue 10 "0"%char) with (Some 0%Z). exact (IH s).
Qed.

(** Below 10^21, [toFixed(f)] with [f > 0] prints at least one integer
    digit, a point and exactly [f] fraction digits, and the digits read
    as the scaled integer it was given. *)
Lemma fixedDigits_shape : forall n f,
  (0 <= n)%Z -> 0 < f ->
  exists a b,
    fixedDigits n f = a ++ "." ++ b /\ String.length b = f /\ 1 <= String.length a
    /\ readDigits 10 (a ++ b) 0 = Some n.
Proof.
  intros n f Hn Hf. unfold fixedDigits.
  destruct f as [|f']; [lia|].
  set (f := S f') in *.
  set (m := decimalOfN (Z.to_N n)).
  set (m' := if (String.length m <=? f)%nat
             then repeatChar "0"%char (f + 1 - String.length m) ++ m else m).
  assert (Hk : f + 1 <= String.length m').
  { unfold m'. destruct (String.length m <=? f)%nat eqn:E.
    - apply Nat.leb_le in E.
      rewrite length_append, length_repeatChar. lia.
    - apply Nat.leb_gt in E. lia. }
  assert (Hread : readDigits 10 m' 0 = Some n).
  { unfold m'. destruct (String.length m <=? f)%nat;
      rewrite ?readDigits_zeros; unfold m;
      rewrite readDigits_decimalOfN, Z2N.id by exact Hn; reflexivity. }
  exists (substring 0 (String.length m' - f) m'),
         (substring (String.length m' - f) f m').
  split; [reflexivity|]. split; [apply length_substring; lia|].
  split; [rewrite length_substring; lia|].
  pose proof (substring_split m' (String.length m' - f) ltac:(lia)) as Hsplit.
  replace (String.length m' - (String.length m' - f)) with f in Hsplit by lia.
  rewrite Hsplit. exact Hread.
Qed.

Lemma nearestScaled_nearest : forall x f,
  (0 <= x)%Q ->
  (0 <= nearestScaled x f)%Z
  /\ (inject_Z (nearestScaled x f) - (1 # 2) <= x * pow10 f)%Q
  /\ (x * pow10 f < inject_Z (nearestScaled x f) + (1 # 2))%Q.
Proof.
  intros x f Hx. unfold nearestScaled.
  pose proof (Qfloor_le (x * pow10 f + (1 # 2))) as Hle.
  pose proof (Qlt_floor (x * pow10 f + (1 # 2))) as Hlt.
  rewrite inject_Z_plus in Hlt. change (inject_Z 1) with 1%Q in Hlt.
  split; [|split; lra].
  change 0%Z with (Qfloor 0). apply Qfloor_resp_le.
  assert (Hp : (0 <= pow10 f)%Q).
  { unfold pow10. change 0%Q with (inject_Z 0). rewrite <- Zle_Qle.
    apply Z.pow_nonneg. lia. }
  pose proof (Qmult_le_0_compat x (pow10 f) Hx Hp). lra.
Qed.

Lemma append_unit_not_NA : forall s, s ++ " ac" <> "N/A".
Proof.
  intros s H. assert (Hlen := f_equal String.length H).
  rewrite length_append in Hlen. cbn in Hlen.
  destruct s as [|c s]; [discriminate | cbn in Hlen; lia].
Qed.

(** C9, as amended.  The lot-size label is the resolved acreage formatted
    to two decimals and followed by [" ac"] whenever that value is truthy
    and is, as a number, finite and below 10^21 in magnitude: a sign, the
    digits of the multiple of 0.01 nearest to the magnitude, two of them
    after the point.  The label is ["N/A"] exactly when the resolved
    acreage is falsy: absent, but also zero, NaN or [false].  An acreage
    of 1.5 gives ["1.50 ac"]. *)
Theorem lotSizeLabel_by_truthiness : forall attrs,
  let p := normalizeParcel attrs in
  (forall q,
      truthy (acres p) = true ->
      toNumber (acres p) = Finite q ->
      (Qabs q < inject_Z (10 ^ 21))%Q ->
      exists a b n,
        lotSizeLabel p
        = (if isNegative q then "-" else "") ++ a ++ "." ++ b ++ " ac"
        /\ String.length b = 2 /\ 1 <= String.length a
        /\ readDigits 10 (a ++ b) 0 = Some n
        /\ (inject_Z n - (1 # 2) <= Qabs q * inject_Z 100)%Q
        /\ (Qabs q * inject_Z 100 < inject_Z n + (1 # 2))%Q)
  /\ (truthy (acres p) = false <-> lotSizeLabel p = "N/A")
  /\ ((forall k, In k FIELD_MAP.acres -> ~ resolves attrs k) ->
      acres p = VNull /\ lotSizeLabel p = "N/A")
  /\ lotSizeLabel (normalizeParcel [("ACRES", VNum (Finite (3 # 2)))]) = "1.50 ac".
Proof.
  intros attrs p.
  assert (Hlabel : lotSizeLabel p =
                   if truthy (acres p)
                   then toFixed (toNumber (acres p)) 2 ++ " ac" else "N/A")
    by reflexivity.
  split; [|split; [|split; [|reflexivity]]].
  - intros q Ht Hq Hlt. rewrite Hlabel, Ht, Hq. cbn [toFixed].
    destruct (Qle_bool (inject_Z (10 ^ 21)) (Qabs q)) eqn:Ebig.
    { apply Qle_bool_iff in Ebig. exfalso. exact (Qlt_not_le _ _ Hlt Ebig). }
    destruct (nearestScaled_nearest (Qabs q) 2 (Qabs_nonneg q)) as (Hn & Hlo & Hhi).
    destruct (fixedDigits_shape (nearestScaled (Qabs q) 2) 2 Hn) as (a & b & Hd & Hb & Ha & Hr);
      [lia|].
    exists a, b, (nearestScaled (Qabs q) 2). rewrite Hd.
    split; [destruct (isNegative q); rewrite !append_associative; reflexivity|].
    repeat split; assumption.
  - rewrite Hlabel. split.
    + intros Hf. now rewrite Hf.
    + destruct (truthy (acres p)); [|reflexivity].
      intros H. exfalso. exact (append_unit_not_NA _ H).
  - intros Hno.
    assert (Hacres : acres p = VNull)
      by exact (getField_none attrs FIELD_MAP.acres VNull eq_refl Hno).
    split; [exact Hacres|]. now rewrite Hlabel, Hacres.
Qed.

(* ================================================================ *)
(** ** Properties of the taxlot endpoint sequencer *)

(** One round of the loop, read off the outcome of its request. *)
Lemma taxlotLoop_step : forall lat lng endpoint rest errors w,
  taxlotLoop lat lng (endpoint :: rest) errors w =
  let out := net (requests w) (proxiedUrl (taxlotUrl lat lng endpoint)) 8000%N in
  match usableFeature out with
  | Some feat =>
      ((Some {| property := normalizeParcel (featureAttrs feat);
                geometry := Feature.geometry feat |}, errors),
       afterAttempt lat lng endpoint w)
  | None =>
      taxlotLoop lat lng rest
        (push errors (endpoint ++ ": " ++ taxlotFailure out))
        (afterAttempt lat lng endpoint w)
  end.
Proof.
  intros lat lng endpoint rest errors w.
  cbn [taxlotLoop].
  unfold attemptTaxlot, bind, effect, fetchWithTimeout, afterAttempt.
  cbn [requests consoleLog].
  destruct (net (requests w) (proxiedUrl (taxlotUrl lat lng endpoint)) 8000%N)
    as [err | res]; cbn [usableFeature taxlotFailure]; [reflexivity|].
  destruct (ok res); cbn [negb]; [|reflexivity].
  unfold resJson.
  destruct (body res) as [err | json]; [reflexivity|].
  unfold ret.
  destruct (Json.features json) as [[|feat more]|]; reflexivity.
Qed.

Lemma requests_afterAttempt : forall lat lng endpoint w,
  requests (afterAttempt lat lng endpoint w)
  = push (requests w) (proxiedUrl (taxlotUrl lat lng endpoint)).
Proof. reflexivity. Qed.

(** The sequencer touches the console and the request log only. *)
Lemma taxlotLoop_frame : forall lat lng endpoints errors w,
  onlyLogged w (snd (taxlotLoop lat lng endpoints errors w)).
Proof.
  intros lat lng endpoints. unfold onlyLogged.
  induction endpoints as [|endpoint rest IH]; intros errors w.
  - simpl. auto.
  - rewrite taxlotLoop_step. cbv zeta.
    destruct (usableFeature _).
    + simpl. auto.
    + match goal with
      | |- context [taxlotLoop lat lng rest ?e ?v] =>
          destruct (IH e v) as (H1 & H2 & H3 & H4 & H5)
      end.
      rewrite H1, H2, H3, H4, H5. simpl. auto.
Qed.

(** When every endpoint fails, the loop ends without a result, having
    pushed one entry per endpoint and issued one request per endpoint. *)
Lemma taxlotLoop_exhausted : forall lat lng endpoints errors w,
  (forall history endpoint,
      In endpoint endpoints ->
      usableFeature (net history (proxiedUrl (taxlotUrl lat lng endpoint)) 8000%N)
      = None) ->
  fst (taxlotLoop lat lng endpoints errors w)
  = (None, (errors ++ expectedErrors lat lng endpoints (requests w))%list)
  /\ requests (snd (taxlotLoop lat lng endpoints errors w))
     = (requests w
        ++ map (fun endpoint => proxiedUrl (taxlotUrl lat lng endpoint)) endpoints)%list.
Proof.
  intros lat lng endpoints.
  induction endpoints as [|endpoint rest IH]; intros errors w Hfail.
  - simpl. now rewrite !app_nil_r.
  - rewrite taxlotLoop_step. cbv zeta.
    rewrite (Hfail (requests w) endpoint (or_introl eq_refl)).
    destruct (IH (push errors
                    (endpoint ++ ": "
                     ++ taxlotFailure
                          (net (requests w)
                               (proxiedUrl (taxlotUrl lat lng endpoint)) 8000%N)))
                 (afterAttempt lat lng endpoint w)) as [Hres Hreq].
    { intros history e He. apply Hfail. now right. }
    rewrite Hres, Hreq, requests_afterAttempt. unfold push.
    cbn [expectedErrors map]. unfold push.
    rewrite <- !app_assoc. split; reflexivity.
Qed.

Lemma expectedErrors_shape : forall lat lng endpoints history,
  Forall2 (fun endpoint entry => exists reason, entry = endpoint ++ ": " ++ reason)
          endpoints (expectedErrors lat lng endpoints history).
Proof.
  intros lat lng endpoints.
  induction endpoints as [|endpoint rest IH]; intros history; simpl.
  - constructor.
  - constructor; [eexists; reflexivity | apply IH].
Qed.

(** C4. With the endpoint list [A; B; C], when the attempt on A fails
    (the fetch throws, the status is not a success, the body cannot be
    read or holds no feature) and the attempt on B returns a feature, the
    sequencer returns the Property normalized from B's feature with its
    geometry, and exactly two requests were issued, the one for A and the
    one for B: none was issued for C, whose call count is what it was. *)
Theorem sequencer_short_circuits : forall lat lng A B C feat w,
  TAXLOT_ENDPOINTS cfg = [A; B; C] ->
  usableFeature (net (requests w) (proxiedUrl (taxlotUrl lat lng A)) 8000%N) = None ->
  usableFeature
    (net (push (requests w) (proxiedUrl (taxlotUrl lat lng A)))
         (proxiedUrl (taxlotUrl lat lng B)) 8000%N) = Some feat ->
  fst (tryIdentifyFromTaxlots lat lng w)
  = Normal (Some {| property := normalizeParcel (featureAttrs feat);
                    geometry := Feature.geometry feat |})
  /\ requests (snd (tryIdentifyFromTaxlots lat lng w))
     = (requests w ++ [proxiedUrl (taxlotUrl lat lng A);
                       proxiedUrl (taxlotUrl lat lng B)])%list
  /\ List.length (requests (snd (tryIdentifyFromTaxlots lat lng w)))
     = List.length (requests w) + 2
  /\ (proxiedUrl (taxlotUrl lat lng C) <> proxiedUrl (taxlotUrl lat lng A) ->
      proxiedUrl (taxlotUrl lat lng C) <> proxiedUrl (taxlotUrl lat lng B) ->
      callCount (proxiedUrl (taxlotUrl lat lng C))
                (snd (tryIdentifyFromTaxlots lat lng w))
      = callCount (proxiedUrl (taxlotUrl lat lng C)) w).
Proof.
  intros lat lng A B C feat w Hcfg HA HB.
  unfold tryIdentifyFromTaxlots. rewrite Hcfg.
  rewrite taxlotLoop_step. cbv zeta. rewrite HA.
  rewrite taxlotLoop_step. cbv zeta.
  rewrite requests_afterAttempt, HB.
  cbn [fst snd]. unfold callCount. rewrite !requests_afterAttempt. unfold push.
  rewrite <- app_assoc. cbn [app].
  repeat split.
  - rewrite length_app. reflexivity.
  - intros HCA HCB. rewrite filter_app, length_app. cbn [filter].
    apply String.eqb_neq in HCA, HCB. rewrite HCA, HCB. cbn. lia.
Qed.

(** C5. When every endpoint of the list fails or returns no feature, the
    sequencer returns [null] and throws nothing; the [errors] array holds
    exactly one entry ["<endpoint>: <reason>"] per endpoint, in the order
    of the list, and one request per endpoint was issued. *)
Theorem sequencer_exhaustion : forall lat lng w,
  (forall history endpoint,
      In endpoint (TAXLOT_ENDPOINTS cfg) ->
      usableFeature (net history (proxiedUrl (taxlotUrl lat lng endpoint)) 8000%N)
      = None) ->
  fst (tryIdentifyFromTaxlots lat lng w) = Normal None
  /\ exists errors,
       fst (taxlotLoop lat lng (TAXLOT_ENDPOINTS cfg) [] w) = (None, errors)
       /\ errors = expectedErrors lat lng (TAXLOT_ENDPOINTS cfg) (requests w)
       /\ Forall2 (fun endpoint entry =>
                     exists reason, entry = endpoint ++ ": " ++ reason)
                  (TAXLOT_ENDPOINTS cfg) errors
       /\ List.length errors = List.length (TAXLOT_ENDPOINTS cfg)
       /\ List.length (requests (snd (tryIdentifyFromTaxlots lat lng w)))
          = List.length (requests w) + List.length (TAXLOT_ENDPOINTS cfg).
Proof.
  intros lat lng w Hfail.
  destruct (taxlotLoop_exhausted lat lng (TAXLOT_ENDPOINTS cfg) [] w Hfail)
    as [Hres Hreq].
  cbn [app] in Hres.
  pose proof (expectedErrors_shape lat lng (TAXLOT_ENDPOINTS cfg) (requests w))
    as Hshape.
  assert (Hrun : fst (tryIdentifyFromTaxlots lat lng w) = Normal None
                 /\ requests (snd (tryIdentifyFromTaxlots lat lng w))
                    = requests (snd (taxlotLoop lat lng (TAXLOT_ENDPOINTS cfg) [] w))).
  { unfold tryIdentifyFromTaxlots.
    destruct (taxlotLoop lat lng (TAXLOT_ENDPOINTS cfg) [] w) as [[r errs] w'].
    cbn [fst] in Hres. inversion Hres; subst.
    destruct (expectedErrors lat lng (TAXLOT_ENDPOINTS cfg) (requests w));
      split; reflexivity. }
  destruct Hrun as [Hnull Hsame].
  split; [exact Hnull|].
  exists (expectedErrors lat lng (TAXLOT_ENDPOINTS cfg) (requests w)).
  repeat split; auto.
  - symmetry. exact (Forall2_length Hshape).
  - rewrite Hsame, Hreq, length_app, length_map. reflexivity.
Qed.

(* ================================================================ *)
(** ** Properties of the identify pipeline *)

Lemma onlyLogged_refl : forall w, onlyLogged w w.
Proof. intros w. unfold onlyLogged. auto. Qed.

Lemma onlyLogged_trans : forall w1 w2 w3,
  onlyLogged w1 w2 -> onlyLogged w2 w3 -> onlyLogged w1 w3.
Proof.
  unfold onlyLogged. intros w1 w2 w3 (A1 & A2 & A3 & A4 & A5) (B1 & B2 & B3 & B4 & B5).
  rewrite B1, B2, B3, B4, B5. auto.
Qed.

Lemma onlyLogged_consoleWarn : forall args w, onlyLogged w (consoleWarn args w).
Proof. intros. unfold onlyLogged. simpl. auto. Qed.

Lemma fetchWithTimeout_world : forall url timeoutMs w,
  snd (fetchWithTimeout url timeoutMs w)
  = recordRequest (proxiedUrl url)
      (consoleLog [CText "FETCH:"; CText (proxiedUrl url)] w).
Proof.
  intros url timeoutMs w. unfold fetchWithTimeout.
  destruct (net _ _ _); reflexivity.
Qed.

Lemma fetchWithTimeout_frame : forall url timeoutMs w,
  onlyLogged w (snd (fetchWithTimeout url timeoutMs w)).
Proof.
  intros. rewrite fetchWithTimeout_world. unfold onlyLogged. simpl. auto.
Qed.

(** The taxlot sequencer never throws and leaves the application state
    alone. *)
Lemma tryIdentifyFromTaxlots_total : forall lat lng w,
  (exists result, fst (tryIdentifyFromTaxlots lat lng w) = Normal result)
  /\ onlyLogged w (snd (tryIdentifyFromTaxlots lat lng w)).
Proof.
  intros lat lng w. unfold tryIdentifyFromTaxlots.
  pose proof (taxlotLoop_frame lat lng (TAXLOT_ENDPOINTS cfg) [] w) as Hf.
  destruct (taxlotLoop lat lng (TAXLOT_ENDPOINTS cfg) [] w) as [[[r|] errs] w'];
    cbn [fst snd] in *.
  - split; [eauto | exact Hf].
  - split; [eauto|].
    destruct errs; [exact Hf|].
    eapply onlyLogged_trans; [exact Hf | apply onlyLogged_consoleWarn].
Qed.

Lemma attemptReverse_frame : forall label base lat lng w,
  onlyLogged w (snd (attemptReverse label base lat lng w)).
Proof.
  intros label base lat lng w. unfold attemptReverse, bind.
  match goal with
  | |- context [fetchWithTimeout ?u ?t w] =>
      pose proof (fetchWithTimeout_frame u t w) as Hf;
      destruct (fetchWithTimeout u t w) as [[res|err] w']
  end; cbn [snd] in *; [|exact Hf].
  destruct (ok res); [|exact Hf].
  unfold resJson. destruct (body res) as [err|json]; [exact Hf|].
  unfold ret. destruct (Json.address json); exact Hf.
Qed.

Lemma reverseBlock_frame : forall label base lat lng errors w,
  onlyLogged w (snd (reverseBlock label base lat lng errors w)).
Proof.
  intros label base lat lng errors w. unfold reverseBlock.
  pose proof (attemptReverse_frame label base lat lng w) as Hf.
  destruct (attemptReverse label base lat lng w) as [[[prop|entry]|err] w'];
    exact Hf.
Qed.

(** Reverse geocoding never throws and leaves the application state
    alone. *)
Lemma tryReverseGeocode_total : forall lat lng w,
  (exists result, fst (tryReverseGeocode lat lng w) = Normal result)
  /\ onlyLogged w (snd (tryReverseGeocode lat lng w)).
Proof.
  intros lat lng w. unfold tryReverseGeocode.
  pose proof (reverseBlock_frame "Esri reverse" (ESRI_GEOCODE_URL cfg) lat lng [] w)
    as Hf.
  destruct (reverseBlock "Esri reverse" (ESRI_GEOCODE_URL cfg) lat lng [] w)
    as [[[prop|] errs] w']; cbn [fst snd] in *.
  - split; [eauto | exact Hf].
  - destruct (nonEmpty (OREGON_GEOCODE_URL cfg)).
    + pose proof (reverseBlock_frame "Oregon reverse" (OREGON_GEOCODE_URL cfg)
                    lat lng errs w') as Hg.
      destruct (reverseBlock "Oregon reverse" (OREGON_GEOCODE_URL cfg) lat lng errs w')
        as [[[prop|] errs'] w'']; cbn [fst snd] in *.
      * split; [eauto|]. eapply onlyLogged_trans; eassumption.
      * split; [eauto|].
        eapply onlyLogged_trans; [|apply onlyLogged_consoleWarn].
        eapply onlyLogged_trans; eassumption.
    + cbn [fst snd]. split; [eauto|].
      eapply onlyLogged_trans; [exact Hf | apply onlyLogged_consoleWarn].
Qed.

Ltac run_js :=
  unfold bind, tryCatch, effect, ret, throw; cbn [fst snd].

(** The outcome of the highlight step. *)
Lemma highlightGeometry_result : forall geom w,
  highlightGeometry geom w =
  match highlightError geom with
  | Some err => (Throw err, w)
  | None =>
      (Normal tt,
       match geom with
       | Some {| rings := Some (ring :: _) |} => addTo (map swapXY ring) w
       | _ => w
       end)
  end.
Proof.
  intros [[[[|ring more]|]]|] w; cbn [highlightGeometry highlightError rings];
    try reflexivity.
  unfold addPolygon. destruct (polygonError (map swapXY ring)); reflexivity.
Qed.

(** The tail of the pipeline, world by world. *)
Lemma finishIdentify_world : forall prop usedFallback geom w,
  finishIdentify prop usedFallback geom w =
  match highlightError geom with
  | Some err => (Throw err, w)
  | None =>
      (Normal tt,
       consoleLog [CText "Raw parcel attributes:"; CAttrs (_rawAttrs prop)]
         ((if usedFallback
           then showToast "Limited data (parcel records unavailable). Showing best available info." "error"
           else showToast "Property loaded" "success")
            (openPropertyPanel
               (updatePropertyPanel prop
                  (setCurrentProperty (Some prop)
                     (match geom with
                      | Some {| rings := Some (ring :: _) |} =>
                          addTo (map swapXY ring) w
                      | _ => w
                      end))))))
  end.
Proof.
  intros prop usedFallback geom w. unfold finishIdentify.
  unfold bind at 1. rewrite highlightGeometry_result.
  destruct (highlightError geom); [reflexivity|].
  destruct usedFallback; reflexivity.
Qed.

Lemma finishIdentify_cases : forall prop usedFallback geom w,
  (highlightError geom = None
   /\ fst (finishIdentify prop usedFallback geom w) = Normal tt
   /\ currentProperty (AppState (snd (finishIdentify prop usedFallback geom w)))
      = Some prop
   /\ panel (snd (finishIdentify prop usedFallback geom w)) = Some prop
   /\ panelOpen (snd (finishIdentify prop usedFallback geom w)) = true
   /\ (forall ring more,
          geom = Some (mkGeometry (Some (ring :: more))) ->
          highlightLayer (AppState (snd (finishIdentify prop usedFallback geom w)))
          = push (highlightLayer (AppState w)) (map swapXY ring)))
  \/ (exists err,
         highlightError geom = Some err
         /\ finishIdentify prop usedFallback geom w = (Throw err, w)).
Proof.
  intros prop usedFallback geom w. rewrite finishIdentify_world.
  destruct (highlightError geom) as [err|] eqn:E.
  - right. exists err. auto.
  - left. split; [reflexivity|].
    destruct usedFallback; cbn; repeat split; intros ring more ->; reflexivity.
Qed.

(** [identifyParcelAt] by the outcome of its two strategies. *)
Lemma identifyParcelAt_stages : forall lat lng w,
  identifyParcelAt lat lng w =
  let s1 := tryIdentifyFromTaxlots lat lng (clearLayers w) in
  match fst s1 with
  | Normal (Some r) => finishIdentify (property r) false (geometry r) (snd s1)
  | other =>
      let w1 := match other with
                | Throw err =>
                    consoleWarn [CText "Taxlot identify failed:"; messageOrError err]
                                (snd s1)
                | _ => snd s1
                end in
      let s2 := tryReverseGeocode lat lng w1 in
      match fst s2 with
      | Normal (Some p) => finishIdentify p true None (snd s2)
      | Normal None => finishIdentify (buildNAProperty lat lng) true None (snd s2)
      | Throw err =>
          finishIdentify (buildNAProperty lat lng) true None
            (consoleWarn [CText "Reverse geocode fallback failed:"; messageOrError err]
                         (snd s2))
      end
  end.
Proof.
  intros lat lng w. unfold identifyParcelAt. cbv zeta.
  unfold bind at 1. unfold effect at 1.
  unfold bind at 1. unfold tryCatch at 1. unfold bind at 1.
  destruct (tryIdentifyFromTaxlots lat lng (clearLayers w)) as [[[r|]|err] w1];
    cbn [fst snd].
  - reflexivity.
  - unfold ret at 1. cbn [fst snd].
    unfold bind at 1. unfold tryCatch at 1. unfold bind at 1.
    destruct (tryReverseGeocode lat lng w1) as [[[p|]|err] w2]; reflexivity.
  - unfold bind at 1. unfold effect at 1. unfold ret at 1. cbn [fst snd].
    unfold bind at 1. unfold tryCatch at 1. unfold bind at 1.
    destruct (tryReverseGeocode lat lng _) as [[[p|]|err'] w2]; reflexivity.
Qed.

(** What [identifyParcelAt] can do: it completes with a Property selected
    and shown in the open panel, or it throws the error of the highlight
    step on the geometry of the taxlot feature (an empty [rings] array,
    or a first ring that Leaflet rejects) and selects nothing. *)
Lemma identifyParcelAt_outcome : forall lat lng w,
  (fst (identifyParcelAt lat lng w) = Normal tt
   /\ exists prop,
        currentProperty (AppState (snd (identifyParcelAt lat lng w))) = Some prop
        /\ panel (snd (identifyParcelAt lat lng w)) = Some prop
        /\ panelOpen (snd (identifyParcelAt lat lng w)) = true)
  \/ (exists err r,
         fst (identifyParcelAt lat lng w) = Throw err
         /\ fst (tryIdentifyFromTaxlots lat lng (clearLayers w)) = Normal (Some r)
         /\ highlightError (geometry r) = Some err
         /\ currentProperty (AppState (snd (identifyParcelAt lat lng w)))
            = currentProperty (AppState w)
         /\ panel (snd (identifyParcelAt lat lng w)) = panel w).
Proof.
  intros lat lng w. rewrite identifyParcelAt_stages. cbv zeta.
  destruct (tryIdentifyFromTaxlots_total lat lng (clearLayers w))
    as [[res Hres] (HA & _ & _ & HP & _)].
  rewrite Hres. destruct res as [r|].
  - destruct (finishIdentify_cases (property r) false (geometry r)
                (snd (tryIdentifyFromTaxlots lat lng (clearLayers w))))
      as [(_ & Hn & Hc & Hp & Ho & _) | (err & Herr & Hthrow)].
    + left. split; [exact Hn|]. eauto.
    + right. exists err, r. rewrite Hthrow. cbn [fst snd]. rewrite HA, HP.
      repeat split. exact Herr.
  - left.
    set (w1 := snd (tryIdentifyFromTaxlots lat lng (clearLayers w))).
    destruct (tryReverseGeocode_total lat lng w1) as [[rev Hrev] _].
    rewrite Hrev.
    destruct rev as [p|];
      match goal with
      | |- context [finishIdentify ?p ?u None ?v] =>
          destruct (finishIdentify_cases p u None v)
            as [(_ & Hn & Hc & Hp & Ho & _) | (err & Herr & _)]; [|discriminate]
      end; split; eauto.
Qed.

(** The claim's own scenario: when the taxlot sequencer returns nothing
    and reverse geocoding returns nothing, the pipeline completes with the
    bare-coordinate placeholder. *)
Lemma identifyParcelAt_placeholder : forall lat lng w,
  fst (tryIdentifyFromTaxlots lat lng (clearLayers w)) = Normal None ->
  fst (tryReverseGeocode lat lng
         (snd (tryIdentifyFromTaxlots lat lng (clearLayers w)))) = Normal None ->
  fst (identifyParcelAt lat lng w) = Normal tt
  /\ currentProperty (AppState (snd (identifyParcelAt lat lng w)))
     = Some (buildNAProperty lat lng)
  /\ panel (snd (identifyParcelAt lat lng w)) = Some (buildNAProperty lat lng)
  /\ parcelId (buildNAProperty lat lng) = VStr "N/A"
  /\ fullAddress (buildNAProperty lat lng)
     = "Coordinates: " ++ toFixed lat 6 ++ ", " ++ toFixed lng 6.
Proof.
  intros lat lng w H1 H2. rewrite identifyParcelAt_stages. cbv zeta.
  rewrite H1, H2.
  match goal with
  | |- context [finishIdentify ?p ?u None ?v] =>
      destruct (finishIdentify_cases p u None v)
        as [(_ & Hn & Hc & Hp & Ho & _) | (err & Herr & _)]; [|discriminate]
  end.
  repeat split; assumption.
Qed.

(** C6, as amended.  When the spatial query succeeds with a polygon whose
    first ring is [ring], and Leaflet accepts the vertices of [ring] with
    their axes swapped, the pipeline completes and the highlight layer
    holds one polygon, the vertices of [ring] with their two axes
    swapped: every pair [x, y] becomes [y, x], so the ring
    [[x1, y1], [x2, y2]] is highlighted as [[y1, x1], [y2, x2]]. *)
Theorem highlight_swaps_axes : forall lat lng w r ring more,
  fst (tryIdentifyFromTaxlots lat lng (clearLayers w)) = Normal (Some r) ->
  geometry r = Some (mkGeometry (Some (ring :: more))) ->
  polygonError (map swapXY ring) = None ->
  fst (identifyParcelAt lat lng w) = Normal tt
  /\ highlightLayer (AppState (snd (identifyParcelAt lat lng w)))
     = [map swapXY ring]
  /\ currentProperty (AppState (snd (identifyParcelAt lat lng w)))
     = Some (property r)
  /\ (forall pairs : list (JsVal * JsVal),
         ring = map (fun xy => [fst xy; snd xy]) pairs ->
         highlightLayer (AppState (snd (identifyParcelAt lat lng w)))
         = [map (fun xy => [snd xy; fst xy]) pairs])
  /\ (forall a b c d : JsVal,
         ring = [[a; b]; [c; d]] ->
         highlightLayer (AppState (snd (identifyParcelAt lat lng w)))
         = [[[b; a]; [d; c]]]).
Proof.
  intros lat lng w r ring more Hres Hgeom Hok.
  rewrite identifyParcelAt_stages. cbv zeta. rewrite Hres.
  destruct (tryIdentifyFromTaxlots_total lat lng (clearLayers w))
    as [_ (HA & _)].
  destruct (finishIdentify_cases (property r) false (geometry r)
              (snd (tryIdentifyFromTaxlots lat lng (clearLayers w))))
    as [(_ & Hn & Hc & Hp & Ho & Hh) | (err & Herr & _)].
  - specialize (Hh ring more Hgeom). rewrite HA in Hh. cbn in Hh.
    repeat split; try assumption.
    + intros pairs ->. rewrite Hh, map_map. reflexivity.
    + intros a b c d ->. exact Hh.
  - rewrite Hgeom in Herr. cbn in Herr. congruence.
Qed.

(* ================================================================ *)
(** ** Properties of the saved list *)

(** C7. Saving a Property whose uniqueness key already occurs in the
    saved collection is rejected: the toast reports it as already in the
    list, the application state (the saved collection included) is
    unchanged, and nothing is written to durable storage. *)
Theorem save_rejects_duplicate : forall nowMs nowIso w p,
  currentProperty (AppState w) = Some p ->
  (exists item, In item (saved (AppState w))
                /\ uniqueKey (savedProperty item) = uniqueKey p) ->
  let w' := saveCurrentProperty nowMs nowIso w in
  toasts w' = push (toasts w) ("Property already in your list", "error")
  /\ saved (AppState w') = saved (AppState w)
  /\ List.length (saved (AppState w')) = List.length (saved (AppState w))
  /\ AppState w' = AppState w
  /\ localStorage w' = localStorage w.
Proof.
  intros nowMs nowIso w p Hcur (item & Hin & Hkey) w'.
  assert (Hsaved : isCurrentSaved w = true).
  { unfold isCurrentSaved. rewrite Hcur. apply existsb_exists.
    exists item. split; [exact Hin|]. now apply String.eqb_eq. }
  unfold w', saveCurrentProperty. rewrite Hcur, Hsaved.
  simpl. repeat split; reflexivity.
Qed.

(* ================================================================ *)
(** ** Properties of the address search *)

(** One geocoder block, read off the outcome of its request. *)
Lemma searchBlock_result : forall label base query errors w,
  fst (fst (searchBlock label base query errors w))
  = yieldedCandidates (net (requests w) (proxiedUrl (searchUrl base query)) 8000%N)
  /\ requests (snd (searchBlock label base query errors w))
     = push (requests w) (proxiedUrl (searchUrl base query)).
Proof.
  intros label base query errors w.
  unfold searchBlock, attemptSearch, bind, fetchWithTimeout.
  cbn [requests consoleLog].
  destruct (net (requests w) (proxiedUrl (searchUrl base query)) 8000%N)
    as [err | res]; cbn [yieldedCandidates]; [split; reflexivity|].
  destruct (ok res); [|split; reflexivity].
  unfold resJson. destruct (body res) as [err | json]; [split; reflexivity|].
  unfold ret.
  destruct (normalizeCandidates
              (match Json.candidates json with Some cs => cs | None => [] end))
    as [[|c cs] | err]; split; reflexivity.
Qed.

(** The search never throws, whatever the network does. *)
Lemma searchAddresses_never_throws : forall query w,
  exists cands, fst (searchAddresses query w) = Normal cands.
Proof.
  intros query w. unfold searchAddresses.
  destruct (searchBlock "Esri geocoder" (ESRI_GEOCODE_URL cfg) query [] w)
    as [[[cands|] errs] w']; [eexists; reflexivity|].
  destruct (nonEmpty (OREGON_GEOCODE_URL cfg)); [|eexists; reflexivity].
  destruct (searchBlock "Oregon geocoder" (OREGON_GEOCODE_URL cfg) query errs w')
    as [[[cands'|] errs'] w'']; eexists; reflexivity.
Qed.

(** C8. For every query text, when no geocoder yields a candidate
    (its fetch throws or times out, its status is not a success, its body
    cannot be read, or it holds no candidate), [searchAddresses] returns
    the empty list and throws nothing. *)
Theorem search_exhausted_returns_empty : forall query w,
  (forall history base,
      In base [ESRI_GEOCODE_URL cfg; OREGON_GEOCODE_URL cfg] ->
      yieldedCandidates (net history (proxiedUrl (searchUrl base query)) 8000%N)
      = None) ->
  fst (searchAddresses query w) = Normal [].
Proof.
  intros query w Hnone. unfold searchAddresses.
  pose proof (searchBlock_result "Esri geocoder" (ESRI_GEOCODE_URL cfg) query [] w)
    as [H1 _].
  rewrite Hnone in H1 by (simpl; auto).
  destruct (searchBlock "Esri geocoder" (ESRI_GEOCODE_URL cfg) query [] w)
    as [[found errs] w']. cbn [fst] in H1. subst found.
  destruct (nonEmpty (OREGON_GEOCODE_URL cfg)); [|reflexivity].
  pose proof (searchBlock_result "Oregon geocoder" (OREGON_GEOCODE_URL cfg)
                query errs w') as [H2 _].
  rewrite Hnone in H2 by (simpl; auto).
  destruct (searchBlock "Oregon geocoder" (OREGON_GEOCODE_URL cfg) query errs w')
    as [[found errs'] w'']. cbn [fst] in H2. subst found.
  reflexivity.
Qed.

(* ================================================================ *)
(** ** More on the field resolver *)

Lemma getField_app : forall attrs keys keys' fallback,
  getField attrs (keys ++ keys')%list fallback
  = getField attrs keys (getField attrs keys' fallback).
Proof.
  intros attrs keys keys' fallback.
  induction keys as [|key rest IH].
  - cbn [app]. symmetry. apply orDefault_defined, getField_defined.
  - cbn [app]. rewrite !getField_cons, IH. reflexivity.
Qed.

(** X1. Candidate lists chain: resolving over [keys ++ keys'] is
    resolving over [keys] with the result over [keys'] as the fallback.
    The tax lot of a normalized Property is thus the first resolving name
    among the tax-lot candidates followed by the parcel-id candidates. *)
Theorem getField_chains :
  (forall attrs keys keys' fallback,
      getField attrs (keys ++ keys')%list fallback
      = getField attrs keys (getField attrs keys' fallback))
  /\ (forall attrs,
         taxLot (normalizeParcel attrs)
         = getField attrs (FIELD_MAP.taxLot ++ FIELD_MAP.parcelId)%list
             (VStr "N/A")).
Proof.
  split; [exact getField_app|].
  intros attrs. rewrite getField_app. reflexivity.
Qed.

(** X2. A candidate that names no member of [Object.prototype] and equals
    an earlier candidate of the list up to case never decides the result:
    dropping it changes nothing. *)
Theorem getField_case_duplicate_is_dead :
  forall attrs before k middle k' after fallback,
    inheritedName k' = false ->
    toLowerCase k' = toLowerCase k ->
    getField attrs (before ++ k :: middle ++ k' :: after)%list fallback
    = getField attrs (before ++ k :: middle ++ after)%list fallback.
Proof.
  intros attrs before k middle k' after fallback Hown Hcase.
  rewrite !getField_app. f_equal.
  rewrite !(getField_cons attrs k).
  destruct (present (getProp attrs k)); [reflexivity|].
  destruct (scanKeys attrs (toLowerCase k) (objectKeys attrs)) eqn:S;
    [reflexivity|].
  rewrite !getField_app. f_equal.
  rewrite getField_cons, Hcase, S.
  destruct (present (getProp attrs k')) eqn:P; [|reflexivity].
  rewrite (scanKeys_none _ _ _ S k' (getProp_present_in _ _ Hown P) Hcase) in P.
  discriminate.
Qed.

(** X29. Whatever the bag, the candidates and the fallback, [getField]
    never returns [undefined]: its result is a value that is neither
    [null], [undefined] nor the empty string, or else the fallback, with
    [null] in the place of an [undefined] one. *)
Theorem getField_is_never_undefined : forall attrs keys fallback,
  getField attrs keys fallback <> VUndefined
  /\ (present (getField attrs keys fallback) = true
      \/ getField attrs keys fallback = orDefault fallback).
Proof.
  intros attrs keys fallback. split; [apply getField_defined|].
  induction keys as [|key rest IH]; [right; reflexivity|].
  rewrite getField_cons.
  destruct (present (getProp attrs key)) eqn:P; [left; exact P|].
  destruct (scanKeys attrs (toLowerCase key) (objectKeys attrs)) eqn:S;
    [|exact IH].
  destruct (scanKeys_some _ _ _ _ S) as (a & _ & _ & _ & Hp). left. exact Hp.
Qed.

(** X30. A candidate that names a member of [Object.prototype] resolves
    to that member in every bag that does not hold the name, whatever
    follows it in the list and whatever the fallback: the lookup
    [attrs[key]] goes through the prototype of the bag.  A bag that holds
    a present value under the name gives that value. *)
Theorem getField_finds_inherited_members : forall attrs key rest fallback,
  inheritedName key = true ->
  (~ In key (objectKeys attrs) ->
   getField attrs (key :: rest) fallback = VObject key)
  /\ (present (getProp attrs key) = true ->
      getField attrs (key :: rest) fallback = getProp attrs key).
Proof.
  intros attrs key rest fallback Hname. split.
  - now apply getField_inherited.
  - intros P. rewrite getField_cons, P. reflexivity.
Qed.

Lemma lowerChar_idempotent : forall c, lowerChar (lowerChar c) = lowerChar c.
Proof.
  intros c. destruct c as [[] [] [] [] [] [] [] []]; reflexivity.
Qed.

Lemma isAsciiChar_lowerChar : forall c, isAsciiChar (lowerChar c) = isAsciiChar c.
Proof.
  intros c. destruct c as [[] [] [] [] [] [] [] []]; reflexivity.
Qed.

Lemma asciiLower_idempotent : forall s, asciiLower (asciiLower s) = asciiLower s.
Proof.
  induction s as [|c s IH]; simpl; [reflexivity|].
  now rewrite lowerChar_idempotent, IH.
Qed.

Lemma asciiLower_append : forall s t,
  asciiLower (s ++ t) = asciiLower s ++ asciiLower t.
Proof.
  induction s as [|c s IH]; intros t; simpl; [reflexivity|].
  now rewrite IH.
Qed.

Lemma isAscii_asciiLower : forall s, isAscii (asciiLower s) = isAscii s.
Proof.
  induction s as [|c s IH]; simpl; [reflexivity|].
  now rewrite isAsciiChar_lowerChar, IH.
Qed.

Lemma isAscii_append : forall s t, isAscii (s ++ t) = isAscii s && isAscii t.
Proof.
  induction s as [|c s IH]; intros t; simpl; [reflexivity|].
  now rewrite IH, andb_assoc.
Qed.

(** On ASCII text lower-casing is idempotent and goes through
    concatenation, which it does not on every text: the fold of a letter
    may depend on what follows it. *)
Lemma toLowerCase_idempotent : forall s,
  isAscii s = true -> toLowerCase (toLowerCase s) = toLowerCase s.
Proof.
  intros s H. unfold toLowerCase.
  rewrite H, isAscii_asciiLower, H. apply asciiLower_idempotent.
Qed.

Lemma toLowerCase_append : forall s t,
  isAscii s = true -> isAscii t = true ->
  toLowerCase (s ++ t) = toLowerCase s ++ toLowerCase t.
Proof.
  intros s t Hs Ht. unfold toLowerCase.
  rewrite isAscii_append, Hs, Ht. apply asciiLower_append.
Qed.

(** X3. On ASCII text the uniqueness key ignores letter case: when the
    parcel id, the address and the owner of two bags print in ASCII and
    read the same up to case, the two bags get the same key; and the key
    of such a bag is its own lower-case form. *)
Theorem uniqueKey_ignores_case : forall attrs attrs',
  forallb isAscii (keyParts (normalizeParcel attrs)) = true ->
  forallb isAscii (keyParts (normalizeParcel attrs')) = true ->
  map toLowerCase (keyParts (normalizeParcel attrs))
  = map toLowerCase (keyParts (normalizeParcel attrs')) ->
  uniqueKey (normalizeParcel attrs) = uniqueKey (normalizeParcel attrs')
  /\ toLowerCase (uniqueKey (normalizeParcel attrs)) = uniqueKey (normalizeParcel attrs).
Proof.
  intros attrs attrs' Hascii Hascii' Hsame.
  assert (Hkey : forall a,
             forallb isAscii (keyParts (normalizeParcel a)) = true ->
             isAscii (toStr (parcelId (normalizeParcel a)) ++ "|"
                      ++ toStr (situs (normalizeParcel a)) ++ "|"
                      ++ toStr (owner (normalizeParcel a))) = true
             /\ uniqueKey (normalizeParcel a)
                = toLowerCase (toStr (parcelId (normalizeParcel a))) ++ "|"
                  ++ toLowerCase (toStr (situs (normalizeParcel a))) ++ "|"
                  ++ toLowerCase (toStr (owner (normalizeParcel a)))).
  { intros a Ha. unfold keyParts in Ha. cbn [forallb] in Ha.
    apply andb_true_iff in Ha as [Hp Ha]. apply andb_true_iff in Ha as [Hs Ha].
    apply andb_true_iff in Ha as [Ho _].
    assert (Hbar : isAscii "|" = true) by reflexivity.
    split.
    - rewrite !isAscii_append, Hp, Hs, Ho. reflexivity.
    - change (uniqueKey (normalizeParcel a))
        with (toLowerCase (toStr (parcelId (normalizeParcel a)) ++ "|"
                           ++ toStr (situs (normalizeParcel a)) ++ "|"
                           ++ toStr (owner (normalizeParcel a)))).
      rewrite !toLowerCase_append;
        rewrite ?isAscii_append, ?Hp, ?Hs, ?Ho; reflexivity. }
  destruct (Hkey attrs Hascii) as [Hall Hk].
  destruct (Hkey attrs' Hascii') as [_ Hk'].
  split.
  - pose proof (f_equal (fun l => nth 0 l "") Hsame) as Hp.
    pose proof (f_equal (fun l => nth 1 l "") Hsame) as Hs.
    pose proof (f_equal (fun l => nth 2 l "") Hsame) as Ho.
    cbn [nth map keyParts] in Hp, Hs, Ho.
    rewrite Hk, Hk', Hp, Hs, Ho. reflexivity.
  - change (uniqueKey (normalizeParcel attrs))
      with (toLowerCase (toStr (parcelId (normalizeParcel attrs)) ++ "|"
                         ++ toStr (situs (normalizeParcel attrs)) ++ "|"
                         ++ toStr (owner (normalizeParcel attrs)))).
    now apply toLowerCase_idempotent.
Qed.

(* ================================================================ *)
(** ** More on the sequencers *)

Lemma console_afterAttempt : forall lat lng endpoint w entry,
  In entry (console (afterAttempt lat lng endpoint w)) ->
  fst entry = LevelWarn -> In entry (console w).
Proof.
  intros lat lng endpoint w entry Hin Hwarn.
  unfold afterAttempt in Hin. cbn in Hin. unfold push in Hin.
  apply in_app_or in Hin as [Hin | [<- | []]].
  - apply in_app_or in Hin as [Hin | [<- | []]]; [exact Hin | discriminate].
  - discriminate.
Qed.

(** The loop up to the first endpoint that offers a feature. *)
Lemma taxlotLoop_first_success : forall lat lng failing endpoint rest feat errors w,
  (forall history e,
      In e failing ->
      usableFeature (net history (proxiedUrl (taxlotUrl lat lng e)) 8000%N) = None) ->
  usableFeature
    (net (requests w
          ++ map (fun e => proxiedUrl (taxlotUrl lat lng e)) failing)%list
         (proxiedUrl (taxlotUrl lat lng endpoint)) 8000%N) = Some feat ->
  let run := taxlotLoop lat lng (failing ++ endpoint :: rest)%list errors w in
  fst (fst run)
  = Some {| property := normalizeParcel (featureAttrs feat);
            geometry := Feature.geometry feat |}
  /\ requests (snd run)
     = (requests w
        ++ map (fun e => proxiedUrl (taxlotUrl lat lng e)) failing
        ++ [proxiedUrl (taxlotUrl lat lng endpoint)])%list
  /\ (forall entry, In entry (console (snd run)) ->
                    fst entry = LevelWarn -> In entry (console w)).
Proof.
  intros lat lng failing.
  induction failing as [|e failing IH];
    intros endpoint rest feat errors w Hfail Hok run; unfold run; clear run.
  - cbn [app map] in *. rewrite app_nil_r in Hok.
    rewrite taxlotLoop_step. cbv zeta. rewrite Hok. cbn [fst snd].
    split; [reflexivity|]. split; [reflexivity|].
    apply console_afterAttempt.
  - cbn [app map] in *.
    rewrite taxlotLoop_step. cbv zeta.
    rewrite (Hfail (requests w) e (or_introl eq_refl)).
    match goal with
    | |- context [taxlotLoop lat lng _ ?errs ?v] =>
        destruct (IH endpoint rest feat errs v) as (H1 & H2 & H3)
    end.
    + intros history x Hx. apply Hfail. now right.
    + rewrite requests_afterAttempt. unfold push.
      rewrite <- app_assoc. exact Hok.
    + split; [exact H1|]. split.
      * rewrite H2, requests_afterAttempt. unfold push.
        rewrite <- app_assoc. reflexivity.
      * intros entry Hin Hwarn.
        apply (console_afterAttempt lat lng e w entry); auto.
Qed.

(** X4. First success wins, wherever it stands in the list: after any
    number of failing endpoints, the first endpoint that offers a feature
    supplies the result, one request was issued to each endpoint up to it
    and none beyond, and the reasons collected on the way are dropped
    without a warning on the console. *)
Theorem sequencer_first_success : forall lat lng failing endpoint rest feat w,
  TAXLOT_ENDPOINTS cfg = (failing ++ endpoint :: rest)%list ->
  (forall history e,
      In e failing ->
      usableFeature (net history (proxiedUrl (taxlotUrl lat lng e)) 8000%N) = None) ->
  usableFeature
    (net (requests w
          ++ map (fun e => proxiedUrl (taxlotUrl lat lng e)) failing)%list
         (proxiedUrl (taxlotUrl lat lng endpoint)) 8000%N) = Some feat ->
  fst (tryIdentifyFromTaxlots lat lng w)
  = Normal (Some {| property := normalizeParcel (featureAttrs feat);
                    geometry := Feature.geometry feat |})
  /\ requests (snd (tryIdentifyFromTaxlots lat lng w))
     = (requests w
        ++ map (fun e => proxiedUrl (taxlotUrl lat lng e)) failing
        ++ [proxiedUrl (taxlotUrl lat lng endpoint)])%list
  /\ (forall entry,
         In entry (console (snd (tryIdentifyFromTaxlots lat lng w))) ->
         fst entry = LevelWarn -> In entry (console w)).
Proof.
  intros lat lng failing endpoint rest feat w Hcfg Hfail Hok.
  pose proof (taxlotLoop_first_success lat lng failing endpoint rest feat [] w
                Hfail Hok) as H.
  cbv zeta in H. unfold tryIdentifyFromTaxlots. rewrite Hcfg.
  destruct (taxlotLoop lat lng (failing ++ endpoint :: rest) [] w)
    as [[r errs] w'].
  cbn [fst snd] in H. destruct H as (H1 & H2 & H3). subst r.
  cbn [fst snd]. auto.
Qed.

Lemma taxlotLoop_requests_prefix : forall lat lng endpoints errors w,
  exists k,
    k <= List.length endpoints
    /\ requests (snd (taxlotLoop lat lng endpoints errors w))
       = (requests w
          ++ map (fun e => proxiedUrl (taxlotUrl lat lng e))
                 (firstn k endpoints))%list.
Proof.
  intros lat lng endpoints.
  induction endpoints as [|e rest IH]; intros errors w.
  - exists 0. cbn. split; [lia | now rewrite app_nil_r].
  - rewrite taxlotLoop_step. cbv zeta.
    destruct (usableFeature _).
    + exists 1. cbn [snd firstn map List.length].
      split; [lia|]. rewrite requests_afterAttempt. reflexivity.
    + match goal with
      | |- context [taxlotLoop lat lng rest ?errs ?v] =>
          destruct (IH errs v) as (k & Hk & Hreq)
      end.
      exists (S k). cbn [firstn map List.length]. split; [lia|].
      rewrite Hreq, requests_afterAttempt. unfold push.
      rewrite <- app_assoc. reflexivity.
Qed.

Lemma sequencer_requests_prefix : forall lat lng w,
  exists k,
    k <= List.length (TAXLOT_ENDPOINTS cfg)
    /\ requests (snd (tryIdentifyFromTaxlots lat lng w))
       = (requests w
          ++ map (fun e => proxiedUrl (taxlotUrl lat lng e))
                 (firstn k (TAXLOT_ENDPOINTS cfg)))%list.
Proof.
  intros lat lng w.
  destruct (taxlotLoop_requests_prefix lat lng (TAXLOT_ENDPOINTS cfg) [] w)
    as (k & Hk & Hreq).
  exists k. split; [exact Hk|].
  unfold tryIdentifyFromTaxlots.
  destruct (taxlotLoop lat lng (TAXLOT_ENDPOINTS cfg) [] w) as [[[r|] errs] w'];
    cbn [snd] in *; [exact Hreq|].
  destruct errs; exact Hreq.
Qed.

(** X5. Whatever the network does, the taxlot sequencer attempts the
    endpoints in list order, each at most once: the requests it issues are
    those of a prefix of the endpoint list. *)
Theorem sequencer_requests_are_a_prefix : forall lat lng w,
  exists k,
    k <= List.length (TAXLOT_ENDPOINTS cfg)
    /\ requests (snd (tryIdentifyFromTaxlots lat lng w))
       = (requests w
          ++ map (fun e => proxiedUrl (taxlotUrl lat lng e))
                 (firstn k (TAXLOT_ENDPOINTS cfg)))%list.
Proof. exact sequencer_requests_prefix. Qed.

(** One reverse-geocoder block, read off the outcome of its request. *)
Lemma reverseBlock_result : forall label base lat lng errors w,
  fst (fst (reverseBlock label base lat lng errors w))
  = option_map (buildReverseGeocodeProperty lat lng)
      (offeredAddress
         (net (requests w) (proxiedUrl (reverseUrl lat lng base)) 7000%N))
  /\ requests (snd (reverseBlock label base lat lng errors w))
     = push (requests w) (proxiedUrl (reverseUrl lat lng base)).
Proof.
  intros label base lat lng errors w.
  unfold reverseBlock, attemptReverse, bind, fetchWithTimeout.
  cbn [requests consoleLog]. fold (reverseUrl lat lng base).
  destruct (net (requests w) (proxiedUrl (reverseUrl lat lng base)) 7000%N)
    as [err | res]; cbn [offeredAddress option_map]; [split; reflexivity|].
  destruct (ok res); [|split; reflexivity].
  unfold resJson. destruct (body res) as [err | json]; [split; reflexivity|].
  unfold ret. destruct (Json.address json); split; reflexivity.
Qed.

(** X6. Reverse geocoding stops at the first geocoder that offers an
    address: when the Esri response carries one, the placeholder is built
    from it after a single request, and the Oregon geocoder is not
    consulted even if it is configured. *)
Theorem reverse_geocode_esri_first : forall lat lng addr w,
  offeredAddress
    (net (requests w) (proxiedUrl (reverseUrl lat lng (ESRI_GEOCODE_URL cfg)))
         7000%N) = Some addr ->
  fst (tryReverseGeocode lat lng w)
  = Normal (Some (buildReverseGeocodeProperty lat lng addr))
  /\ requests (snd (tryReverseGeocode lat lng w))
     = push (requests w) (proxiedUrl (reverseUrl lat lng (ESRI_GEOCODE_URL cfg)))
  /\ console (snd (tryReverseGeocode lat lng w))
     = push (console w)
         (LevelLog,
          [CText "FETCH:";
           CText (proxiedUrl (reverseUrl lat lng (ESRI_GEOCODE_URL cfg)))]).
Proof.
  intros lat lng addr w Haddr.
  unfold tryReverseGeocode.
  pose proof (reverseBlock_result "Esri reverse" (ESRI_GEOCODE_URL cfg)
                lat lng [] w) as [Hres Hreq].
  rewrite Haddr in Hres. cbn [option_map] in Hres.
  assert (Hcon : console (snd (reverseBlock "Esri reverse" (ESRI_GEOCODE_URL cfg)
                                 lat lng [] w))
                 = push (console w)
                     (LevelLog,
                      [CText "FETCH:";
                       CText (proxiedUrl
                                (reverseUrl lat lng (ESRI_GEOCODE_URL cfg)))])).
  { unfold reverseBlock.
    pose proof (fetchWithTimeout_world
                  (reverseUrl lat lng (ESRI_GEOCODE_URL cfg)) 7000%N w) as Hw.
    unfold attemptReverse, bind. fold (reverseUrl lat lng (ESRI_GEOCODE_URL cfg)).
    destruct (fetchWithTimeout (reverseUrl lat lng (ESRI_GEOCODE_URL cfg)) 7000 w)
      as [[res|err] w']; cbn [snd] in Hw; subst w'; [|reflexivity].
    destruct (ok res); [|reflexivity].
    unfold resJson. destruct (body res) as [err|json]; [reflexivity|].
    unfold ret. destruct (Json.address json); reflexivity. }
  destruct (reverseBlock "Esri reverse" (ESRI_GEOCODE_URL cfg) lat lng [] w)
    as [[found errs] w']. cbn [fst snd] in *. subst found.
  auto.
Qed.

Lemma tryReverseGeocode_result : forall lat lng w,
  (exists result,
      fst (tryReverseGeocode lat lng w) = Normal result
      /\ forall prop,
           result = Some prop ->
           parcelId prop = VStr "N/A"
           /\ owner prop = VStr "Owner not available"
           /\ lotSizeLabel prop = "N/A"
           /\ assessed prop = VNull
           /\ _rawAttrs prop = [])
  /\ (List.length (requests (snd (tryReverseGeocode lat lng w)))
      = List.length (requests w) + 1
      \/ (nonEmpty (OREGON_GEOCODE_URL cfg) = true
          /\ List.length (requests (snd (tryReverseGeocode lat lng w)))
             = List.length (requests w) + 2)).
Proof.
  intros lat lng w. unfold tryReverseGeocode.
  pose proof (reverseBlock_result "Esri reverse" (ESRI_GEOCODE_URL cfg)
                lat lng [] w) as [Hres Hreq].
  destruct (reverseBlock "Esri reverse" (ESRI_GEOCODE_URL cfg) lat lng [] w)
    as [[found errs] w']. cbn [fst snd] in *.
  assert (Hlen : List.length (requests w') = List.length (requests w) + 1).
  { rewrite Hreq. unfold push. rewrite length_app. reflexivity. }
  destruct found as [prop|].
  - cbn [fst snd]. split; [|left; exact Hlen].
    exists (Some prop). split; [reflexivity|].
    intros p Hp. inversion Hp; subst p.
    destruct (offeredAddress _); [|discriminate].
    cbn [option_map] in Hres. inversion Hres. repeat split.
  - destruct (nonEmpty (OREGON_GEOCODE_URL cfg)) eqn:Eor.
    + pose proof (reverseBlock_result "Oregon reverse" (OREGON_GEOCODE_URL cfg)
                    lat lng errs w') as [Hres2 Hreq2].
      destruct (reverseBlock "Oregon reverse" (OREGON_GEOCODE_URL cfg)
                  lat lng errs w') as [[found2 errs2] w''].
      cbn [fst snd] in *.
      assert (Hlen2 : List.length (requests w'') = List.length (requests w) + 2).
      { rewrite Hreq2. unfold push. rewrite length_app, Hlen. cbn. lia. }
      destruct found2 as [prop|]; cbn [fst snd]; (split; [|right; auto]).
      * exists (Some prop). split; [reflexivity|].
        intros p Hp. inversion Hp; subst p. clear Hres.
        destruct (offeredAddress _); [|discriminate].
        cbn [option_map] in Hres2. inversion Hres2. repeat split.
      * exists None. split; [reflexivity|]. intros p Hp. discriminate.
    + cbn [fst snd]. split; [|left; exact Hlen].
      exists None. split; [reflexivity|]. intros p Hp. discriminate.
Qed.

(** X7. Reverse geocoding never throws, issues one request, or two when
    the Oregon geocoder is configured and Esri offered no address, and
    whatever Property it returns is a placeholder without parcel data. *)
Theorem reverse_geocode_is_bounded : forall lat lng w,
  (exists result,
      fst (tryReverseGeocode lat lng w) = Normal result
      /\ forall prop,
           result = Some prop ->
           parcelId prop = VStr "N/A"
           /\ owner prop = VStr "Owner not available"
           /\ lotSizeLabel prop = "N/A"
           /\ assessed prop = VNull
           /\ _rawAttrs prop = [])
  /\ (List.length (requests (snd (tryReverseGeocode lat lng w)))
      = List.length (requests w) + 1
      \/ (nonEmpty (OREGON_GEOCODE_URL cfg) = true
          /\ List.length (requests (snd (tryReverseGeocode lat lng w)))
             = List.length (requests w) + 2)).
Proof. exact tryReverseGeocode_result. Qed.

(** X8. [normalizeCandidates] keeps the candidates in order, copying the
    address and the score and turning the location [x, y] into
    [lat = y, lng = x]; it throws, and yields no candidate at all, as soon
    as one candidate has no location. *)
Theorem normalizeCandidates_shape : forall cands,
  match normalizeCandidates cands with
  | Normal out =>
      Forall2 (fun c o =>
                 exists x y,
                   Candidate.location c = Some (x, y)
                   /\ o = {| address := Candidate.address c;
                             score := Candidate.score c;
                             location := (y, x) |})
              cands out
  | Throw err =>
      err = typeErrorReading "y"
      /\ exists c, In c cands /\ Candidate.location c = None
  end.
Proof.
  induction cands as [|c rest IH]; cbn [normalizeCandidates].
  - constructor.
  - destruct (Candidate.location c) as [[x y]|] eqn:Eloc.
    + destruct (normalizeCandidates rest) as [out|err].
      * constructor; [|exact IH]. exists x, y. auto.
      * destruct IH as (Herr & c' & Hin & Hnone).
        split; [exact Herr|]. exists c'. split; [now right | exact Hnone].
    + split; [reflexivity|]. exists c. split; [now left | exact Eloc].
Qed.

(** X9. The address search stops at the first geocoder that yields
    candidates: when Esri yields some, they are returned after a single
    request. *)
Theorem search_esri_first : forall query cands w,
  yieldedCandidates
    (net (requests w) (proxiedUrl (searchUrl (ESRI_GEOCODE_URL cfg) query)) 8000%N)
  = Some cands ->
  fst (searchAddresses query w) = Normal cands
  /\ cands <> []
  /\ requests (snd (searchAddresses query w))
     = push (requests w) (proxiedUrl (searchUrl (ESRI_GEOCODE_URL cfg) query)).
Proof.
  intros query cands w Hy. unfold searchAddresses.
  pose proof (searchBlock_result "Esri geocoder" (ESRI_GEOCODE_URL cfg) query [] w)
    as [Hres Hreq].
  rewrite Hy in Hres.
  destruct (searchBlock "Esri geocoder" (ESRI_GEOCODE_URL cfg) query [] w)
    as [[found errs] w']. cbn [fst snd] in *. subst found.
  split; [reflexivity|]. split; [|exact Hreq].
  intros ->. unfold yieldedCandidates in Hy.
  destruct (net _ _ _) as [err|res]; [discriminate|].
  destruct (ok res); [|discriminate].
  destruct (body res) as [err|json]; [discriminate|].
  destruct (normalizeCandidates _) as [[|c cs]|err]; discriminate.
Qed.

(* ================================================================ *)
(** ** More on the identify pipeline *)

(** The pipeline is its tail, run on the Property, the flag and the
    geometry the two strategies settle, in a world they only logged to. *)
Lemma identifyParcelAt_finish : forall lat lng w,
  exists prop usedFallback geom wf,
    identifyParcelAt lat lng w = finishIdentify prop usedFallback geom wf
    /\ onlyLogged (clearLayers w) wf
    /\ match fst (tryIdentifyFromTaxlots lat lng (clearLayers w)) with
       | Normal (Some r) =>
           prop = property r /\ usedFallback = false /\ geom = geometry r
           /\ wf = snd (tryIdentifyFromTaxlots lat lng (clearLayers w))
       | _ => usedFallback = true /\ geom = None
       end.
Proof.
  intros lat lng w. rewrite identifyParcelAt_stages. cbv zeta.
  destruct (tryIdentifyFromTaxlots_total lat lng (clearLayers w)) as [_ Hf1].
  destruct (fst (tryIdentifyFromTaxlots lat lng (clearLayers w))) as [[r|]|err].
  - exists (property r), false, (geometry r),
      (snd (tryIdentifyFromTaxlots lat lng (clearLayers w))).
    split; [reflexivity|]. split; [exact Hf1|]. repeat split.
  - set (w1 := snd (tryIdentifyFromTaxlots lat lng (clearLayers w))) in *.
    destruct (tryReverseGeocode_total lat lng w1) as [_ Hf2].
    pose proof (onlyLogged_trans _ _ _ Hf1 Hf2) as Hf.
    destruct (fst (tryReverseGeocode lat lng w1)) as [[p|]|err];
      eexists _, true, None, _; (split; [reflexivity|]); (split; [|auto]);
      first [ exact Hf
            | eapply onlyLogged_trans; [exact Hf | apply onlyLogged_consoleWarn] ].
  - set (w1 := consoleWarn _ _) in *.
    assert (Hf1' : onlyLogged (clearLayers w) w1)
      by (eapply onlyLogged_trans; [exact Hf1 | apply onlyLogged_consoleWarn]).
    destruct (tryReverseGeocode_total lat lng w1) as [_ Hf2].
    pose proof (onlyLogged_trans _ _ _ Hf1' Hf2) as Hf.
    destruct (fst (tryReverseGeocode lat lng w1)) as [[p|]|err'];
      eexists _, true, None, _; (split; [reflexivity|]); (split; [|auto]);
      first [ exact Hf
            | eapply onlyLogged_trans; [exact Hf | apply onlyLogged_consoleWarn] ].
Qed.

(** X10. The toast tells where the data came from: a completed identify
    shows exactly one toast, the success toast when the taxlot sequencer
    returned a parcel and the limited-data error toast otherwise; an
    identify that throws shows none. *)
Theorem identify_toast_tells_the_source : forall lat lng w,
  match fst (identifyParcelAt lat lng w) with
  | Normal _ =>
      toasts (snd (identifyParcelAt lat lng w))
      = push (toasts w)
          (match fst (tryIdentifyFromTaxlots lat lng (clearLayers w)) with
           | Normal (Some _) => ("Property loaded", "success")
           | _ => ("Limited data (parcel records unavailable). Showing best available info.",
                   "error")
           end)
  | Throw _ => toasts (snd (identifyParcelAt lat lng w)) = toasts w
  end.
Proof.
  intros lat lng w.
  destruct (identifyParcelAt_finish lat lng w)
    as (prop & used & geom & wf & Hrun & (_ & Ht & _) & Hsrc).
  rewrite Hrun, finishIdentify_world.
  assert (Htoast : toasts wf = toasts w) by (rewrite Ht; reflexivity).
  destruct (fst (tryIdentifyFromTaxlots lat lng (clearLayers w))) as [[r|]|err].
  - destruct Hsrc as (_ & -> & _ & _).
    destruct (highlightError geom); [exact Htoast|].
    destruct geom as [[[[|ring more]|]]|]; cbn; now rewrite Htoast.
  - destruct Hsrc as (-> & ->). cbn. now rewrite Htoast.
  - destruct Hsrc as (-> & ->). cbn. now rewrite Htoast.
Qed.

(** X11. A completed identify leaves at most one polygon on the highlight
    layer: the first ring of the taxlot geometry, axes swapped, when the
    taxlot sequencer returned one, and nothing otherwise.  Whatever was
    highlighted before is gone, also when the identify throws. *)
Theorem identify_replaces_the_highlight : forall lat lng w,
  highlightLayer (AppState (snd (identifyParcelAt lat lng w)))
  = match fst (identifyParcelAt lat lng w),
          fst (tryIdentifyFromTaxlots lat lng (clearLayers w)) with
    | Normal _, Normal (Some r) =>
        match geometry r with
        | Some {| rings := Some (ring :: _) |} => [map swapXY ring]
        | _ => []
        end
    | _, _ => []
    end.
Proof.
  intros lat lng w.
  destruct (identifyParcelAt_finish lat lng w)
    as (prop & used & geom & wf & Hrun & (Ha & _) & Hsrc).
  rewrite Hrun, finishIdentify_world.
  assert (Hh : highlightLayer (AppState wf) = []) by (rewrite Ha; reflexivity).
  destruct (fst (tryIdentifyFromTaxlots lat lng (clearLayers w))) as [[r|]|err].
  - destruct Hsrc as (_ & -> & -> & _).
    destruct (geometry r) as [[[[|ring more]|]]|]; cbn [highlightError rings];
      try (cbn; rewrite ?Hh; reflexivity).
    destruct (polygonError (map swapXY ring)); cbn; rewrite ?Hh; reflexivity.
  - destruct Hsrc as (-> & ->). cbn. exact Hh.
  - destruct Hsrc as (-> & ->). cbn. exact Hh.
Qed.

(** X12. Identifying a parcel never touches the saved list, its filtered
    view or durable storage, whether it completes or throws. *)
Theorem identify_keeps_the_saved_list : forall lat lng w,
  saved (AppState (snd (identifyParcelAt lat lng w))) = saved (AppState w)
  /\ filteredSaved (AppState (snd (identifyParcelAt lat lng w)))
     = filteredSaved (AppState w)
  /\ localStorage (snd (identifyParcelAt lat lng w)) = localStorage w.
Proof.
  intros lat lng w.
  destruct (identifyParcelAt_finish lat lng w)
    as (prop & used & geom & wf & Hrun & (Ha & _ & Hl & _) & _).
  rewrite Hrun, finishIdentify_world.
  destruct (highlightError geom);
    [cbn; rewrite ?Ha, ?Hl; repeat split; reflexivity|].
  destruct geom as [[[[|ring more]|]]|]; destruct used; cbn;
    rewrite ?Ha, ?Hl; repeat split; reflexivity.
Qed.

(** X13. When the taxlot sequencer returns a parcel, reverse geocoding is
    not attempted: the pipeline issues the requests of the sequencer, to
    a prefix of the taxlot endpoints, and no other. *)
Theorem identify_skips_reverse_geocode_on_success : forall lat lng w r,
  fst (tryIdentifyFromTaxlots lat lng (clearLayers w)) = Normal (Some r) ->
  requests (snd (identifyParcelAt lat lng w))
  = requests (snd (tryIdentifyFromTaxlots lat lng (clearLayers w)))
  /\ exists k,
       k <= List.length (TAXLOT_ENDPOINTS cfg)
       /\ requests (snd (identifyParcelAt lat lng w))
          = (requests w
             ++ map (fun e => proxiedUrl (taxlotUrl lat lng e))
                    (firstn k (TAXLOT_ENDPOINTS cfg)))%list.
Proof.
  intros lat lng w r Hres.
  destruct (identifyParcelAt_finish lat lng w)
    as (prop & used & geom & wf & Hrun & _ & Hsrc).
  rewrite Hres in Hsrc. destruct Hsrc as (_ & _ & _ & ->).
  assert (Hreq : requests (snd (identifyParcelAt lat lng w))
                 = requests (snd (tryIdentifyFromTaxlots lat lng (clearLayers w)))).
  { rewrite Hrun, finishIdentify_world.
    destruct (highlightError geom); [reflexivity|].
    destruct geom as [[[[|ring more]|]]|]; destruct used; reflexivity. }
  split; [exact Hreq|].
  destruct (sequencer_requests_prefix lat lng (clearLayers w)) as (k & Hk & Hpre).
  exists k. split; [exact Hk|]. rewrite Hreq, Hpre. reflexivity.
Qed.

(** X14. An identify that does not get its Property from a taxlot
    endpoint always completes, and [openRLID] then opens the home page of
    the registry: a placeholder never leads to a parcel query. *)
Theorem fallback_property_opens_the_home_page : forall lat lng w,
  (forall r, fst (tryIdentifyFromTaxlots lat lng (clearLayers w))
             <> Normal (Some r)) ->
  fst (identifyParcelAt lat lng w) = Normal tt
  /\ openRLID (snd (identifyParcelAt lat lng w)) = "https://www.rlid.org".
Proof.
  intros lat lng w Hfallback.
  assert (Hpid : exists prop wf,
             identifyParcelAt lat lng w = finishIdentify prop true None wf
             /\ parcelId prop = VStr "N/A").
  { rewrite identifyParcelAt_stages. cbv zeta.
    destruct (fst (tryIdentifyFromTaxlots lat lng (clearLayers w)))
      as [[r|]|err] eqn:E1.
    - exfalso. exact (Hfallback r eq_refl).
    - match goal with
      | |- context [tryReverseGeocode lat lng ?v] =>
          destruct (tryReverseGeocode_result lat lng v)
            as [(res & Hres & Hplace) _]; rewrite Hres
      end.
      destruct res as [p|]; eexists _, _; (split; [reflexivity|]).
      + exact (proj1 (Hplace p eq_refl)).
      + reflexivity.
    - match goal with
      | |- context [tryReverseGeocode lat lng ?v] =>
          destruct (tryReverseGeocode_result lat lng v)
            as [(res & Hres & Hplace) _]; rewrite Hres
      end.
      destruct res as [p|]; eexists _, _; (split; [reflexivity|]).
      + exact (proj1 (Hplace p eq_refl)).
      + reflexivity. }
  destruct Hpid as (prop & wf & Hrun & Hpid).
  rewrite Hrun, finishIdentify_world. split; [reflexivity|].
  unfold openRLID. cbn. rewrite Hpid. reflexivity.
Qed.

(* ================================================================ *)
(** ** The proxied URL *)

Lemma percentDecode_char : forall c rest,
  percentDecode
    ((if isAlnum c || oneOf "-_.!~*'()" c then String c "" else percentByte c)
     ++ rest)
  = String c (percentDecode rest).
Proof.
  intros c rest.
  destruct c as [[] [] [] [] [] [] [] []]; reflexivity.
Qed.

Lemma percentDecode_encode : forall s, percentDecode (encodeURIComponent s) = s.
Proof.
  induction s as [|c s IH]; [reflexivity|].
  cbn [encodeURIComponent]. rewrite percentDecode_char, IH. reflexivity.
Qed.

Lemma encodeURIComponent_injective : forall s t,
  encodeURIComponent s = encodeURIComponent t -> s = t.
Proof.
  intros s t H. apply (f_equal percentDecode) in H.
  now rewrite !percentDecode_encode in H.
Qed.

Lemma append_cancel_l : forall p s t : string, p ++ s = p ++ t -> s = t.
Proof.
  induction p as [|c p IH]; intros s t H; [exact H|].
  simpl in H. inversion H. auto.
Qed.

Lemma append_cancel_r : forall s s' t : string, s ++ t = s' ++ t -> s = s'.
Proof.
  induction s as [|c s IH]; intros s' t H.
  - destruct s' as [|c' s']; [reflexivity|].
    apply (f_equal String.length) in H.
    rewrite !length_append in H. simpl in H. lia.
  - destruct s' as [|c' s'].
    + apply (f_equal String.length) in H.
      rewrite !length_append in H. simpl in H. lia.
    + simpl in H. inversion H. f_equal. eauto.
Qed.

(** X15. Distinct target URLs are requested through distinct proxied
    URLs, and distinct taxlot endpoints through distinct requests: the
    request log tells the endpoints apart. *)
Theorem requests_tell_endpoints_apart :
  (forall url url', proxiedUrl url = proxiedUrl url' -> url = url')
  /\ (forall lat lng endpoint endpoint',
         proxiedUrl (taxlotUrl lat lng endpoint)
         = proxiedUrl (taxlotUrl lat lng endpoint') ->
         endpoint = endpoint').
Proof.
  assert (Hinj : forall url url', proxiedUrl url = proxiedUrl url' -> url = url').
  { intros url url'. unfold proxiedUrl.
    destruct (nonEmpty (CORS_PROXY cfg)); [|auto].
    intros H. apply append_cancel_l in H.
    now apply encodeURIComponent_injective. }
  split; [exact Hinj|].
  intros lat lng endpoint endpoint' H. apply Hinj in H.
  unfold taxlotUrl in H. now apply append_cancel_r in H.
Qed.

(* ================================================================ *)
(** ** The saved list *)

Lemma getItem_setItem : forall key value w,
  getItem key (setItem key value w) = Some value.
Proof.
  intros key value w. unfold getItem, setItem, push. cbn [localStorage].
  rewrite rev_app_distr. cbn [rev app filter fst snd].
  now rewrite String.eqb_refl.
Qed.

Lemma isCurrentSaved_false : forall w p,
  currentProperty (AppState w) = Some p ->
  isCurrentSaved w = false ->
  ~ In (uniqueKey p) (map (fun q => uniqueKey (savedProperty q)) (saved (AppState w))).
Proof.
  intros w p Hcur Hno Hin. unfold isCurrentSaved in Hno. rewrite Hcur in Hno.
  apply in_map_iff in Hin as (q & Hq & Hin).
  assert (existsb (fun x => String.eqb (uniqueKey (savedProperty x)) (uniqueKey p))
                  (saved (AppState w)) = true).
  { apply existsb_exists. exists q. split; [exact Hin|]. now apply String.eqb_eq. }
  congruence.
Qed.

(** The three ways [saveCurrentProperty] can go. *)
Lemma saveCurrentProperty_cases : forall nowMs nowIso w,
  (currentProperty (AppState w) = None
   /\ saveCurrentProperty nowMs nowIso w = showToast "No property selected" "error" w)
  \/ (isCurrentSaved w = true
      /\ saveCurrentProperty nowMs nowIso w
         = showToast "Property already in your list" "error" w)
  \/ (exists p,
         currentProperty (AppState w) = Some p
         /\ isCurrentSaved w = false
         /\ saveCurrentProperty nowMs nowIso w
            = let item := {| savedProperty := withSavedAt p (VStr nowIso);
                             id := nowMs |} in
              let saved' := push (saved (AppState w)) item in
              showToast "Property saved" "success"
                (setItem STORAGE_KEY saved'
                   (setAppState
                      (mkAppState (highlightLayer (AppState w))
                         (currentProperty (AppState w)) saved' saved') w))).
Proof.
  intros nowMs nowIso w. unfold saveCurrentProperty.
  destruct (currentProperty (AppState w)) as [p|] eqn:Hcur; [|left; auto].
  destruct (isCurrentSaved w) eqn:Hs; [right; left; auto|].
  right; right. exists p. auto.
Qed.

Lemma save_success : forall nowMs nowIso w p,
  currentProperty (AppState w) = Some p ->
  isCurrentSaved w = false ->
  let w' := saveCurrentProperty nowMs nowIso w in
  saved (AppState w')
  = push (saved (AppState w))
         {| savedProperty := withSavedAt p (VStr nowIso); id := nowMs |}
  /\ filteredSaved (AppState w') = saved (AppState w')
  /\ getItem STORAGE_KEY w' = Some (saved (AppState w'))
  /\ currentProperty (AppState w') = Some p
  /\ isCurrentSaved w' = true
  /\ toasts w' = push (toasts w) ("Property saved", "success").
Proof.
  intros nowMs nowIso w p Hcur Hno w'.
  destruct (saveCurrentProperty_cases nowMs nowIso w)
    as [[Hnone _] | [[Hyes _] | (q & Hq & _ & Hrun)]]; try congruence.
  unfold w'. rewrite Hrun. cbv zeta.
  rewrite Hcur in Hq. inversion Hq; subst q.
  split; [reflexivity|]. split; [reflexivity|]. split.
  { unfold showToast, getItem. cbn [localStorage].
    change (getItem STORAGE_KEY
              (setItem STORAGE_KEY
                 (push (saved (AppState w))
                    {| savedProperty := withSavedAt p (VStr nowIso); id := nowMs |})
                 (setAppState
                    (mkAppState (highlightLayer (AppState w))
                       (currentProperty (AppState w))
                       (push (saved (AppState w))
                          {| savedProperty := withSavedAt p (VStr nowIso);
                             id := nowMs |})
                       (push (saved (AppState w))
                          {| savedProperty := withSavedAt p (VStr nowIso);
                             id := nowMs |})) w))
            = Some (push (saved (AppState w))
                      {| savedProperty := withSavedAt p (VStr nowIso);
                         id := nowMs |})).
    apply getItem_setItem. }
  split; [cbn; now rewrite Hcur|]. split; [|reflexivity].
  unfold isCurrentSaved. cbn. rewrite Hcur. unfold push.
  rewrite existsb_app. cbn. rewrite String.eqb_refl.
  now rewrite !orb_true_r.
Qed.

(** X16. Saving a Property that is not on the list yet appends one item:
    a copy of the Property stamped with the save time, under the clock
    reading as its id.  The filtered view is reset to the whole list, the
    whole list is written to durable storage, the selection itself keeps
    its null timestamp, and the Property now counts as saved. *)
Theorem save_appends_one_item : forall nowMs nowIso w p,
  currentProperty (AppState w) = Some p ->
  isCurrentSaved w = false ->
  let w' := saveCurrentProperty nowMs nowIso w in
  saved (AppState w')
  = push (saved (AppState w))
         {| savedProperty := withSavedAt p (VStr nowIso); id := nowMs |}
  /\ filteredSaved (AppState w') = saved (AppState w')
  /\ getItem STORAGE_KEY w' = Some (saved (AppState w'))
  /\ currentProperty (AppState w') = Some p
  /\ isCurrentSaved w' = true
  /\ toasts w' = push (toasts w) ("Property saved", "success").
Proof. exact save_success. Qed.

Lemma NoDup_push : forall (A : Type) (l : list A) (x : A),
  NoDup l -> ~ In x l -> NoDup (push l x).
Proof.
  intros A l x Hl Hx. unfold push.
  induction Hl as [|y l Hy Hl IH]; cbn.
  - constructor; [intros []|constructor].
  - constructor.
    + intros Hin. apply in_app_or in Hin as [Hin | [<- | []]]; [contradiction|].
      apply Hx. now left.
    + apply IH. intros Hin. apply Hx. now right.
Qed.

(** X17. Saving keeps the uniqueness keys of the saved list pairwise
    distinct. *)
Theorem save_keeps_keys_distinct : forall nowMs nowIso w,
  keysDistinct (saved (AppState w)) ->
  keysDistinct (saved (AppState (saveCurrentProperty nowMs nowIso w))).
Proof.
  intros nowMs nowIso w Hd.
  destruct (saveCurrentProperty_cases nowMs nowIso w)
    as [[_ Hrun] | [[_ Hrun] | (p & Hcur & Hno & Hrun)]]; rewrite Hrun.
  - exact Hd.
  - exact Hd.
  - cbv zeta. cbn. unfold keysDistinct, push. rewrite map_app. cbn.
    apply (NoDup_push _ _ _ Hd).
    exact (isCurrentSaved_false w p Hcur Hno).
Qed.

(** X18. Saving twice in a row saves once: the second call, whatever the
    clock reads, leaves the saved list and durable storage as the first
    call left them. *)
Theorem save_twice_saves_once : forall nowMs nowIso nowMs' nowIso' w,
  let w1 := saveCurrentProperty nowMs nowIso w in
  let w2 := saveCurrentProperty nowMs' nowIso' w1 in
  saved (AppState w2) = saved (AppState w1)
  /\ localStorage w2 = localStorage w1.
Proof.
  intros nowMs nowIso nowMs' nowIso' w w1 w2.
  assert (Hreject : forall v,
             currentProperty (AppState v) = None \/ isCurrentSaved v = true ->
             forall n i,
               saved (AppState (saveCurrentProperty n i v)) = saved (AppState v)
               /\ localStorage (saveCurrentProperty n i v) = localStorage v).
  { intros v Hv n i. unfold saveCurrentProperty.
    destruct (currentProperty (AppState v)) as [q|] eqn:Hq; [|split; reflexivity].
    destruct Hv as [Hv | Hv]; [discriminate|]. rewrite Hv. split; reflexivity. }
  unfold w2. apply Hreject.
  destruct (saveCurrentProperty_cases nowMs nowIso w)
    as [[Hnone Hrun] | [[Hyes Hrun] | (p & Hcur & Hno & _)]].
  - left. unfold w1. rewrite Hrun. exact Hnone.
  - right. unfold w1. rewrite Hrun. exact Hyes.
  - right. exact (proj1 (proj2 (proj2 (proj2 (proj2
             (save_success nowMs nowIso w p Hcur Hno)))))).
Qed.

Lemma lowerField_text : forall source v,
  stringOrFalsy v = true -> lowerField source v = Normal (lowerText v).
Proof.
  intros source v H. unfold lowerField.
  destruct v as [| |b|n|t|member]; unfold stringOrFalsy in H;
    try (apply negb_true_iff in H; rewrite H); try reflexivity.
  cbn [truthy]. destruct (String.eqb t "") eqn:E; [|reflexivity].
  apply String.eqb_eq in E. subst t. reflexivity.
Qed.

Lemma lowerField_throws : forall source v,
  stringOrFalsy v = false -> lowerField source v = Throw (notAFunction source).
Proof.
  intros source v H. unfold lowerField.
  destruct v as [| |b|n|t|member]; unfold stringOrFalsy in H;
    try discriminate; apply negb_false_iff in H; rewrite H; reflexivity.
Qed.

(** On an item whose three fields are strings or falsy, the callback of
    [filterSaved] tells whether one of the lower-cased texts includes the
    query. *)
Lemma matchesQuery_searchable : forall q p,
  searchable p = true -> matchesQuery q p = Normal (matchesText q p).
Proof.
  intros q p H. unfold searchable in H.
  apply andb_true_iff in H as [H Hpid]. apply andb_true_iff in H as [Ho Hs].
  unfold matchesQuery, matchesText.
  rewrite (lowerField_text "owner" _ Ho).
  destruct (includes (lowerText (owner (savedProperty p))) q); [reflexivity|].
  rewrite (lowerField_text "situs" _ Hs).
  destruct (includes (lowerText (situs (savedProperty p))) q); [reflexivity|].
  rewrite (lowerField_text "parcelId" _ Hpid). reflexivity.
Qed.

(** The callback throws on the first of the three fields, in the order
    owner, address, parcel id, that is truthy and not a string, provided
    the fields before it hold text that does not include the query. *)
Lemma matchesQuery_throws : forall q p,
  let prop := savedProperty p in
  (stringOrFalsy (owner prop) = false ->
   matchesQuery q p = Throw (notAFunction "owner"))
  /\ (stringOrFalsy (owner prop) = true ->
      includes (lowerText (owner prop)) q = false ->
      stringOrFalsy (situs prop) = false ->
      matchesQuery q p = Throw (notAFunction "situs"))
  /\ (stringOrFalsy (owner prop) = true ->
      includes (lowerText (owner prop)) q = false ->
      stringOrFalsy (situs prop) = true ->
      includes (lowerText (situs prop)) q = false ->
      stringOrFalsy (parcelId prop) = false ->
      matchesQuery q p = Throw (notAFunction "parcelId")).
Proof.
  intros q p prop. unfold matchesQuery. fold prop. repeat split.
  - intros Ho. now rewrite (lowerField_throws "owner" _ Ho).
  - intros Ho Hmiss Hs.
    rewrite (lowerField_text "owner" _ Ho), Hmiss.
    now rewrite (lowerField_throws "situs" _ Hs).
  - intros Ho Hmiss Hs Hmiss' Hpid.
    rewrite (lowerField_text "owner" _ Ho), Hmiss.
    rewrite (lowerField_text "situs" _ Hs), Hmiss'.
    now rewrite (lowerField_throws "parcelId" _ Hpid).
Qed.

Lemma filterThrowing_normal : forall (A : Type) (f : A -> Completion bool)
    (g : A -> bool) l,
  (forall x, In x l -> f x = Normal (g x)) ->
  filterThrowing f l = Normal (filter g l).
Proof.
  intros A f g l. induction l as [|x rest IH]; intros Hok; [reflexivity|].
  cbn [filterThrowing filter].
  rewrite (Hok x (or_introl eq_refl)), IH; [reflexivity|].
  intros y Hy. apply Hok. now right.
Qed.

Lemma filterThrowing_throws : forall (A : Type) (f : A -> Completion bool)
    before x after err,
  (forall y, In y before -> exists b, f y = Normal b) ->
  f x = Throw err ->
  filterThrowing f (before ++ x :: after) = Throw err.
Proof.
  intros A f before x after err Hok Hx.
  induction before as [|y before IH]; cbn [app filterThrowing].
  - now rewrite Hx.
  - destruct (Hok y (or_introl eq_refl)) as [b ->].
    rewrite IH; [reflexivity|]. intros z Hz. apply Hok. now right.
Qed.

Lemma filter_all : forall (A : Type) (f : A -> bool) l,
  (forall x, In x l -> f x = true) -> filter f l = l.
Proof.
  intros A f l. induction l as [|x l IH]; intros H; [reflexivity|].
  cbn. rewrite (H x (or_introl eq_refl)). f_equal. apply IH.
  intros y Hy. apply H. now right.
Qed.

Lemma includes_empty : forall s, includes s "" = true.
Proof. intros [|c s]; reflexivity. Qed.

(** X19. On a saved list whose owners, addresses and parcel ids are
    strings (or falsy), [filterSaved] completes: the view becomes the
    saved items, in order, of which the lower-cased owner, address or
    parcel id includes the lower-cased query; the saved list and the
    selection are untouched; the empty query shows the whole list; and
    the letter case of an ASCII query does not matter. *)
Theorem filterSaved_on_text_fields : forall query s,
  forallb searchable (saved (AppState (world s))) = true ->
  let kept := filter (matchesText (toLowerCase query)) (saved (AppState (world s))) in
  filterSaved query s
  = (Normal tt,
     mkSession (setSavedLists (saved (AppState (world s))) kept (world s))
               (selectedSavedIds s))
  /\ (forall p,
         In p kept
         <-> In p (saved (AppState (world s)))
             /\ (includes (lowerText (owner (savedProperty p))) (toLowerCase query)
                 || includes (lowerText (situs (savedProperty p))) (toLowerCase query)
                 || includes (lowerText (parcelId (savedProperty p)))
                             (toLowerCase query)) = true)
  /\ (query = "" -> kept = saved (AppState (world s)))
  /\ (isAscii query = true ->
      filterSaved (toLowerCase query) s = filterSaved query s).
Proof.
  intros query s Hall kept.
  assert (Hok : forall q p, In p (saved (AppState (world s))) ->
                            matchesQuery q p = Normal (matchesText q p)).
  { intros q p Hp. apply matchesQuery_searchable.
    rewrite forallb_forall in Hall. now apply Hall. }
  assert (Hempty : forall l, filter (matchesText "") l = l).
  { intros l. apply filter_all. intros p _. unfold matchesText.
    now rewrite includes_empty. }
  split; [|split; [|split]].
  - unfold filterSaved.
    destruct (nonEmpty (toLowerCase query)) eqn:Eq; cbn [negb].
    + rewrite (filterThrowing_normal _ _ (matchesText (toLowerCase query)) _ (Hok _)).
      reflexivity.
    + unfold nonEmpty in Eq. apply negb_false_iff, String.eqb_eq in Eq.
      unfold kept. rewrite Eq, Hempty. reflexivity.
  - intros p. unfold kept. rewrite filter_In. reflexivity.
  - intros ->. unfold kept. apply Hempty.
  - intros Hascii. unfold filterSaved. now rewrite toLowerCase_idempotent.
Qed.

(** X20. [filterSaved] throws on a saved item it cannot lower-case.  With
    a non-empty query, when the items before it hold text, the item
    throws the [TypeError] of the first of its owner, address and parcel
    id that is truthy and not a string (a numeric account number, say),
    provided the fields before that one hold text that does not include
    the query; the error escapes and the view is left as it was. *)
Theorem filterSaved_throws_on_a_number : forall query s before p after,
  saved (AppState (world s)) = (before ++ p :: after)%list ->
  forallb searchable before = true ->
  nonEmpty (toLowerCase query) = true ->
  let q := toLowerCase query in
  let prop := savedProperty p in
  (stringOrFalsy (owner prop) = false ->
   filterSaved query s = (Throw (notAFunction "owner"), s))
  /\ (stringOrFalsy (owner prop) = true ->
      includes (lowerText (owner prop)) q = false ->
      stringOrFalsy (situs prop) = false ->
      filterSaved query s = (Throw (notAFunction "situs"), s))
  /\ (stringOrFalsy (owner prop) = true ->
      includes (lowerText (owner prop)) q = false ->
      stringOrFalsy (situs prop) = true ->
      includes (lowerText (situs prop)) q = false ->
      stringOrFalsy (parcelId prop) = false ->
      filterSaved query s = (Throw (notAFunction "parcelId"), s)).
Proof.
  intros query s before p after Hsaved Hbefore Hq q prop. subst q prop.
  assert (Hthrow : forall err,
             matchesQuery (toLowerCase query) p = Throw err ->
             filterSaved query s = (Throw err, s)).
  { intros err Hp. unfold filterSaved. rewrite Hq. cbn [negb].
    rewrite Hsaved.
    rewrite (filterThrowing_throws _ _ before p after err); [reflexivity| |exact Hp].
    intros y Hy. eexists. apply matchesQuery_searchable.
    rewrite forallb_forall in Hbefore. now apply Hbefore. }
  pose proof (matchesQuery_throws (toLowerCase query) p) as H. cbv zeta in H.
  destruct H as (H1 & H2 & H3).
  repeat split; intros; apply Hthrow; auto.
Qed.

(* ================================================================ *)
(** ** Selection and deletion *)

Lemma setHas_setAdd : forall s added x,
  setHas (setAdd s added) x = setHas s x || N.eqb x added.
Proof.
  intros s added x. unfold setAdd.
  destruct (setHas s added) eqn:E.
  - destruct (N.eqb x added) eqn:Ex; [|now rewrite orb_false_r].
    apply N.eqb_eq in Ex. subst x. now rewrite E.
  - unfold setHas, push. rewrite existsb_app. cbn. now rewrite orb_false_r.
Qed.

Lemma setHas_setDelete : forall s removed x,
  setHas (setDelete s removed) x = setHas s x && negb (N.eqb x removed).
Proof.
  intros s removed x. unfold setHas, setDelete.
  induction s as [|y s IH]; [reflexivity|].
  cbn [filter existsb].
  destruct (N.eqb y removed) eqn:Ey; cbn [negb existsb]; rewrite IH;
    destruct (N.eqb x y) eqn:Exy; destruct (N.eqb x removed) eqn:Exr;
    cbn; rewrite ?andb_false_r, ?andb_true_r; try reflexivity;
    apply N.eqb_eq in Exy; subst; congruence.
Qed.

(** X21. Toggling the selection of an id twice restores the selection:
    every id is selected afterwards exactly if it was before, and the
    world is untouched. *)
Theorem toggle_twice_restores_selection : forall target s x,
  setHas (selectedSavedIds (toggleSavedSelection target
                              (toggleSavedSelection target s))) x
  = setHas (selectedSavedIds s) x
  /\ world (toggleSavedSelection target (toggleSavedSelection target s))
     = world s
  /\ setHas (selectedSavedIds (toggleSavedSelection target s)) target
     = negb (setHas (selectedSavedIds s) target).
Proof.
  intros target s x.
  assert (Hflip : setHas (selectedSavedIds (toggleSavedSelection target s)) target
                  = negb (setHas (selectedSavedIds s) target)).
  { unfold toggleSavedSelection.
    destruct (setHas (selectedSavedIds s) target) eqn:E; cbn [selectedSavedIds].
    - rewrite setHas_setDelete, N.eqb_refl. now rewrite andb_false_r.
    - rewrite setHas_setAdd, N.eqb_refl. now rewrite orb_true_r. }
  split; [|split; [|exact Hflip]].
  - unfold toggleSavedSelection at 1. rewrite Hflip.
    unfold toggleSavedSelection.
    destruct (setHas (selectedSavedIds s) target) eqn:E;
      cbn [negb selectedSavedIds world].
    + rewrite setHas_setAdd, setHas_setDelete.
      destruct (N.eqb x target) eqn:Ex; cbn.
      * apply N.eqb_eq in Ex. subst x. now rewrite E.
      * now rewrite andb_true_r, orb_false_r.
    + rewrite setHas_setDelete, setHas_setAdd.
      destruct (N.eqb x target) eqn:Ex; cbn.
      * apply N.eqb_eq in Ex. subst x. now rewrite E.
      * now rewrite orb_false_r, andb_true_r.
  - unfold toggleSavedSelection.
    destruct (setHas (selectedSavedIds s) target); cbn [selectedSavedIds world];
      match goal with
      | |- world (if ?c then _ else _) = _ => destruct c; reflexivity
      end.
Qed.

Lemma setHas_fold_setAdd : forall ids acc x,
  setHas (fold_left setAdd ids acc) x = setHas acc x || existsb (N.eqb x) ids.
Proof.
  induction ids as [|i ids IH]; intros acc x; cbn [fold_left existsb].
  - now rewrite orb_false_r.
  - rewrite IH, setHas_setAdd. now rewrite orb_assoc.
Qed.

Lemma NoDup_fold_setAdd : forall ids acc,
  NoDup acc -> NoDup (fold_left setAdd ids acc).
Proof.
  induction ids as [|i ids IH]; intros acc Hacc; cbn [fold_left]; [exact Hacc|].
  apply IH. unfold setAdd.
  destruct (setHas acc i) eqn:E; [exact Hacc|].
  apply NoDup_push; [exact Hacc|].
  intros Hin.
  assert (setHas acc i = true).
  { unfold setHas. apply existsb_exists. exists i. split; [exact Hin|].
    apply N.eqb_refl. }
  congruence.
Qed.

(** X22. Select-all selects exactly the items in view, each id once, and
    the select-all box then shows checked and not indeterminate unless the
    view is empty; clearing it selects nothing and unchecks the box. *)
Theorem select_all_selects_the_view : forall s,
  (forall x,
      setHas (selectedSavedIds (handleSelectAll true s)) x
      = existsb (N.eqb x) (map id (filteredSaved (AppState (world s)))))
  /\ NoDup (selectedSavedIds (handleSelectAll true s))
  /\ updateSelectAllCheckbox (handleSelectAll true s)
     = (match filteredSaved (AppState (world s)) with
        | [] => false
        | _ => true
        end, false)
  /\ selectedSavedIds (handleSelectAll false s) = []
  /\ updateSelectAllCheckbox (handleSelectAll false s) = (false, false).
Proof.
  intros s.
  assert (Hhas : forall x,
             setHas (selectedSavedIds (handleSelectAll true s)) x
             = existsb (N.eqb x) (map id (filteredSaved (AppState (world s))))).
  { intros x. unfold handleSelectAll. cbn [selectedSavedIds].
    now rewrite setHas_fold_setAdd. }
  split; [exact Hhas|]. split.
  { unfold handleSelectAll. cbn [selectedSavedIds].
    apply NoDup_fold_setAdd. constructor. }
  split; [|split; [reflexivity|]].
  - unfold updateSelectAllCheckbox.
    change (world (handleSelectAll true s)) with (world s).
    rewrite (filter_all _ (setHas (selectedSavedIds (handleSelectAll true s)))
               (map id (filteredSaved (AppState (world s))))).
    + destruct (map id (filteredSaved (AppState (world s)))) as [|i ids] eqn:E.
      * destruct (filteredSaved (AppState (world s))); [reflexivity|discriminate].
      * rewrite Nat.eqb_refl.
        destruct (filteredSaved (AppState (world s))); [discriminate|reflexivity].
    + intros x Hx. rewrite Hhas. apply existsb_exists.
      exists x. split; [exact Hx | apply N.eqb_refl].
  - unfold updateSelectAllCheckbox, handleSelectAll.
    cbn [selectedSavedIds world].
    assert (Hnone : forall l, filter (setHas []) l = []).
    { induction l as [|y l IHl]; [reflexivity | exact IHl]. }
    rewrite Hnone.
    destruct (map id (filteredSaved (AppState (world s)))); reflexivity.
Qed.

Lemma getItem_showToast : forall key msg type w,
  getItem key (showToast msg type w) = getItem key w.
Proof. reflexivity. Qed.

Lemma getItem_setSavedLists : forall key saved' filtered' w,
  getItem key (setSavedLists saved' filtered' w) = getItem key w.
Proof. reflexivity. Qed.

(** X23. Deleting one saved item removes exactly the items with that id,
    from the list and from the view, keeps the others in order, drops the
    id from the selection and writes the new list to durable storage.
    When no item has the id the list is unchanged, yet storage is still
    rewritten and the removal toast is still shown. *)
Theorem deleteSingleSaved_removes_exactly : forall target s,
  let s' := deleteSingleSaved target s in
  saved (AppState (world s'))
  = filter (fun p => negb (N.eqb (id p) target)) (saved (AppState (world s)))
  /\ (forall p, In p (saved (AppState (world s')))
                <-> In p (saved (AppState (world s))) /\ id p <> target)
  /\ (forall p, In p (filteredSaved (AppState (world s')))
                <-> In p (filteredSaved (AppState (world s))) /\ id p <> target)
  /\ setHas (selectedSavedIds s') target = false
  /\ getItem STORAGE_KEY (world s') = Some (saved (AppState (world s')))
  /\ ((forall p, In p (saved (AppState (world s))) -> id p <> target) ->
      saved (AppState (world s')) = saved (AppState (world s)))
  /\ List.length (localStorage (world s'))
     = List.length (localStorage (world s)) + 1
  /\ toasts (world s') = push (toasts (world s)) ("Property removed", "success").
Proof.
  intros target s s'.
  assert (Hmem : forall l p,
             In p (filter (fun q : SavedItem => negb (N.eqb (id q) target)) l)
             <-> In p l /\ id p <> target).
  { intros l p. rewrite filter_In. split; intros [Hin Hne]; split; auto.
    - intros Heq. rewrite Heq, N.eqb_refl in Hne. discriminate.
    - apply negb_true_iff, N.eqb_neq. exact Hne. }
  split; [reflexivity|]. split; [apply Hmem|]. split; [apply Hmem|]. split.
  { unfold s', deleteSingleSaved. cbn [selectedSavedIds].
    rewrite setHas_setDelete, N.eqb_refl. now rewrite andb_false_r. }
  split.
  { unfold s', deleteSingleSaved. cbn [world].
    rewrite getItem_showToast, getItem_setItem. reflexivity. }
  split.
  { intros Hnone. unfold s', deleteSingleSaved. cbn.
    apply filter_all. intros p Hp. apply negb_true_iff, N.eqb_neq.
    now apply Hnone. }
  split.
  { unfold s', deleteSingleSaved. cbn. unfold push. rewrite length_app.
    reflexivity. }
  reflexivity.
Qed.

(** X24. Deleting the selection does nothing when nothing is selected or
    the confirmation is declined.  Once confirmed it removes exactly the
    saved items whose id is selected, whether or not they are in view,
    resets the view to the whole remaining list, clears the selection and
    writes the remaining list to durable storage. *)
Theorem deleteSelectedSaved_removes_the_selection : forall confirmed s,
  let s' := deleteSelectedSaved confirmed s in
  (selectedSavedIds s = [] \/ confirmed = false -> s' = s)
  /\ (selectedSavedIds s <> [] -> confirmed = true ->
      (forall p,
          In p (saved (AppState (world s')))
          <-> In p (saved (AppState (world s)))
              /\ setHas (selectedSavedIds s) (id p) = false)
      /\ filteredSaved (AppState (world s')) = saved (AppState (world s'))
      /\ selectedSavedIds s' = []
      /\ getItem STORAGE_KEY (world s') = Some (saved (AppState (world s')))
      /\ toasts (world s')
         = push (toasts (world s)) ("Selected properties removed", "success")).
Proof.
  intros confirmed s s'. unfold s', deleteSelectedSaved. split.
  - intros [Hsel | Hconf].
    + now rewrite Hsel.
    + rewrite Hconf. destruct (selectedSavedIds s); reflexivity.
  - intros Hsel ->.
    destruct (selectedSavedIds s) as [|i ids] eqn:E; [congruence|].
    cbn [negb world selectedSavedIds].
    split; [|split; [reflexivity|split; [reflexivity|split; [|reflexivity]]]].
    + intros p. cbn. rewrite filter_In, negb_true_iff. reflexivity.
    + rewrite getItem_showToast, getItem_setSavedLists, getItem_setItem.
      reflexivity.
Qed.

(* ================================================================ *)
(** ** Invariants of the saved list *)

Lemma filterThrowing_incl : forall (A : Type) (f : A -> Completion bool) l out,
  filterThrowing f l = Normal out -> incl out l.
Proof.
  intros A f l. induction l as [|x l IH]; intros out H; cbn in H.
  - inversion H. apply incl_refl.
  - destruct (f x) as [keep|err]; [|discriminate].
    destruct (filterThrowing f l) as [out'|err]; [|discriminate].
    inversion H. specialize (IH out' eq_refl).
    destruct keep.
    + intros y [<- | Hy]; [now left | right; now apply IH].
    + intros y Hy. right. now apply IH.
Qed.

Lemma filterSaved_world : forall query s,
  saved (AppState (world (snd (filterSaved query s))))
  = saved (AppState (world s))
  /\ localStorage (world (snd (filterSaved query s))) = localStorage (world s)
  /\ incl (filteredSaved (AppState (world (snd (filterSaved query s)))))
          (saved (AppState (world s)))
     \/ snd (filterSaved query s) = s.
Proof.
  intros query s. unfold filterSaved.
  destruct (negb (nonEmpty (toLowerCase query))).
  - left. cbn. repeat split. apply incl_refl.
  - destruct (filterThrowing (matchesQuery (toLowerCase query))
                (saved (AppState (world s)))) as [kept|err] eqn:E.
    + left. cbn. repeat split. exact (filterThrowing_incl _ _ _ _ E).
    + right. reflexivity.
Qed.

Lemma jsonValue_exact : forall v, jsonExact v = true -> jsonValue v = v.
Proof.
  intros [| |b|[q| | |]|t|member] H; try reflexivity; try discriminate.
  cbn in *. now rewrite H.
Qed.

Lemma jsonValue_idempotent : forall v, jsonValue (jsonValue v) = jsonValue v.
Proof.
  intros [| |b|[q| | |]|t|member]; try reflexivity.
  cbn. destruct (String.eqb member "__proto__") eqn:E; [|reflexivity].
  cbn. now rewrite E.
Qed.

Lemma jsonAttrs_exact : forall attrs,
  forallb (fun kv => jsonExact (snd kv)
                     && match snd kv with VUndefined => false | _ => true end)
          attrs = true ->
  jsonAttrs attrs = attrs.
Proof.
  induction attrs as [|[k v] rest IH]; intros H; [reflexivity|].
  cbn [forallb snd] in H. apply andb_true_iff in H as [Hv Hrest].
  apply andb_true_iff in Hv as [Hexact Hdef].
  unfold jsonAttrs in *. cbn [flat_map fst snd].
  rewrite (jsonValue_exact v Hexact), (IH Hrest).
  destruct v; try reflexivity. discriminate.
Qed.

Lemma jsonAttrs_idempotent : forall attrs,
  jsonAttrs (jsonAttrs attrs) = jsonAttrs attrs.
Proof.
  induction attrs as [|[k v] rest IH]; [reflexivity|].
  unfold jsonAttrs in *. cbn [flat_map fst snd].
  destruct (jsonValue v) eqn:E; cbn [app flat_map fst snd];
    rewrite ?IH; try reflexivity;
    rewrite <- E, jsonValue_idempotent, E, ?IH; reflexivity.
Qed.

Lemma jsonItem_exact : forall item,
  jsonExactItem item = true -> jsonItem item = item.
Proof.
  intros [[uk o si c st z fa a l i ac ls zo yb pid tl pt tw r se tr sa raw] n] H.
  unfold jsonExactItem in H. cbn in H.
  apply andb_true_iff in H as [Hf Hraw].
  repeat (apply andb_true_iff in Hf as [? Hf]).
  unfold jsonItem, jsonProperty. cbn.
  rewrite !jsonValue_exact by assumption.
  rewrite jsonAttrs_exact by assumption. reflexivity.
Qed.

Lemma jsonItem_idempotent : forall item,
  jsonItem (jsonItem item) = jsonItem item.
Proof.
  intros [p n]. unfold jsonItem, jsonProperty. cbn.
  now rewrite !jsonValue_idempotent, jsonAttrs_idempotent.
Qed.

(** X25. Durable storage mirrors the saved list: when the last write
    under the storage key is the saved list, it still is after a save, a
    single deletion, a deletion of the selection and a filtering of the
    view.  Reading storage back at start-up gives the list as its JSON
    text spells it: NaN and the infinities come back as [null] and what
    was not written comes back as [undefined]; a list whose items hold
    none of these comes back as it was, and what was read back once is
    read back unchanged from then on. *)
Theorem storage_mirrors_the_saved_list : forall s,
  storageMirrorsSaved (world s) ->
  (forall nowMs nowIso,
      storageMirrorsSaved (saveCurrentProperty nowMs nowIso (world s)))
  /\ (forall target, storageMirrorsSaved (world (deleteSingleSaved target s)))
  /\ (forall confirmed,
         storageMirrorsSaved (world (deleteSelectedSaved confirmed s)))
  /\ (forall query, storageMirrorsSaved (world (snd (filterSaved query s))))
  /\ saved (AppState (initSaved (world s)))
     = map jsonItem (saved (AppState (world s)))
  /\ filteredSaved (AppState (initSaved (world s)))
     = saved (AppState (initSaved (world s)))
  /\ (forallb jsonExactItem (saved (AppState (world s))) = true ->
      saved (AppState (initSaved (world s))) = saved (AppState (world s)))
  /\ map jsonItem (saved (AppState (initSaved (world s))))
     = saved (AppState (initSaved (world s))).
Proof.
  intros s Hm. unfold storageMirrorsSaved in *.
  assert (Hinit : saved (AppState (initSaved (world s)))
                  = map jsonItem (saved (AppState (world s)))).
  { unfold initSaved. rewrite Hm. reflexivity. }
  split; [|split; [|split; [|split; [|split; [|split; [|split]]]]]].
  - intros nowMs nowIso.
    destruct (saveCurrentProperty_cases nowMs nowIso (world s))
      as [[_ Hrun] | [[_ Hrun] | (p & Hcur & Hno & _)]].
    + rewrite Hrun. exact Hm.
    + rewrite Hrun. exact Hm.
    + exact (proj1 (proj2 (proj2 (save_success nowMs nowIso (world s) p Hcur Hno)))).
  - intros target. unfold deleteSingleSaved. cbn [world].
    rewrite getItem_showToast, getItem_setItem. reflexivity.
  - intros confirmed. unfold deleteSelectedSaved.
    destruct (selectedSavedIds s); [exact Hm|].
    destruct confirmed; cbn [negb world]; [|exact Hm].
    rewrite getItem_showToast, getItem_setSavedLists, getItem_setItem.
    reflexivity.
  - intros query.
    destruct (filterSaved_world query s) as [(Hs & Hl & _) | Hsame].
    + unfold getItem. rewrite Hl, Hs. exact Hm.
    + rewrite Hsame. exact Hm.
  - exact Hinit.
  - reflexivity.
  - intros Hexact. rewrite Hinit.
    rewrite <- (map_id (saved (AppState (world s)))) at 2.
    apply map_ext_in. intros item Hin. apply jsonItem_exact.
    rewrite forallb_forall in Hexact. now apply Hexact.
  - rewrite Hinit, map_map. apply map_ext. intros item.
    apply jsonItem_idempotent.
Qed.

(** X26. The view only shows saved items: when every item of the
    filtered view is on the saved list, it still is after a save, a
    single deletion, a deletion of the selection, a filtering and a
    reload. *)
Theorem view_shows_saved_items_only : forall s,
  incl (filteredSaved (AppState (world s))) (saved (AppState (world s))) ->
  (forall nowMs nowIso,
      let w' := saveCurrentProperty nowMs nowIso (world s) in
      incl (filteredSaved (AppState w')) (saved (AppState w')))
  /\ (forall target,
         let s' := deleteSingleSaved target s in
         incl (filteredSaved (AppState (world s'))) (saved (AppState (world s'))))
  /\ (forall confirmed,
         let s' := deleteSelectedSaved confirmed s in
         incl (filteredSaved (AppState (world s'))) (saved (AppState (world s'))))
  /\ (forall query,
         let s' := snd (filterSaved query s) in
         incl (filteredSaved (AppState (world s'))) (saved (AppState (world s'))))
  /\ incl (filteredSaved (AppState (initSaved (world s))))
          (saved (AppState (initSaved (world s)))).
Proof.
  intros s Hincl.
  split; [|split; [|split; [|split]]].
  - intros nowMs nowIso w'. unfold w'.
    destruct (saveCurrentProperty_cases nowMs nowIso (world s))
      as [[_ Hrun] | [[_ Hrun] | (p & _ & _ & Hrun)]]; rewrite Hrun.
    + exact Hincl.
    + exact Hincl.
    + cbn. apply incl_refl.
  - intros target s'. unfold s', deleteSingleSaved. cbn.
    intros p Hp. apply filter_In in Hp as [Hp Hkeep].
    apply filter_In. split; [now apply Hincl | exact Hkeep].
  - intros confirmed s'. unfold s', deleteSelectedSaved.
    destruct (selectedSavedIds s); [exact Hincl|].
    destruct confirmed; cbn [negb]; [|exact Hincl].
    cbn. apply incl_refl.
  - intros query s'. unfold s'.
    destruct (filterSaved_world query s) as [(Hs & _ & Hi) | Hsame].
    + rewrite Hs. exact Hi.
    + rewrite Hsame. exact Hincl.
  - unfold initSaved. cbn. apply incl_refl.
Qed.

(* ================================================================ *)
(** ** The encoders and the text helpers *)

Lemma chars_append : forall s t,
  list_ascii_of_string (s ++ t)
  = (list_ascii_of_string s ++ list_ascii_of_string t)%list.
Proof.
  induction s as [|c s IH]; intros t; cbn; [reflexivity|].
  now rewrite IH.
Qed.

(** X27. [encodeURIComponent] only produces alphanumerics, the marks
    [-_.!~*'()] and percent escapes, so none of the separators of a URL
    (ampersand, equals sign, question mark, hash, slash, colon, plus,
    space) survives in the proxied target; the form serializer likewise
    leaves no ampersand, equals sign, question mark, hash or space in a
    name or a value. *)
Theorem encoders_leave_no_separator : forall s,
  forallb (fun c => uriSafe c && negb (oneOf "&=?#/:+ " c))
          (list_ascii_of_string (encodeURIComponent s)) = true
  /\ forallb (fun c => formSafe c && negb (oneOf "&=?# " c))
             (list_ascii_of_string (formEncode s)) = true.
Proof.
  induction s as [|c s [IHu IHf]]; [split; reflexivity|].
  cbn [encodeURIComponent formEncode].
  rewrite !chars_append, !forallb_app, IHu, IHf, !andb_true_r.
  destruct c as [[] [] [] [] [] [] [] []]; split; reflexivity.
Qed.

Lemma stripWildcards_paired : forall s,
  quotesPaired s -> quotesPaired (stripWildcards s).
Proof.
  intros s H. induction H as [|c rest Hc _ IH|rest _ IH].
  - constructor.
  - cbn. destruct (Ascii.eqb c "%" || Ascii.eqb c "_")%bool; [exact IH|].
    now constructor.
  - cbn. now constructor.
Qed.

Lemma doubleQuotes_paired : forall s, quotesPaired (doubleQuotes s).
Proof.
  induction s as [|c s IH]; cbn; [constructor|].
  destruct (Ascii.eqb c "'") eqn:E.
  - now constructor.
  - constructor; [|exact IH]. now apply Ascii.eqb_neq.
Qed.

(** X28. [escapeSQL] leaves no wildcard and no lone quote: its result
    holds neither [%] nor [_], every single quote in it stands in an
    adjacent pair, and a string without quote or wildcard is returned as
    it is. *)
Theorem escapeSQL_is_safe : forall str,
  forallb (fun c => negb (oneOf "%_" c)) (list_ascii_of_string (escapeSQL str))
  = true
  /\ quotesPaired (escapeSQL str)
  /\ (forallb (fun c => negb (oneOf "'%_" c)) (list_ascii_of_string str) = true ->
      escapeSQL str = str).
Proof.
  intros str. unfold escapeSQL. split; [|split].
  - generalize (doubleQuotes str). intros s.
    induction s as [|c s IH]; [reflexivity|].
    cbn [stripWildcards].
    destruct (Ascii.eqb c "%" || Ascii.eqb c "_")%bool eqn:E; [exact IH|].
    cbn [list_ascii_of_string forallb]. rewrite IH, andb_true_r.
    unfold oneOf. cbn. rewrite orb_false_r.
    now rewrite E.
  - apply stripWildcards_paired, doubleQuotes_paired.
  - induction str as [|c s IH]; [reflexivity|].
    cbn [list_ascii_of_string forallb]. intros H.
    apply andb_true_iff in H as [Hc Hs].
    unfold oneOf in Hc. cbn in Hc. rewrite orb_false_r in Hc.
    apply negb_true_iff in Hc.
    apply orb_false_iff in Hc as [Hq Hc]. apply orb_false_iff in Hc as [Hp Hu].
    cbn [doubleQuotes]. rewrite Hq. cbn [stripWildcards]. rewrite Hp, Hu.
    cbn. now rewrite IH.
Qed.

End Pipeline.

(* ================================================================ *)
(** ** The pipeline on concrete inputs *)

(** C1. The pipeline does not always yield a Property: when a taxlot
    endpoint answers with a feature whose geometry is the empty polygon
    [{"rings": []}], [identifyParcelAt] throws the [TypeError] of the
    highlight step, which nothing catches; no Property is selected and
    the panel stays empty. *)
Theorem identifyParcelAt_empty_rings_throws :
  let run := identifyParcelAt sampleUnicodeLower sampleFiniteToString
               sampleStringToNumber shippedConfig netEmptyPolygon
               (leafletPolygonError sampleFiniteToString sampleStringToNumber)
               sampleLat sampleLng emptyWorld in
  fst run = Throw (typeErrorReading "map")
  /\ currentProperty (AppState (snd run)) = None
  /\ panel (snd run) = None
  /\ panelOpen (snd run) = false
  /\ toasts (snd run) = [].
Proof. vm_compute. repeat split. Qed.

(** The scenario of C1 on its own: with every request rejected, the
    pipeline selects the bare-coordinate placeholder for the doubles
    nearest to 44.123456 and -123.654321. *)
Lemma identifyParcelAt_offline_example :
  let run := identifyParcelAt sampleUnicodeLower sampleFiniteToString
               sampleStringToNumber shippedConfig netDown
               (leafletPolygonError sampleFiniteToString sampleStringToNumber)
               sampleLat sampleLng emptyWorld in
  fst run = Normal tt
  /\ option_map parcelId (currentProperty (AppState (snd run))) = Some (VStr "N/A")
  /\ option_map fullAddress (currentProperty (AppState (snd run)))
     = Some "Coordinates: 44.123456, -123.654321"
  /\ requests (snd run)
     = ["https://lane-cors.blakebigstrib.workers.dev/?url=https%3A%2F%2Fgis.lanecounty.org%2Farcgis%2Frest%2Fservices%2FLaneCounty%2FTaxlots%2FMapServer%2F0%2Fquery%3Ff%3Djson%26geometry%3D-123.654321%252C44.123456%26geometryType%3DesriGeometryPoint%26inSR%3D4326%26spatialRel%3DesriSpatialRelIntersects%26outFields%3D*%26returnGeometry%3Dtrue";
        "https://lane-cors.blakebigstrib.workers.dev/?url=https%3A%2F%2Fgeocode.arcgis.com%2Farcgis%2Frest%2Fservices%2FWorld%2FGeocodeServer%2FreverseGeocode%3Ff%3Djson%26location%3D-123.654321%252C44.123456%26outFields%3D*"]
  /\ panel (snd run) = currentProperty (AppState (snd run)).
Proof. vm_compute. repeat split. Qed.

(** The claim of C2 as the spec words it fails in two ways: a candidate
    that names a member of [Object.prototype] resolves to that member in
    a bag that does not hold it, and an [undefined] fallback comes back
    as [null]. *)
Lemma getField_inherited_member_and_default :
  ~ (forall attrs keys fallback,
        (exists before key after,
            keys = (before ++ key :: after)%list /\
            (forall k, In k before -> ~ resolves sampleUnicodeLower attrs k) /\
            resolvesTo sampleUnicodeLower attrs key
              (getField sampleUnicodeLower attrs keys fallback))
        \/ ((forall k, In k keys -> ~ resolves sampleUnicodeLower attrs k) /\
            getField sampleUnicodeLower attrs keys fallback = fallback))
  /\ getField sampleUnicodeLower [] ["constructor"] VNull = VObject "constructor"
  /\ getField sampleUnicodeLower [] ["OWNER1"] VUndefined = VNull.
Proof.
  split; [|split; reflexivity].
  intros claim.
  destruct (claim [] ["constructor"] VNull)
    as [(before & key & after & _ & _ & (actual & [] & _)) | [_ Hfb]].
  discriminate.
Qed.

(** A bag whose owner stands under the third candidate, in another case;
    and the empty bag with no fallback given. *)
Lemma getField_first_resolving_witness :
  getField sampleUnicodeLower [("ownname", VStr "Smith")]
    ["OWNER1"; "OWNER"; "OWNNAME"] VNull = VStr "Smith"
  /\ getField sampleUnicodeLower [] FIELD_MAP.zip VUndefined = VNull.
Proof.
  split.
  - exact (proj2 (getField_first_resolving sampleUnicodeLower
                    [("ownname", VStr "Smith")] ["OWNER1"; "OWNER"; "OWNNAME"]
                    VNull eq_refl)).
  - destruct (getField_first_resolving sampleUnicodeLower [] FIELD_MAP.zip
                VUndefined eq_refl)
      as [[(before & key & after & _ & _ & (actual & [] & _)) | [_ Hfb]] _].
    exact Hfb.
Defined.

(** Endpoints A, B, C: A answers HTTP 503 and B a feature; two requests
    are issued and none of them to C. *)
Lemma sequencer_short_circuits_witness :
  let run := tryIdentifyFromTaxlots sampleUnicodeLower sampleFiniteToString
               sampleStringToNumber configABC netSecondAnswers
               sampleLat sampleLng emptyWorld in
  fst run
  = Normal (Some {| property :=
                      normalizeParcel sampleUnicodeLower sampleFiniteToString
                        sampleStringToNumber (featureAttrs ringFeature);
                    geometry := Feature.geometry ringFeature |})
  /\ List.length (requests (snd run)) = 2
  /\ callCount (proxiedUrl configABC
                  (taxlotUrl sampleFiniteToString sampleLat sampleLng
                     "https://c.example/0")) (snd run) = 0.
Proof.
  destruct (sequencer_short_circuits sampleUnicodeLower sampleFiniteToString
              sampleStringToNumber configABC netSecondAnswers sampleLat sampleLng
              "https://a.example/0" "https://b.example/0" "https://c.example/0"
              ringFeature emptyWorld eq_refl eq_refl eq_refl)
    as (Hres & _ & Hlen & Hcount).
  split; [exact Hres|]. split; [exact Hlen|].
  rewrite Hcount; [reflexivity | vm_compute; discriminate | vm_compute; discriminate].
Defined.

Lemma netAllFail_fails : forall history url timeoutMs,
  usableFeature (netAllFail history url timeoutMs) = None.
Proof. intros [|a [|b rest]] url timeoutMs; reflexivity. Qed.

(** Endpoints A, B, C: a timeout, then HTTP 500, then an empty feature
    list. *)
Lemma sequencer_exhaustion_witness :
  let run := tryIdentifyFromTaxlots sampleUnicodeLower sampleFiniteToString
               sampleStringToNumber configABC netAllFail
               sampleLat sampleLng emptyWorld in
  fst run = Normal None
  /\ fst (taxlotLoop sampleUnicodeLower sampleFiniteToString sampleStringToNumber
            configABC netAllFail sampleLat sampleLng (TAXLOT_ENDPOINTS configABC)
            [] emptyWorld)
     = (None, ["https://a.example/0: timeout";
               "https://b.example/0: HTTP 500";
               "https://c.example/0: no features at this location"])
  /\ List.length (requests (snd run)) = 3.
Proof.
  destruct (sequencer_exhaustion sampleUnicodeLower sampleFiniteToString
              sampleStringToNumber configABC netAllFail sampleLat sampleLng
              emptyWorld
              (fun history endpoint _ => netAllFail_fails history _ _))
    as (Hnull & errors & Hloop & Herrs & _ & _ & Hlen).
  split; [exact Hnull|]. split; [|exact Hlen].
  rewrite Hloop, Herrs. reflexivity.
Defined.

(** The claim of C6 as the spec words it fails on two polygons a
    successful query can return: on the empty polygon the highlight step
    throws before it draws, and on a ring with a vertex of a single
    coordinate Leaflet rejects the swapped vertex [[undefined, 1]].
    Neither is highlighted. *)
Lemma highlight_throws_on_some_polygons :
  (let query := tryIdentifyFromTaxlots sampleUnicodeLower sampleFiniteToString
                  sampleStringToNumber shippedConfig netEmptyPolygon
                  sampleLat sampleLng (clearLayers emptyWorld) in
   let run := identifyParcelAt sampleUnicodeLower sampleFiniteToString
                sampleStringToNumber shippedConfig netEmptyPolygon
                (leafletPolygonError sampleFiniteToString sampleStringToNumber)
                sampleLat sampleLng emptyWorld in
   option_map geometry (match fst query with Normal r => r | Throw _ => None end)
   = Some (Some (mkGeometry (Some [])))
   /\ fst run = Throw (typeErrorReading "map")
   /\ highlightLayer (AppState (snd run)) = [])
  /\ (let query := tryIdentifyFromTaxlots sampleUnicodeLower sampleFiniteToString
                     sampleStringToNumber shippedConfig netShortVertex
                     sampleLat sampleLng (clearLayers emptyWorld) in
      let run := identifyParcelAt sampleUnicodeLower sampleFiniteToString
                   sampleStringToNumber shippedConfig netShortVertex
                   (leafletPolygonError sampleFiniteToString sampleStringToNumber)
                   sampleLat sampleLng emptyWorld in
      option_map geometry (match fst query with Normal r => r | Throw _ => None end)
      = Some (Some (mkGeometry (Some [[[one; one]; [one]]])))
      /\ fst run = Throw (mkError "Error" "Invalid LatLng object: (undefined, 1)")
      /\ highlightLayer (AppState (snd run)) = []).
Proof. vm_compute. repeat split. Qed.

(** The ring [[x1, y1], [x2, y2]] is highlighted as [[y1, x1], [y2, x2]]. *)
Lemma highlight_swaps_axes_witness :
  let run := identifyParcelAt sampleUnicodeLower sampleFiniteToString
               sampleStringToNumber shippedConfig netRing
               (leafletPolygonError sampleFiniteToString sampleStringToNumber)
               sampleLat sampleLng emptyWorld in
  fst run = Normal tt
  /\ highlightLayer (AppState (snd run)) = [[[y1; x1]; [y2; x2]]].
Proof.
  destruct (highlight_swaps_axes sampleUnicodeLower sampleFiniteToString
              sampleStringToNumber shippedConfig netRing
              (leafletPolygonError sampleFiniteToString sampleStringToNumber)
              sampleLat sampleLng emptyWorld
              {| property :=
                   normalizeParcel sampleUnicodeLower sampleFiniteToString
                     sampleStringToNumber (featureAttrs ringFeature);
                 geometry := Feature.geometry ringFeature |}
              [[x1; y1]; [x2; y2]] [] eq_refl eq_refl eq_refl)
    as (Hrun & _ & _ & _ & Hpair).
  split; [exact Hrun|].
  exact (Hpair x1 y1 x2 y2 eq_refl).
Defined.

(** Saving the selection a second time. *)
Lemma save_rejects_duplicate_witness :
  let w' := saveCurrentProperty 1714561200000 "2024-05-01T11:00:00.000Z"
              worldWithSaved in
  toasts w' = [("Property already in your list", "error")]
  /\ saved (AppState w') = saved (AppState worldWithSaved)
  /\ localStorage w' = localStorage worldWithSaved.
Proof.
  destruct (save_rejects_duplicate 1714561200000 "2024-05-01T11:00:00.000Z"
              worldWithSaved smithProperty eq_refl
              (ex_intro _
                 (mkSavedItem
                    (withSavedAt smithProperty (VStr "2024-05-01T10:00:00.000Z"))
                    1714557600000)
                 (conj (or_introl eq_refl) eq_refl)))
    as (Htoast & Hsaved & _ & _ & Hstore).
  split; [exact Htoast|]. split; [exact Hsaved | exact Hstore].
Defined.

(** A search while offline. *)
Lemma search_exhausted_returns_empty_witness :
  fst (searchAddresses configABC netDown "1 main st" emptyWorld) = Normal [].
Proof.
  apply (search_exhausted_returns_empty configABC netDown "1 main st" emptyWorld).
  intros history base _. reflexivity.
Defined.

(** The claim of C9 as the spec words it fails in three ways: a recorded
    acreage of zero is present, yet the label is ["N/A"] and not
    ["0.00 ac"]; an acreage that is text without a number in it gives
    ["NaN ac"]; and from 10^21 on [toFixed] prints an exponent and no
    decimals. *)
Lemma lotSizeLabel_is_not_always_two_decimals :
  ~ (forall attrs,
        let p := normalizeParcel sampleUnicodeLower sampleFiniteToString
                   sampleStringToNumber attrs in
        (present (acres p) = true ->
         lotSizeLabel p
         = toFixed sampleFiniteToString
             (toNumber sampleStringToNumber (acres p)) 2 ++ " ac")
        /\ (lotSizeLabel p = "N/A" -> present (acres p) = false))
  /\ lotSizeLabel (normalizeParcel sampleUnicodeLower sampleFiniteToString
                     sampleStringToNumber [("ACRES", VNum (Finite 0))])
     = "N/A"
  /\ lotSizeLabel (normalizeParcel sampleUnicodeLower sampleFiniteToString
                     sampleStringToNumber [("ACRES", VStr "see deed")])
     = "NaN ac"
  /\ lotSizeLabel (normalizeParcel sampleUnicodeLower sampleFiniteToString
                     sampleStringToNumber
                     [("ACRES", VNum (Finite (inject_Z (10 ^ 21))))])
     = "1e+21 ac".
Proof.
  split; [|vm_compute; repeat split].
  intros claim.
  destruct (claim [("ACRES", VNum (Finite 0))]) as [Hformat _].
  specialize (Hformat eq_refl). vm_compute in Hformat. discriminate.
Qed.

(** An acreage that came as the text "2.5". *)
Lemma lotSizeLabel_by_truthiness_witness :
  lotSizeLabel (normalizeParcel sampleUnicodeLower sampleFiniteToString
                  sampleStringToNumber [("ACRES", VStr "2.5")])
  = "2.50 ac"
  /\ exists a b,
       lotSizeLabel (normalizeParcel sampleUnicodeLower sampleFiniteToString
                       sampleStringToNumber [("ACRES", VStr "2.5")])
       = a ++ "." ++ b ++ " ac"
       /\ String.length b = 2
       /\ readDigits 10 (a ++ b) 0 = Some 250%Z.
Proof.
  split; [vm_compute; reflexivity|].
  destruct (lotSizeLabel_by_truthiness sampleUnicodeLower sampleFiniteToString
              sampleStringToNumber [("ACRES", VStr "2.5")]) as [Hformat _].
  destruct (Hformat (5 # 2)%Q eq_refl ltac:(vm_compute; reflexivity) eq_refl)
    as (a & b & n & Hlabel & Hb & _ & Hread & Hlo & Hhi).
  exists a, b. split; [exact Hlabel|]. split; [exact Hb|].
  rewrite Hread. f_equal.
  assert (Hn : (249 < n < 251)%Z).
  { change (Qabs (5 # 2) * inject_Z 100)%Q with (500 # 2)%Q in Hlo, Hhi.
    split; apply Z.lt_nge; intros Hn; rewrite Zle_Qle in Hn;
      change (inject_Z 249) with (249 # 1)%Q in Hn;
      change (inject_Z 251) with (251 # 1)%Q in Hn; lra. }
  lia.
Defined.

(** The claim of C10 as the spec words it fails: the tax lot is ["N/A"]
    though a parcel-id candidate resolves, in a bag that holds the string
    ["N/A"] itself as the parcel id. *)
Lemma taxLot_NA_with_a_parcel_id :
  ~ (forall attrs,
        (forall k, In k FIELD_MAP.taxLot -> ~ resolves sampleUnicodeLower attrs k) ->
        (taxLot (normalizeParcel sampleUnicodeLower sampleFiniteToString
                   sampleStringToNumber attrs) = VStr "N/A"
         <-> forall k, In k FIELD_MAP.parcelId ->
                       ~ resolves sampleUnicodeLower attrs k)).
Proof.
  intros claim.
  assert (Hno : forall k, In k FIELD_MAP.taxLot ->
                          ~ resolves sampleUnicodeLower [("PARCEL", VStr "N/A")] k)
    by (apply unresolved_all; reflexivity).
  destruct (claim [("PARCEL", VStr "N/A")] Hno) as [Hnone _].
  apply (Hnone eq_refl "PARCEL"); [cbn; tauto|].
  apply resolvesb_spec. reflexivity.
Qed.

(** A bag with an account number and no tax-lot field. *)
Lemma taxLot_falls_back_to_parcelId_witness :
  let p := normalizeParcel sampleUnicodeLower sampleFiniteToString
             sampleStringToNumber
             [("ACCTNO", VStr "0123456"); ("OWNER1", VStr "Smith")] in
  taxLot p = parcelId p /\ taxLot p = VStr "0123456".
Proof.
  pose proof (taxLot_falls_back_to_parcelId sampleUnicodeLower sampleFiniteToString
                sampleStringToNumber
                [("ACCTNO", VStr "0123456"); ("OWNER1", VStr "Smith")]
                (unresolved_all sampleUnicodeLower
                   [("ACCTNO", VStr "0123456"); ("OWNER1", VStr "Smith")]
                   FIELD_MAP.taxLot eq_refl)) as [Heq _].
  split; [exact Heq|]. reflexivity.
Defined.

(* ================================================================ *)
(** ** The further properties on concrete inputs *)

(** The last owner candidate, [ownname], repeats [OWNNAME]. *)
Lemma getField_case_duplicate_is_dead_witness :
  getField sampleUnicodeLower [("ownname", VStr "Smith")] FIELD_MAP.owner VNull
  = getField sampleUnicodeLower [("ownname", VStr "Smith")]
      ["OWNER1"; "OWNER"; "OWNER_NAME"; "NAME"; "GRANTEE"; "OWNNAME"] VNull.
Proof.
  exact (getField_case_duplicate_is_dead sampleUnicodeLower
           [("ownname", VStr "Smith")]
           ["OWNER1"; "OWNER"; "OWNER_NAME"; "NAME"; "GRANTEE"]
           "OWNNAME" [] "ownname" [] VNull eq_refl eq_refl).
Defined.

(** A candidate list that starts with [toString]: the built-in function
    of that name wins over the owner the bag holds, and loses to a
    property of that name. *)
Lemma getField_finds_inherited_members_witness :
  getField sampleUnicodeLower [("OWNER1", VStr "Smith")] ["toString"; "OWNER1"] VNull
  = VObject "toString"
  /\ getField sampleUnicodeLower [("toString", VStr "x")] ["toString"; "OWNER1"] VNull
     = VStr "x".
Proof.
  split.
  - refine (proj1 (getField_finds_inherited_members sampleUnicodeLower
                     [("OWNER1", VStr "Smith")] "toString" ["OWNER1"] VNull
                     eq_refl) _).
    intros [H | []]. discriminate.
  - exact (proj2 (getField_finds_inherited_members sampleUnicodeLower
                    [("toString", VStr "x")] "toString" ["OWNER1"] VNull eq_refl)
             eq_refl).
Defined.

(** Two spellings of the same owner and address. *)
Lemma uniqueKey_ignores_case_witness :
  uniqueKey (normalizeParcel sampleUnicodeLower sampleFiniteToString
               sampleStringToNumber
               [("OWNER1", VStr "SMITH"); ("SITUS_ADDR", VStr "12 Oak St")])
  = uniqueKey (normalizeParcel sampleUnicodeLower sampleFiniteToString
                 sampleStringToNumber
                 [("OWNER1", VStr "Smith"); ("SITUS_ADDR", VStr "12 OAK ST")]).
Proof.
  exact (proj1 (uniqueKey_ignores_case sampleUnicodeLower sampleFiniteToString
                  sampleStringToNumber
                  [("OWNER1", VStr "SMITH"); ("SITUS_ADDR", VStr "12 Oak St")]
                  [("OWNER1", VStr "Smith"); ("SITUS_ADDR", VStr "12 OAK ST")]
                  eq_refl eq_refl eq_refl)).
Defined.

Lemma netOnlyC_rejects : forall history e,
  In e ["https://a.example/0"; "https://b.example/0"] ->
  usableFeature
    (netOnlyC history
       (proxiedUrl configABC
          (taxlotUrl sampleFiniteToString sampleLat sampleLng e)) 8000%N)
  = None.
Proof.
  intros history e [<- | [<- | []]]; reflexivity.
Qed.

(** Endpoints A and B are unreachable and C answers: three requests. *)
Lemma sequencer_first_success_witness :
  let run := tryIdentifyFromTaxlots sampleUnicodeLower sampleFiniteToString
               sampleStringToNumber configABC netOnlyC
               sampleLat sampleLng emptyWorld in
  fst run
  = Normal (Some {| property :=
                      normalizeParcel sampleUnicodeLower sampleFiniteToString
                        sampleStringToNumber (featureAttrs ringFeature);
                    geometry := Feature.geometry ringFeature |})
  /\ List.length (requests (snd run)) = 3.
Proof.
  destruct (sequencer_first_success sampleUnicodeLower sampleFiniteToString
              sampleStringToNumber configABC netOnlyC sampleLat sampleLng
              ["https://a.example/0"; "https://b.example/0"]
              "https://c.example/0" [] ringFeature emptyWorld
              eq_refl netOnlyC_rejects eq_refl)
    as (Hres & Hreq & _).
  cbv zeta. split; [exact Hres|]. rewrite Hreq. reflexivity.
Defined.

(** Esri answers with an address. *)
Lemma reverse_geocode_esri_first_witness :
  let run := tryReverseGeocode sampleFiniteToString configABC netAddress
               sampleLat sampleLng emptyWorld in
  option_map situs (match fst run with Normal r => r | Throw _ => None end)
  = Some (VStr "12 Oak St")
  /\ List.length (requests (snd run)) = 1.
Proof.
  destruct (reverse_geocode_esri_first sampleFiniteToString configABC netAddress
              sampleLat sampleLng oakStreet emptyWorld eq_refl)
    as (Hres & Hreq & _).
  cbv zeta. rewrite Hres, Hreq. split; reflexivity.
Defined.

(** Esri answers with a candidate. *)
Lemma search_esri_first_witness :
  let run := searchAddresses configABC netCandidates "12 oak" emptyWorld in
  fst run
  = Normal [{| address := VStr "12 Oak St, Eugene, Oregon, 97401";
               score := VNum (Finite 100);
               location := (y1, x1) |}]
  /\ List.length (requests (snd run)) = 1.
Proof.
  destruct (search_esri_first configABC netCandidates "12 oak"
              [{| address := VStr "12 Oak St, Eugene, Oregon, 97401";
                  score := VNum (Finite 100);
                  location := (y1, x1) |}]
              emptyWorld eq_refl)
    as (Hres & _ & Hreq).
  cbv zeta. rewrite Hres, Hreq. split; reflexivity.
Defined.

(** The shipped configuration has one taxlot endpoint; it answers. *)
Lemma identify_skips_reverse_geocode_on_success_witness :
  List.length
    (requests (snd (identifyParcelAt sampleUnicodeLower sampleFiniteToString
                      sampleStringToNumber shippedConfig netRing
                      (leafletPolygonError sampleFiniteToString
                         sampleStringToNumber)
                      sampleLat sampleLng emptyWorld)))
  = 1.
Proof.
  destruct (identify_skips_reverse_geocode_on_success
              sampleUnicodeLower sampleFiniteToString sampleStringToNumber
              shippedConfig netRing
              (leafletPolygonError sampleFiniteToString sampleStringToNumber)
              sampleLat sampleLng emptyWorld
              {| property :=
                   normalizeParcel sampleUnicodeLower sampleFiniteToString
                     sampleStringToNumber (featureAttrs ringFeature);
                 geometry := Feature.geometry ringFeature |}
              eq_refl)
    as (Hreq & _).
  rewrite Hreq. reflexivity.
Defined.

(** Offline, the placeholder leads to the home page. *)
Lemma fallback_property_opens_the_home_page_witness :
  openRLID sampleFiniteToString
    (snd (identifyParcelAt sampleUnicodeLower sampleFiniteToString
            sampleStringToNumber shippedConfig netDown
            (leafletPolygonError sampleFiniteToString sampleStringToNumber)
            sampleLat sampleLng emptyWorld))
  = "https://www.rlid.org".
Proof.
  apply (fallback_property_opens_the_home_page sampleUnicodeLower
           sampleFiniteToString sampleStringToNumber shippedConfig netDown
           (leafletPolygonError sampleFiniteToString sampleStringToNumber)
           sampleLat sampleLng emptyWorld).
  intros r H. vm_compute in H. discriminate.
Defined.

(** Saving the account parcel into an empty list. *)
Lemma save_appends_one_item_witness :
  let w' := saveCurrentProperty 1714561200000 "2024-05-01T11:00:00.000Z"
              worldWithAccount in
  List.length (saved (AppState w')) = 1
  /\ isCurrentSaved w' = true
  /\ getItem STORAGE_KEY w' = Some (saved (AppState w')).
Proof.
  destruct (save_appends_one_item 1714561200000 "2024-05-01T11:00:00.000Z"
              worldWithAccount accountProperty eq_refl eq_refl)
    as (Hsaved & _ & Hstore & _ & Hnow & _).
  cbv zeta. split; [rewrite Hsaved; reflexivity|].
  split; [exact Hnow | exact Hstore].
Defined.

(** Saving the account parcel into a list that holds the Smith parcel:
    two items, two keys. *)
Lemma save_keeps_keys_distinct_witness :
  let w' := saveCurrentProperty 1714561200000 "2024-05-01T11:00:00.000Z"
              worldWithSavedAndAccount in
  keysDistinct (saved (AppState w'))
  /\ map (fun p => uniqueKey (savedProperty p)) (saved (AppState w'))
     = ["n/a|12 oak st|smith"; "1234|address not available|smith"].
Proof.
  split; [|reflexivity].
  apply (save_keeps_keys_distinct 1714561200000 "2024-05-01T11:00:00.000Z"
           worldWithSavedAndAccount).
  constructor; [intros [] | constructor].
Defined.

(** Searching the saved Smith parcel for "OAK". *)
Lemma filterSaved_on_text_fields_witness :
  filterSaved sampleUnicodeLower "OAK" (mkSession worldWithSaved [])
  = (Normal tt,
     mkSession (setSavedLists (saved (AppState worldWithSaved))
                  (saved (AppState worldWithSaved)) worldWithSaved) [])
  /\ filterSaved sampleUnicodeLower "elm" (mkSession worldWithSaved [])
     = (Normal tt,
        mkSession (setSavedLists (saved (AppState worldWithSaved)) []
                     worldWithSaved) []).
Proof.
  split.
  - exact (proj1 (filterSaved_on_text_fields sampleUnicodeLower "OAK"
                    (mkSession worldWithSaved []) eq_refl)).
  - exact (proj1 (filterSaved_on_text_fields sampleUnicodeLower "elm"
                    (mkSession worldWithSaved []) eq_refl)).
Defined.

(** The account parcel is saved, then the list is searched for "oak":
    neither the owner nor the address matches, and the numeric parcel id
    cannot be lower-cased. *)
Lemma filterSaved_throws_on_a_number_witness :
  let s := mkSession
             (saveCurrentProperty 1714561200000 "2024-05-01T11:00:00.000Z"
                worldWithAccount) [] in
  filterSaved sampleUnicodeLower "oak" s = (Throw (notAFunction "parcelId"), s).
Proof.
  exact (proj2 (proj2
           (filterSaved_throws_on_a_number sampleUnicodeLower "oak"
              (mkSession
                 (saveCurrentProperty 1714561200000 "2024-05-01T11:00:00.000Z"
                    worldWithAccount) [])
              []
              {| savedProperty :=
                   withSavedAt accountProperty (VStr "2024-05-01T11:00:00.000Z");
                 id := 1714561200000 |}
              [] eq_refl eq_refl eq_refl))
           eq_refl eq_refl eq_refl eq_refl eq_refl).
Defined.

(** The Smith parcel is read back as it was saved; an item whose acreage
    is NaN is read back with [null] in its place. *)
Lemma storage_mirrors_the_saved_list_witness :
  storageMirrorsSaved
    (world (deleteSingleSaved 1714557600000 (mkSession worldWithSaved [])))
  /\ saved (AppState (initSaved worldWithSaved)) = saved (AppState worldWithSaved)
  /\ map (fun p => acres (savedProperty p))
         (saved (AppState
                   (initSaved (setItem STORAGE_KEY [itemWithNaN] emptyWorld))))
     = [VNull].
Proof.
  destruct (storage_mirrors_the_saved_list sampleUnicodeLower
              (mkSession worldWithSaved []) eq_refl)
    as (_ & Hdel & _ & _ & _ & _ & Hexact & _).
  split; [exact (Hdel 1714557600000%N)|].
  split; [exact (Hexact eq_refl) | reflexivity].
Defined.

Lemma view_shows_saved_items_only_witness :
  let s' := deleteSingleSaved 1714557600000 (mkSession worldWithSaved []) in
  incl (filteredSaved (AppState (world s'))) (saved (AppState (world s'))).
Proof.
  destruct (view_shows_saved_items_only sampleUnicodeLower
              (mkSession worldWithSaved []) (incl_refl _))
    as (_ & Hdel & _).
  exact (Hdel 1714557600000%N).
Defined.

(** The account parcel of the examples is what the normalizer returns for
    its raw attributes. *)
Lemma accountProperty_is_normalized :
  normalizeParcel sampleUnicodeLower sampleFiniteToString sampleStringToNumber
    [("ACCTNO", VNum (Finite 1234)); ("OWNER1", VStr "Smith")]
  = accountProperty.
Proof. vm_compute. reflexivity. Qed.
